(** * ext2m.h: geometry, layout addressing, format, probe/load, inode access
      and block allocation of the ext2 image builder, as a shallow embedding.

    Integers are [Z] with the wrap-around of the C++ type written out
    ([u16], [u32], [u64]); a block, the scratch buffer [_buf] and every
    struct object are byte lists ([list Z], one entry per byte), and a struct
    field is an (offset, width) pair read and written little-endian, as the
    pointer casts of the source do. *)

From Stdlib Require Import ZArith List Lia Bool String Ascii.
From stdpp Require Import base list.
Import ListNotations.
Local Open Scope Z_scope.

(** ** Machine integers *)

Definition wrap (bits : Z) (x : Z) : Z := x mod 2 ^ bits.
Definition u8 := wrap 8.
Definition u16 := wrap 16.
Definition u32 := wrap 32.
Definition u64 := wrap 64.

(** [x / y] on unsigned operands; dividing by zero has no result. *)
Definition udiv (x y : Z) : option Z :=
  if y =? 0 then None else Some (x / y).

(** ** config.h *)

(** Modelled from the spec: config.h is not part of the sources; the device
    size, the block size and the two record sizes are "constants of the
    deployment", so they are the fields of a configuration, read as
    [uint64_t] values. *)
Record Config := {
  DISK_SIZE : Z;
  BLOCK_SIZE : Z;
  GROUP_DESC_SIZE : Z;
  INODE_SIZE : Z
}.

Definition KB : Z := 1024.

(** ** Namespace-level helpers *)

(** [constexpr auto ceil(uint64_t x, uint64_t y) { return (x + y - 1) / y; }] *)
Definition ceil (x y : Z) : option Z := udiv (u64 (x + y - 1)) y.

(** [roundup(x, y) = ((x + y - 1) / y) * y] *)
Definition roundup (x y : Z) : option Z :=
  match udiv (u64 (x + y - 1)) y with
  | Some q => Some (u64 (q * y))
  | None => None
  end.

(** [__builtin_ctzll]: number of trailing zero bits; undefined at 0. *)
Fixpoint ctz_pos (p : positive) : Z :=
  match p with
  | xO q => 1 + ctz_pos q
  | _ => 0
  end.

Definition log2 (x : Z) : option Z :=
  match x with
  | Zpos p => Some (ctz_pos p)
  | _ => None
  end.

Definition bytes_per_inode : Z := 2 * KB.
Definition MAX_BLOCKS_PER_GROUP (cfg : Config) : Z := u64 (8 * BLOCK_SIZE cfg).

(** The tuple returned by [block_group_calculation], in its order. *)
Record Geometry := {
  g_full_group_count : Z;
  g_group_count : Z;
  g_blocks_per_group : Z;
  g_blocks_last_group : Z;
  g_group_desc_block_count : Z;
  g_inodes_per_group : Z;
  g_inodes_table_block_count : Z;
  g_data_block_count : Z
}.

(** The operand of the [static_assert] of [block_group_calculation]. *)
Definition sum_of_block_counts (g : Geometry) : Z :=
  u64 (3 + g_group_desc_block_count g + g_data_block_count g
       + g_inodes_table_block_count g).

Definition static_assert_holds (g : Geometry) : bool :=
  sum_of_block_counts g =? g_blocks_per_group g.

Definition bind_opt {A B} (o : option A) (k : A -> option B) : option B :=
  match o with
  | Some a => k a
  | None => None
  end.

Notation "'let?' x ':=' e 'in' k" := (bind_opt e (fun x => k))
  (at level 10, x name, e at level 100, k at level 200).

(** [block_group_calculation]: every operation is on [uint64_t]; a constant
    expression that divides by zero has no value ([None]). *)
Definition block_group_calculation (cfg : Config) : option Geometry :=
  let? TOTAL_BLOCK := udiv (DISK_SIZE cfg) (BLOCK_SIZE cfg) in
  let AVAILABLE_BLOCK := u64 (TOTAL_BLOCK - 1) in
  let? FULL_GROUP_COUNT := udiv AVAILABLE_BLOCK (MAX_BLOCKS_PER_GROUP cfg) in
  let REMAINING_BLOCK :=
    u64 (AVAILABLE_BLOCK - u64 (MAX_BLOCKS_PER_GROUP cfg * FULL_GROUP_COUNT)) in
  let GROUP_COUNT :=
    u64 (FULL_GROUP_COUNT + (if 0 <? REMAINING_BLOCK then 1 else 0)) in
  let? blocks_per_group :=
    udiv (u64 (AVAILABLE_BLOCK - REMAINING_BLOCK)) FULL_GROUP_COUNT in
  let blocks_last_group := REMAINING_BLOCK in
  let group_desc_size := u64 (FULL_GROUP_COUNT * GROUP_DESC_SIZE cfg) in
  let? group_desc_block_count := ceil group_desc_size (BLOCK_SIZE cfg) in
  let remain_block_size :=
    u64 (u64 (blocks_per_group - 3 - group_desc_block_count) * BLOCK_SIZE cfg) in
  let? m := udiv remain_block_size (u64 (bytes_per_inode + INODE_SIZE cfg)) in
  let inodes_per_group := m in
  let inodes_table_size := u64 (inodes_per_group * INODE_SIZE cfg) in
  let? inodes_table_block_count := ceil inodes_table_size (BLOCK_SIZE cfg) in
  let data_block_count :=
    u64 (blocks_per_group - 3 - group_desc_block_count
         - inodes_table_block_count) in
  Some {| g_full_group_count := FULL_GROUP_COUNT;
          g_group_count := GROUP_COUNT;
          g_blocks_per_group := blocks_per_group;
          g_blocks_last_group := blocks_last_group;
          g_group_desc_block_count := group_desc_block_count;
          g_inodes_per_group := inodes_per_group;
          g_inodes_table_block_count := inodes_table_block_count;
          g_data_block_count := data_block_count |}.

(** The values of config.h are [uint64_t]. *)
Definition config_in_range (cfg : Config) : Prop :=
  0 <= DISK_SIZE cfg < 2 ^ 64 /\ 0 <= BLOCK_SIZE cfg < 2 ^ 64 /\
  0 <= GROUP_DESC_SIZE cfg < 2 ^ 64 /\ 0 <= INODE_SIZE cfg < 2 ^ 64.

(** A 17 MB device with 1 KB blocks: two full groups and a short tail. *)
Definition cfg17 : Config :=
  {| DISK_SIZE := 17 * 1024 * KB; BLOCK_SIZE := 1 * KB;
     GROUP_DESC_SIZE := 32; INODE_SIZE := 128 |}.

(** A 9 MB device: one full group and a short tail. *)
Definition cfg9 : Config :=
  {| DISK_SIZE := 9 * 1024 * KB; BLOCK_SIZE := 1 * KB;
     GROUP_DESC_SIZE := 32; INODE_SIZE := 128 |}.

(** ** Byte buffers and struct fields *)

Fixpoint le_split (n : nat) (v : Z) : list Z :=
  match n with
  | O => []
  | S k => v mod 256 :: le_split k (v / 256)
  end.

Fixpoint le_combine (l : list Z) : Z :=
  match l with
  | [] => 0
  | b :: t => b + 256 * le_combine t
  end.

Definition byte_at (buf : list Z) (i : nat) : Z := default 0 (buf !! i).

Definition load_bytes (off n : nat) (buf : list Z) : list Z :=
  take n (drop off buf).

(** [memcpy(buf + off, bs, |bs|)] into a buffer that holds the bytes. *)
Definition store_bytes (off : nat) (bs buf : list Z) : list Z :=
  list_inserts off bs buf.

(** A struct member: its byte offset and its width in bytes. *)
Record field := Field { f_off : nat; f_width : nat }.

Definition load (f : field) (buf : list Z) : Z :=
  le_combine (map (byte_at buf) (seq (f_off f) (f_width f))).

(** Assignment to a member converts the value to the member's type. *)
Definition store (f : field) (v : Z) (buf : list Z) : list Z :=
  store_bytes (f_off f) (le_split (f_width f) v) buf.

(** The member [f] of the struct that starts [base] bytes into a buffer. *)
Definition at_offset (base : nat) (f : field) : field :=
  Field (base + f_off f)%nat (f_width f).

Definition zeros (n : nat) : list Z := replicate n 0.

(** [strcpy(buf + off, s)]: the characters and the terminating NUL. *)
Definition c_string (s : string) : list Z :=
  map (fun a => Z.of_N (N_of_ascii a)) (list_ascii_of_string s) ++ [0].

Definition strcpy (off : nat) (s : string) (buf : list Z) : list Z :=
  store_bytes off (c_string s) buf.

(** ** On-disk structures *)

(** Modelled from the spec: the struct declarations are not part of the
    sources; "superblock and group-descriptor field layouts, magic value,
    feature flags, and directory-entry encoding follow the standard ext2
    on-disk formats (fixed field offsets/widths)". *)
Module SB.
Definition size : nat := 1024.
Definition s_inodes_count := Field 0 4.
Definition s_blocks_count := Field 4 4.
Definition s_r_blocks_count := Field 8 4.
Definition s_free_blocks_count := Field 12 4.
Definition s_free_inodes_count := Field 16 4.
Definition s_first_data_block := Field 20 4.
Definition s_log_block_size := Field 24 4.
Definition s_log_frag_size := Field 28 4.
Definition s_blocks_per_group := Field 32 4.
Definition s_frags_per_group := Field 36 4.
Definition s_inodes_per_group := Field 40 4.
Definition s_mtime := Field 44 4.
Definition s_wtime := Field 48 4.
Definition s_mnt_count := Field 52 2.
Definition s_max_mnt_count := Field 54 2.
Definition s_magic := Field 56 2.
Definition s_state := Field 58 2.
Definition s_errors := Field 60 2.
Definition s_minor_rev_level := Field 62 2.
Definition s_lastcheck := Field 64 4.
Definition s_checkinterval := Field 68 4.
Definition s_creator_os := Field 72 4.
Definition s_rev_level := Field 76 4.
Definition s_def_resuid := Field 80 2.
Definition s_def_resgid := Field 82 2.
Definition s_first_ino := Field 84 4.
Definition s_inode_size := Field 88 2.
Definition s_block_group_nr := Field 90 2.
Definition s_feature_compat := Field 92 4.
Definition s_feature_incompat := Field 96 4.
Definition s_feature_ro_compat := Field 100 4.
Definition s_uuid := Field 104 16.
Definition s_volume_name := Field 120 16.
Definition s_last_mounted := Field 136 64.
Definition s_algorithm_usage_bitmap := Field 200 4.
Definition s_prealloc_blocks := Field 204 1.
Definition s_prealloc_dir_blocks := Field 205 1.
Definition s_journal_uuid := Field 208 16.
Definition s_journal_inum := Field 224 4.
Definition s_journal_dev := Field 228 4.
Definition s_last_orphan := Field 232 4.
Definition s_hash_seed := Field 236 16.
Definition s_def_hash_version := Field 252 1.
Definition s_default_mount_opts := Field 256 4.
Definition s_first_meta_bg := Field 260 4.
End SB.

Module GD.
Definition size : nat := 32.
Definition bg_block_bitmap := Field 0 4.
Definition bg_inode_bitmap := Field 4 4.
Definition bg_inode_table := Field 8 4.
Definition bg_free_blocks_count := Field 12 2.
Definition bg_free_inodes_count := Field 14 2.
Definition bg_used_dirs_count := Field 16 2.
End GD.

Module INO.
Definition size : nat := 128.
Definition i_mode := Field 0 2.
Definition i_uid := Field 2 2.
Definition i_size := Field 4 4.
Definition i_atime := Field 8 4.
Definition i_ctime := Field 12 4.
Definition i_mtime := Field 16 4.
Definition i_dtime := Field 20 4.
Definition i_gid := Field 24 2.
Definition i_links_count := Field 26 2.
Definition i_blocks := Field 28 4.
Definition i_flags := Field 32 4.
Definition i_block := Field 40 60.
Definition i_block_at (k : nat) := Field (40 + 4 * k) 4.
Definition i_generation := Field 100 4.
Definition i_file_acl := Field 104 4.
Definition i_dir_acl := Field 108 4.
Definition i_faddr := Field 112 4.
End INO.

Module DE.
Definition inode := Field 0 4.
Definition rec_len := Field 4 2.
Definition name_len := Field 6 1.
Definition file_type := Field 7 1.
Definition name_at (k : nat) := Field (8 + k) 1.
End DE.

Definition EXT2_SUPER_MAGIC : Z := 0xEF53.
Definition EXT2_VALID_FS : Z := 1.
Definition EXT2_ERRORS_CONTINUE : Z := 1.
Definition EXT2_OS_LINUX : Z := 0.
Definition EXT2_DEF_RESUID : Z := 0.
Definition EXT2_DEF_RESGID : Z := 0.
Definition EXT2_GOOD_OLD_FIRST_INO : Z := 11.
Definition EXT2_S_IFDIR : Z := 0x4000.
Definition EXT2_S_IFMT : Z := 0xF000.
Definition EXT2_FT_DIR : Z := 2.
Definition UINT32_MAX : Z := 2 ^ 32 - 1.
Definition mode_0755 : Z := 493.

(** ** cache.h *)

Inductive io_event :=
| EvRead (index : Z)
| EvWrite (index : Z)
| EvFlush.

(** Modelled from the spec: cache.h is not part of the sources; the block
    device is "read_block(index) -> fixed-size buffer, write_block(index,
    buffer), flush_all()", a read returning what was last written. The log
    records the calls, latest first. *)
Record Cache := {
  blocks : Z -> list Z;
  io_log : list io_event
}.

Definition cache_read_block (index : Z) (c : Cache) : list Z * Cache :=
  (blocks c index, {| blocks := blocks c; io_log := EvRead index :: io_log c |}).

Definition cache_write_block (index : Z) (block : list Z) (c : Cache) : Cache :=
  {| blocks := fun j => if j =? index then block else blocks c j;
     io_log := EvWrite index :: io_log c |}.

Definition cache_flush_all (c : Cache) : Cache :=
  {| blocks := blocks c; io_log := EvFlush :: io_log c |}.

(** ** bitmap.h *)

(** Modelled from the spec: bitmap.h is not part of the sources; the bit
    vector is "constructed over a backing buffer plus a logical bit count;
    test/set(i); next_unset(from) -> index or none; raw_bytes() -> (pointer,
    length)". It holds its own copy of the packed bytes, bit [i] in byte
    [i / 8] at position [i mod 8]; [set] outside the bit count changes
    nothing. *)
Record BitMap := {
  bm_bytes : list Z;
  bm_nbits : Z
}.

Definition BitMap_new (buf : list Z) (nbits : Z) : BitMap :=
  {| bm_bytes := take (Z.to_nat ((nbits + 7) / 8)) buf; bm_nbits := nbits |}.

Definition bm_test (bm : BitMap) (i : Z) : bool :=
  Z.testbit (byte_at (bm_bytes bm) (Z.to_nat (i / 8))) (i mod 8).

Definition bm_set (bm : BitMap) (i : Z) : BitMap :=
  if (0 <=? i) && (i <? bm_nbits bm) then
    let k := Z.to_nat (i / 8) in
    {| bm_bytes :=
         <[k := Z.lor (byte_at (bm_bytes bm) k) (Z.shiftl 1 (i mod 8))]> (bm_bytes bm);
       bm_nbits := bm_nbits bm |}
  else bm.

Fixpoint next_unset (n : nat) (bm : BitMap) (i : Z) : option Z :=
  match n with
  | O => None
  | S k => if bm_test bm i then next_unset k bm (i + 1) else Some i
  end.

(** The first unset bit at or after [from], below the bit count. *)
Definition bm_nextBit (bm : BitMap) (from : Z) : option Z :=
  next_unset (Z.to_nat (bm_nbits bm - from)) bm from.

Definition bm_data (bm : BitMap) : list Z * nat :=
  (bm_bytes bm, length (bm_bytes bm)).

(** ** Results of fallible member functions *)

Inductive res (A : Type) :=
| Ok (a : A)
| AssertFail
| Undefined
| OutOfFuel.

Arguments Ok {A} a.
Arguments AssertFail {A}.
Arguments Undefined {A}.
Arguments OutOfFuel {A}.

(** [for (i = lo; i < lo + n; i++) s = body(i, s);] *)
Fixpoint for_range {T : Type} (lo : Z) (n : nat) (body : Z -> T -> T) (s : T) : T :=
  match n with
  | O => s
  | S k => for_range (lo + 1) k body (body lo s)
  end.

(** ** class Ext2m *)

(** The members the member functions below use; [_superb] and [_group_desc]
    are only touched by the constructor. *)
Record Ext2m := {
  _disk : Cache;
  _buf : list Z;
  full_group_count : Z;
  blocks_per_group : Z;
  inodes_per_group : Z;
  group_desc_block_count : Z;
  inodes_table_block_count : Z
}.

Definition with_disk (c : Cache) (st : Ext2m) : Ext2m :=
  {| _disk := c; _buf := _buf st;
     full_group_count := full_group_count st;
     blocks_per_group := blocks_per_group st;
     inodes_per_group := inodes_per_group st;
     group_desc_block_count := group_desc_block_count st;
     inodes_table_block_count := inodes_table_block_count st |}.

Definition with_buf (b : list Z) (st : Ext2m) : Ext2m :=
  {| _disk := _disk st; _buf := b;
     full_group_count := full_group_count st;
     blocks_per_group := blocks_per_group st;
     inodes_per_group := inodes_per_group st;
     group_desc_block_count := group_desc_block_count st;
     inodes_table_block_count := inodes_table_block_count st |}.

(** What the environment supplies: the successive values of [time(NULL)] and
    the indeterminate bytes of uninitialised local objects. *)
Record Env := {
  time : nat -> Z;
  junk_super_block : nat -> Z;
  junk_group_desc : nat -> Z;
  junk_root_ino : nat -> Z
}.

(** An object of [n] bytes whose initial content is whatever [junk] holds. *)
Definition uninitialised (junk : nat -> Z) (n : nat) : list Z :=
  map (fun i => u8 (junk i)) (seq 0 n).

Section Ext2m.

Variable cfg : Config.

Definition BS : nat := Z.to_nat (BLOCK_SIZE cfg).

(** [_disk.read_block(index, _buf)] *)
Definition read_block (index : Z) (st : Ext2m) : Ext2m :=
  let (b, c) := cache_read_block index (_disk st) in
  with_buf b (with_disk c st).

(** [_disk.write_block(index, src)]: one block starting at [src]. *)
Definition write_block (index : Z) (src : list Z) (st : Ext2m) : Ext2m :=
  with_disk (cache_write_block index (take BS src) (_disk st)) st.

Definition sync (st : Ext2m) : Ext2m :=
  with_disk (cache_flush_all (_disk st)) st.

(** *** Layout addressing; every function returns [unsigned] *)

Definition get_group_index (st : Ext2m) (group_index : Z) : Z :=
  u32 (u64 (u64 (group_index * blocks_per_group st) + 1)).

Definition get_group_super_block_index (st : Ext2m) (group_index : Z) : Z :=
  u32 (get_group_index st group_index + 0).

Definition get_group_group_desc_table_index (st : Ext2m) (group_index : Z) : Z :=
  u32 (get_group_index st group_index + 1).

Definition get_group_block_bitmap_index (st : Ext2m) (group_index : Z) : Z :=
  u32 (u64 (get_group_group_desc_table_index st group_index
            + group_desc_block_count st)).

Definition get_group_inode_bitmap_index (st : Ext2m) (group_index : Z) : Z :=
  u32 (get_group_block_bitmap_index st group_index + 1).

Definition get_group_inode_table_index (st : Ext2m) (group_index : Z) : Z :=
  u32 (get_group_inode_bitmap_index st group_index + 1).

Definition get_group_data_table_index (st : Ext2m) (group_index : Z) : Z :=
  u32 (u64 (get_group_inode_table_index st group_index
            + inodes_table_block_count st)).

Definition write_super_block_to_group (group_index : Z) (block : list Z)
    (st : Ext2m) : Ext2m :=
  write_block (get_group_super_block_index st group_index) block st.

Definition write_group_desc_table_to_group (group_index : Z) (block : list Z)
    (st : Ext2m) : Ext2m :=
  for_range 0 (Z.to_nat (group_desc_block_count st))
    (fun i s =>
       write_block (u64 (get_group_group_desc_table_index s group_index + i))
         (drop (Z.to_nat i * BS)%nat block) s)
    st.

(** *** Probe *)

(** [1024 << s] on [int]: the value wraps to 32 bits (two's complement); a
    shift count of 32 or more has no defined result. *)
Definition shl_int (a s : Z) : option Z :=
  if s <? 32 then Some ((a * 2 ^ s + 2 ^ 31) mod 2 ^ 32 - 2 ^ 31) else None.

Definition check_is_ext2_format (st : Ext2m) : res (bool * Ext2m) :=
  let st := read_block 1 st in
  let sb := _buf st in
  let flag := true in
  let flag := flag && (load SB.s_magic sb =? EXT2_SUPER_MAGIC) in
  match shl_int 1024 (load SB.s_log_block_size sb) with
  | None => Undefined
  | Some shifted =>
      let flag := flag && (u64 shifted =? BLOCK_SIZE cfg) in
      let flag := flag && (load SB.s_first_data_block sb =? 1) in
      let flag := flag && (load SB.s_inodes_per_group sb <=? u64 (8 * BLOCK_SIZE cfg)) in
      let flag := flag && (load SB.s_first_ino sb =? EXT2_GOOD_OLD_FIRST_INO) in
      let flag := flag && (load SB.s_inode_size sb =? INODE_SIZE cfg) in
      Ok (flag, st)
  end.

(** *** Inode accessors *)

(** [inode = inode_table[ind]] reads [sizeof(ext2_inode)] bytes at
    [_buf + ind * sizeof(ext2_inode)]; outside [_buf] the access is
    undefined. *)
Definition get_inode (inode_num : Z) (st : Ext2m) : res (list Z * Ext2m) :=
  if negb (1 <=? inode_num) then AssertFail else
  let inode_num := u64 (inode_num - 1) in
  match udiv inode_num (inodes_per_group st),
        (if inodes_per_group st =? 0 then None
         else Some (inode_num mod inodes_per_group st)) with
  | Some group_index, Some ind =>
      if negb (group_index <? full_group_count st) then AssertFail else
      let inode_table_block_ind := get_group_inode_table_index st group_index in
      let st := read_block inode_table_block_ind st in
      let off := (Z.to_nat ind * INO.size)%nat in
      if (off + INO.size <=? BS)%nat
      then Ok (load_bytes off INO.size (_buf st), st)
      else Undefined
  | _, _ => Undefined
  end.

Definition write_inode (inode_num : Z) (inode : list Z) (st : Ext2m) : res Ext2m :=
  if negb (1 <=? inode_num) then AssertFail else
  let inode_num := u64 (inode_num - 1) in
  match udiv inode_num (inodes_per_group st),
        (if inodes_per_group st =? 0 then None
         else Some (inode_num mod inodes_per_group st)) with
  | Some group_index, Some ind =>
      if negb (group_index <? full_group_count st) then AssertFail else
      let inode_table_block_ind := get_group_inode_table_index st group_index in
      let st := read_block inode_table_block_ind st in
      let off := (Z.to_nat ind * INO.size)%nat in
      if (off + INO.size <=? BS)%nat
      then
        let st := with_buf (store_bytes off (take INO.size inode) (_buf st)) st in
        Ok (write_block inode_table_block_ind (_buf st) st)
      else Undefined
  | _, _ => Undefined
  end.

(** *** Bitmap accessors *)

Definition get_group_block_bitmap (group_index : Z) (st : Ext2m) : BitMap * Ext2m :=
  let st := read_block (get_group_block_bitmap_index st group_index) st in
  (BitMap_new (_buf st) (blocks_per_group st), st).

Definition get_group_inode_bitmap (group_index : Z) (st : Ext2m) : BitMap * Ext2m :=
  let st := read_block (get_group_inode_bitmap_index st group_index) st in
  (BitMap_new (_buf st) (inodes_per_group st), st).

Definition write_group_block_bitmap (group_index : Z) (bitmap : BitMap)
    (st : Ext2m) : Ext2m :=
  let (buf, size) := bm_data bitmap in
  let st := with_buf (zeros BS) st in
  let st := with_buf (store_bytes 0 (take size buf) (_buf st)) st in
  write_block (get_group_block_bitmap_index st group_index) (_buf st) st.

Definition write_group_inode_bitmap (group_index : Z) (bitmap : BitMap)
    (st : Ext2m) : Ext2m :=
  let (buf, size) := bm_data bitmap in
  let st := with_buf (zeros BS) st in
  let st := with_buf (store_bytes 0 (take size buf) (_buf st)) st in
  write_block (get_group_inode_bitmap_index st group_index) (_buf st) st.

(** *** Load *)

Definition read_info (st : Ext2m) : res Ext2m :=
  let st := read_block 1 st in
  let sb := _buf st in
  let bpg := load SB.s_blocks_per_group sb in
  let ipg := load SB.s_inodes_per_group sb in
  match udiv (load SB.s_inodes_count sb) (load SB.s_inodes_per_group sb) with
  | None => Undefined
  | Some fgc =>
      let _group_size := u64 (fgc * Z.of_nat GD.size) in
      match ceil _group_size (BLOCK_SIZE cfg),
            ceil (u64 (ipg * INODE_SIZE cfg)) (BLOCK_SIZE cfg) with
      | Some gdbc, Some itbc =>
          Ok {| _disk := _disk st; _buf := _buf st;
                full_group_count := fgc;
                blocks_per_group := bpg;
                inodes_per_group := ipg;
                group_desc_block_count := gdbc;
                inodes_table_block_count := itbc |}
      | _, _ => Undefined
      end
  end.

(** *** Block allocator *)

(** How the [while (start != -1)] loop over one group's bitmap ends: with
    [return ret] once [count] reaches zero, or with [start == -1]. The bitmap
    is the local object as it is when the loop is left. *)
Inductive scan_result :=
| Returned (bitmap : BitMap) (ret : list Z)
| Exhausted (bitmap : BitMap) (ret : list Z) (count : Z)
| ScanOutOfFuel.

Fixpoint scan_group (fuel : nat) (bitmap : BitMap) (start group_ind : Z)
    (ret : list Z) (count : Z) : scan_result :=
  match fuel with
  | O => ScanOutOfFuel
  | S fuel =>
      match bm_nextBit bitmap start with
      | None => Exhausted bitmap ret count
      | Some start =>
          let ret := ret ++ [u64 (start + group_ind)] in
          let bitmap := bm_set bitmap start in
          let count := u64 (count - 1) in
          if count =? 0 then Returned bitmap ret
          else scan_group fuel bitmap start group_ind ret count
      end
  end.

(** The [for] loop over the groups, entered at its condition with cursor [i].
    [seen] collects, per visited group, the local bitmap as it is when it goes
    out of scope; it is not part of what the function returns. *)
Fixpoint alloc_loop (fuel : nat) (group_id i : Z) (ret : list Z) (count : Z)
    (seen : list (Z * BitMap)) (st : Ext2m)
    : res (list Z * list (Z * BitMap) * Ext2m) :=
  match fuel with
  | O => OutOfFuel
  | S fuel =>
      if full_group_count st =? 0 then Undefined else
      let next := u64 (i + 1) mod full_group_count st in
      if next =? group_id then Ok ([], seen, st) else
      let group_ind := get_group_index st i in
      let (bitmap, st) := get_group_block_bitmap i st in
      match scan_group (S (Z.to_nat (bm_nbits bitmap))) bitmap 0 group_ind
              ret count with
      | Returned bitmap ret => Ok (ret, seen ++ [(i, bitmap)], st)
      | Exhausted bitmap ret count =>
          alloc_loop fuel group_id next ret count (seen ++ [(i, bitmap)]) st
      | ScanOutOfFuel => OutOfFuel
      end
  end.

Definition get_free_block_indexes_seen (fuel : nat) (group_id count : Z)
    (st : Ext2m) : res (list Z * list (Z * BitMap) * Ext2m) :=
  alloc_loop fuel group_id group_id [] count [] st.

Definition get_free_block_indexes (fuel : nat) (group_id count : Z)
    (st : Ext2m) : res (list Z * Ext2m) :=
  match get_free_block_indexes_seen fuel group_id count st with
  | Ok (ret, _, st) => Ok (ret, st)
  | AssertFail => AssertFail
  | Undefined => Undefined
  | OutOfFuel => OutOfFuel
  end.

(** *** Format *)

Definition boot_sector_text : string :=
  "EXT2FS , THIS THE FIRST BLOCK FOR BLCOK SIZE = 1KB , THIS IS THE BOOT SECTOR".

(** The copies into [_buf], into the descriptor staging area and out of
    [_buf] into a bitmap stay inside their buffers. *)
Definition buffers_in_bounds (g : Geometry) : bool :=
  (Z.of_nat SB.size <=? BLOCK_SIZE cfg)
  && (u64 (g_full_group_count g * Z.of_nat GD.size)
      <=? u64 (BLOCK_SIZE cfg * g_group_desc_block_count g))
  && ((g_blocks_per_group g + 7) / 8 <=? BLOCK_SIZE cfg)
  && ((g_inodes_per_group g + 7) / 8 <=? BLOCK_SIZE cfg).

Definition set_geometry (g : Geometry) (st : Ext2m) : Ext2m :=
  {| _disk := _disk st; _buf := _buf st;
     full_group_count := g_full_group_count g;
     blocks_per_group := g_blocks_per_group g;
     inodes_per_group := g_inodes_per_group g;
     group_desc_block_count := g_group_desc_block_count g;
     inodes_table_block_count := g_inodes_table_block_count g |}.

Definition format_boot_sector (st : Ext2m) : Ext2m :=
  let st := with_buf (strcpy 0 boot_sector_text (_buf st)) st in
  write_block 0 (_buf st) st.

(** The local [super_block] after its initialisation block and the later
    [s_free_blocks_count -= ...]. *)
Definition build_super_block (env : Env) (g : Geometry) (log_block_size : Z)
    : list Z :=
  let full_group_count := g_full_group_count g in
  let blocks_per_group := g_blocks_per_group g in
  let group_desc_block_count := g_group_desc_block_count g in
  let inodes_per_group := g_inodes_per_group g in
  let inodes_table_block_count := g_inodes_table_block_count g in
  let sb := uninitialised (junk_super_block env) SB.size in
  let sb := store SB.s_inodes_count (u64 (inodes_per_group * full_group_count)) sb in
  let sb := store SB.s_blocks_count (u64 (MAX_BLOCKS_PER_GROUP cfg * full_group_count)) sb in
  let sb := store SB.s_r_blocks_count 0 sb in
  let sb := store SB.s_free_blocks_count (u64 (blocks_per_group * full_group_count)) sb in
  let sb := store SB.s_free_inodes_count (u64 (inodes_per_group * full_group_count)) sb in
  let sb := store SB.s_first_data_block (if BLOCK_SIZE cfg =? 1 * KB then 1 else 0) sb in
  let sb := store SB.s_log_block_size log_block_size sb in
  let sb := store SB.s_log_frag_size (load SB.s_log_block_size sb) sb in
  let sb := store SB.s_blocks_per_group blocks_per_group sb in
  let sb := store SB.s_frags_per_group (load SB.s_blocks_per_group sb) sb in
  let sb := store SB.s_inodes_per_group inodes_per_group sb in
  let sb := store SB.s_mtime (time env 0) sb in
  let sb := store SB.s_wtime (time env 1) sb in
  let sb := store SB.s_mnt_count 0 sb in
  let sb := store SB.s_max_mnt_count 1024 sb in
  let sb := store SB.s_magic EXT2_SUPER_MAGIC sb in
  let sb := store SB.s_state EXT2_VALID_FS sb in
  let sb := store SB.s_errors EXT2_ERRORS_CONTINUE sb in
  let sb := store SB.s_minor_rev_level 0 sb in
  let sb := store SB.s_lastcheck (time env 2) sb in
  let sb := store SB.s_checkinterval UINT32_MAX sb in
  let sb := store SB.s_creator_os EXT2_OS_LINUX sb in
  let sb := store SB.s_rev_level 0 sb in
  let sb := store SB.s_def_resuid EXT2_DEF_RESUID sb in
  let sb := store SB.s_def_resgid EXT2_DEF_RESGID sb in
  let sb := store SB.s_first_ino EXT2_GOOD_OLD_FIRST_INO sb in
  let sb := store SB.s_inode_size (INODE_SIZE cfg) sb in
  let sb := store SB.s_block_group_nr 0 sb in
  let sb := store SB.s_feature_compat 0 sb in
  let sb := store SB.s_feature_incompat 0 sb in
  let sb := store SB.s_feature_ro_compat 0 sb in
  let sb := store_bytes (f_off SB.s_uuid) (zeros (f_width SB.s_uuid)) sb in
  let sb := strcpy (f_off SB.s_volume_name) "*.img" sb in
  let sb := store_bytes (f_off SB.s_last_mounted) (zeros (f_width SB.s_last_mounted)) sb in
  let sb := store SB.s_algorithm_usage_bitmap 0 sb in
  let sb := store SB.s_prealloc_blocks 0 sb in
  let sb := store SB.s_prealloc_dir_blocks 0 sb in
  let sb := store_bytes (f_off SB.s_journal_uuid) (zeros (f_width SB.s_journal_uuid)) sb in
  let sb := store SB.s_journal_inum 0 sb in
  let sb := store SB.s_journal_dev 0 sb in
  let sb := store SB.s_last_orphan 0 sb in
  let sb := store_bytes (f_off SB.s_hash_seed) (zeros (f_width SB.s_hash_seed)) sb in
  let sb := store SB.s_def_hash_version 0 sb in
  let sb := store SB.s_default_mount_opts 0 sb in
  let sb := store SB.s_first_meta_bg 0 sb in
  store SB.s_free_blocks_count
    (u64 (load SB.s_free_blocks_count sb
          - u64 (u64 (3 + group_desc_block_count + inodes_table_block_count)
                 * full_group_count))) sb.

(** One iteration of the loop that fills the local [group_desc] array. *)
Definition init_group_desc (st : Ext2m) (g : Geometry) (i : Z) (gd : list Z)
    : list Z :=
  let base := (Z.to_nat i * GD.size)%nat in
  let gd := store (at_offset base GD.bg_block_bitmap) (get_group_block_bitmap_index st i) gd in
  let gd := store (at_offset base GD.bg_inode_bitmap) (get_group_inode_bitmap_index st i) gd in
  let gd := store (at_offset base GD.bg_inode_table) (get_group_inode_table_index st i) gd in
  let gd := store (at_offset base GD.bg_free_blocks_count)
              (u64 (g_blocks_per_group g - 3 - g_group_desc_block_count g
                    - g_inodes_table_block_count g)) gd in
  let gd := store (at_offset base GD.bg_free_inodes_count) (g_inodes_per_group g) gd in
  store (at_offset base GD.bg_used_dirs_count) 0 gd.

Definition build_group_desc (env : Env) (st : Ext2m) (g : Geometry) : list Z :=
  let n := Z.to_nat (g_full_group_count g) in
  for_range 0 n (init_group_desc st g) (uninitialised (junk_group_desc env) (n * GD.size)).

(** The zero-filled staging area [ptr] with the descriptor array copied in. *)
Definition group_desc_staging (g : Geometry) (group_desc : list Z) : list Z :=
  store_bytes 0 group_desc
    (zeros (Z.to_nat (u64 (BLOCK_SIZE cfg * g_group_desc_block_count g)))).

(** One iteration of "Initialize each block group". *)
Definition init_block_group (g : Geometry) (i : Z) (st : Ext2m) : Ext2m :=
  let st := with_buf (zeros BS) st in
  let start_ind := get_group_inode_bitmap_index st i in
  let end_ind := u64 (get_group_index st i + g_blocks_per_group g) in
  let st := for_range start_ind (Z.to_nat (end_ind - start_ind))
              (fun j s => write_block j (_buf s) s) st in
  let (bm, st) := get_group_block_bitmap i st in
  let _end := u64 (3 + g_group_desc_block_count g + g_inodes_table_block_count g) in
  let bm := for_range 0 (Z.to_nat _end) (fun _j b => bm_set b _j) bm in
  write_group_block_bitmap i bm st.

(** [format] up to and including the first [sync()]. *)
Definition format_layout (env : Env) (g : Geometry) (log_block_size : Z)
    (st : Ext2m) : Ext2m :=
  let st := format_boot_sector st in
  let st := set_geometry g st in
  let n := Z.to_nat (g_full_group_count g) in
  let super_block := build_super_block env g log_block_size in
  let group_desc := build_group_desc env st g in
  let st := with_buf (zeros BS) st in
  let st := with_buf (store_bytes 0 super_block (_buf st)) st in
  let st := for_range 0 n (fun i s => write_super_block_to_group i (_buf s) s) st in
  let ptr := group_desc_staging g group_desc in
  let st := for_range 0 n (fun i s => write_group_desc_table_to_group i ptr s) st in
  let st := for_range 0 n (init_block_group g) st in
  sync st.

(** The two directory entries built in [_buf]. *)
Definition root_directory_block : option (list Z) :=
  let buf := zeros BS in
  let _offset := 0 in
  let buf := store (at_offset 0 DE.inode) 2 buf in
  let buf := store (at_offset 0 DE.name_len) 1 buf in
  let buf := store (at_offset 0 DE.file_type) EXT2_FT_DIR buf in
  let buf := store (at_offset 0 (DE.name_at 0)) 46 buf in
  let buf := store (at_offset 0 (DE.name_at 1)) 0 buf in
  let _offset := u64 (_offset + 8) in
  let _offset := u64 (_offset + (load (at_offset 0 DE.name_len) buf + 1)) in
  let? _offset := roundup _offset 4 in
  let buf := store (at_offset 0 DE.rec_len) _offset buf in
  let base := Z.to_nat _offset in
  let buf := store (at_offset base DE.inode) 2 buf in
  let buf := store (at_offset base DE.name_len) 2 buf in
  let buf := store (at_offset base DE.file_type) EXT2_FT_DIR buf in
  let buf := store (at_offset base (DE.name_at 0)) 46 buf in
  let buf := store (at_offset base (DE.name_at 1)) 46 buf in
  let buf := store (at_offset base (DE.name_at 2)) 0 buf in
  let buf := store (at_offset base DE.rec_len) (u64 (BLOCK_SIZE cfg - _offset)) buf in
  Some buf.

(** The local [root_ino] before [i_block[0]] is assigned. *)
Definition build_root_inode (env : Env) : list Z :=
  let root_ino := uninitialised (junk_root_ino env) INO.size in
  let root_ino := store INO.i_mode (Z.lor EXT2_S_IFDIR mode_0755) root_ino in
  let root_ino := store INO.i_uid 0 root_ino in
  let root_ino := store INO.i_size 0 root_ino in
  let root_ino := store INO.i_atime (time env 3) root_ino in
  let root_ino := store INO.i_ctime (time env 4) root_ino in
  let root_ino := store INO.i_mtime (time env 5) root_ino in
  let root_ino := store INO.i_dtime 0 root_ino in
  let root_ino := store INO.i_gid 0 root_ino in
  let root_ino := store INO.i_links_count 2 root_ino in
  let root_ino := store INO.i_blocks 1 root_ino in
  let root_ino := store INO.i_flags 0 root_ino in
  let root_ino := store INO.i_generation 0 root_ino in
  let root_ino := store INO.i_file_acl 0 root_ino in
  let root_ino := store INO.i_dir_acl 0 root_ino in
  let root_ino := store INO.i_faddr 0 root_ino in
  store_bytes (f_off INO.i_block) (zeros (f_width INO.i_block)) root_ino.

(** "Add root directory", up to the last [sync()]; the result carries the
    locals [bm] and [root_ino] as they are when [format] returns.
    [tmp.front()] on an empty vector is undefined. *)
Definition add_root_directory (env : Env) (st : Ext2m)
    : res (BitMap * list Z * Ext2m) :=
  let (bm, st) := get_group_inode_bitmap 0 st in
  let bm := bm_set bm 2 in
  let root_ino := build_root_inode env in
  match get_free_block_indexes (Z.to_nat (full_group_count st)) 0 1 st with
  | Ok (tmp, st) =>
      match tmp with
      | [] => Undefined
      | front :: _ =>
          let root_ino := store (INO.i_block_at 0) front root_ino in
          match root_directory_block with
          | Some buf =>
              let st := with_buf buf st in
              let st := write_block (load (INO.i_block_at 0) root_ino) (_buf st) st in
              Ok (bm, root_ino, st)
          | None => Undefined
          end
      end
  | AssertFail => AssertFail
  | Undefined => Undefined
  | OutOfFuel => OutOfFuel
  end.

(** [format]: the geometry is a constant expression, so a division by zero
    in it or a failing [static_assert] leaves no program to run. *)
Definition format (env : Env) (st : Ext2m) : res Ext2m :=
  match block_group_calculation cfg with
  | None => Undefined
  | Some g =>
      if negb (static_assert_holds g) then Undefined else
      if negb (buffers_in_bounds g) then Undefined else
      match udiv (BLOCK_SIZE cfg) 1024 with
      | Some q =>
          match log2 q with
          | Some log_block_size =>
              let st := format_layout env g log_block_size st in
              match add_root_directory env st with
              | Ok (_, _, st) => Ok (sync st)
              | AssertFail => AssertFail
              | Undefined => Undefined
              | OutOfFuel => OutOfFuel
              end
          | None => Undefined
          end
      | None => Undefined
      end
  end.

End Ext2m.

(** ** A blank device and a fresh object *)

Definition zero_device (cfg : Config) : Cache :=
  {| blocks := fun _ => zeros (BS cfg); io_log := [] |}.

Definition fresh (cfg : Config) (c : Cache) : Ext2m :=
  {| _disk := c; _buf := zeros (BS cfg);
     full_group_count := 0; blocks_per_group := 0; inodes_per_group := 0;
     group_desc_block_count := 0; inodes_table_block_count := 0 |}.

Definition env0 : Env :=
  {| time := fun _ => 0; junk_super_block := fun _ => 0;
     junk_group_desc := fun _ => 0; junk_root_ino := fun _ => 0 |}.


(** ** The constructor and the destructor *)

(** The object as the constructor leaves it: the members the member functions
    use and the two copies it keeps of the device's metadata. *)
Record Ext2m_object := {
  members : Ext2m;
  _superb : list Z;
  _group_desc : list Z
}.

Section Constructor.

Variable cfg : Config.

(** [for (int i = 0; i < group_desc_block_count; i++)
      _disk.read_block(2 + i, buf + i * BLOCK_SIZE);] *)
Definition read_group_desc_blocks (st : Ext2m) (buf : list Z) : list Z * Ext2m :=
  for_range 0 (Z.to_nat (group_desc_block_count st))
    (fun i '(buf, st) =>
       let (b, c) := cache_read_block (2 + i) (_disk st) in
       (store_bytes (Z.to_nat i * BS cfg) (take (BS cfg) b) buf, with_disk c st))
    (buf, st).

(** The constructor after [format()] or [read_info()]:
    [_disk.read_block(1, _buf)], the copy of [_buf] into [_superb] through a
    cast to the superblock struct, then
    the two [new], the loop above and
    [memcpy(_group_desc, buf, sizeof(ext2_group_desc) * full_group_count)].
    The copy of the superblock reads [sizeof(ext2_super_block)] bytes of
    [_buf], the [memcpy] that many bytes of [buf]; an access outside the
    buffer, an array size that does not fit [size_t] and an [int] sum
    [2 + i] that overflows (in the last round [i] is the count less one, so
    the count is at most [2 ^ 31 - 2]) have no result. Memory is there when
    asked for. *)
Definition load_cached_metadata (junk_heap : nat -> Z) (st : Ext2m) : res Ext2m_object :=
  let st := read_block 1 st in
  if negb (SB.size <=? BS cfg)%nat then Undefined else
  let superb := load_bytes 0 SB.size (_buf st) in
  if negb (Z.of_nat GD.size * full_group_count st <? 2 ^ 64) then Undefined else
  if negb (BLOCK_SIZE cfg * group_desc_block_count st <? 2 ^ 64) then Undefined else
  if negb (group_desc_block_count st <=? 2 ^ 31 - 2) then Undefined else
  let size := Z.to_nat (BLOCK_SIZE cfg * group_desc_block_count st) in
  let (buf, st) := read_group_desc_blocks st (uninitialised junk_heap size) in
  let n := Z.to_nat (Z.of_nat GD.size * full_group_count st) in
  if negb (n <=? size)%nat then Undefined else
  Ok {| members := st; _superb := superb; _group_desc := load_bytes 0 n buf |}.

(** [Ext2m(Cache &cache)]; [st] is the object as the constructor finds it,
    [_disk] bound to the cache and the other members indeterminate. *)
Definition Ext2m_ctor (env : Env) (junk_heap : nat -> Z) (st : Ext2m)
    : res Ext2m_object :=
  match check_is_ext2_format cfg st with
  | Ok (flag, st) =>
      match (if negb flag then format cfg env st else read_info cfg st) with
      | Ok st => load_cached_metadata junk_heap st
      | AssertFail => AssertFail
      | Undefined => Undefined
      | OutOfFuel => OutOfFuel
      end
  | AssertFail => AssertFail
  | Undefined => Undefined
  | OutOfFuel => OutOfFuel
  end.

(** [~Ext2m()]: what is left is the device. *)
Definition Ext2m_dtor (o : Ext2m_object) : Cache := _disk (sync (members o)).

End Constructor.

(** ** Vocabulary of the statements *)

(** Two byte ranges that do not overlap. *)
Definition apart (off1 n1 off2 n2 : nat) : bool :=
  ((off1 + n1 <=? off2) || (off2 + n2 <=? off1))%nat.


Definition is_bytes (l : list Z) : Prop := Forall (fun b => 0 <= b < 256) l.

(** The six checks of the probe, on a superblock image. *)
Definition probe_checks (cfg : Config) (sb : list Z) : Prop :=
  load SB.s_magic sb = EXT2_SUPER_MAGIC /\
  1024 * 2 ^ load SB.s_log_block_size sb = BLOCK_SIZE cfg /\
  load SB.s_first_data_block sb = 1 /\
  load SB.s_inodes_per_group sb <= 8 * BLOCK_SIZE cfg /\
  load SB.s_first_ino sb = EXT2_GOOD_OLD_FIRST_INO /\
  load SB.s_inode_size sb = INODE_SIZE cfg.

(** A directory entry as a reader of the block sees it, and the entries of a
    block as traversal by record length finds them. *)
Record dir_entry := {
  de_inode : Z;
  de_rec_len : Z;
  de_name_len : Z;
  de_file_type : Z;
  de_name : list Z
}.

Definition read_dir_entry (block : list Z) (off : nat) : dir_entry :=
  {| de_inode := load (at_offset off DE.inode) block;
     de_rec_len := load (at_offset off DE.rec_len) block;
     de_name_len := load (at_offset off DE.name_len) block;
     de_file_type := load (at_offset off DE.file_type) block;
     de_name :=
       load_bytes (off + 8) (Z.to_nat (load (at_offset off DE.name_len) block))
         block |}.

Fixpoint dir_entries (fuel : nat) (block : list Z) (off : nat) : list dir_entry :=
  match fuel with
  | O => []
  | S fuel =>
      if (off <? length block)%nat then
        let e := read_dir_entry block off in
        e :: (if de_rec_len e <=? 0 then []
              else dir_entries fuel block (off + Z.to_nat (de_rec_len e)))
      else []
  end.

(** The two entries of a fresh root directory. *)
Definition dot_entry : dir_entry :=
  {| de_inode := 2; de_rec_len := 12; de_name_len := 1;
     de_file_type := EXT2_FT_DIR; de_name := [46] |}.

Definition dotdot_entry (cfg : Config) : dir_entry :=
  {| de_inode := 2; de_rec_len := BLOCK_SIZE cfg - 12; de_name_len := 2;
     de_file_type := EXT2_FT_DIR; de_name := [46; 46] |}.


(** A 17 MB blank device formatted by a fresh object. *)
Definition blank17 : Ext2m := fresh cfg17 (zero_device cfg17).


(** The object holds the geometry [g]. *)
Definition has_geometry (g : Geometry) (st : Ext2m) : Prop :=
  full_group_count st = g_full_group_count g /\
  blocks_per_group st = g_blocks_per_group g /\
  inodes_per_group st = g_inodes_per_group g /\
  group_desc_block_count st = g_group_desc_block_count g /\
  inodes_table_block_count st = g_inodes_table_block_count g.

(** Sizes for which no address or counter of the image wraps: every block
    address is an [unsigned], the metadata of a group fits in the group,
    there is at least one inode per group, the inode total fits the 32-bit
    superblock counter and the per-group counts fit the 16-bit descriptor
    counters. *)
Definition geometry_fits (g : Geometry) : bool :=
  (g_full_group_count g * g_blocks_per_group g + 1 <? 2 ^ 32)
  && (3 + g_group_desc_block_count g + g_inodes_table_block_count g
      <=? g_blocks_per_group g)
  && (0 <? g_inodes_per_group g)
  && (g_inodes_per_group g * g_full_group_count g <? 2 ^ 32)
  && (g_blocks_per_group g <? 2 ^ 16)
  && (g_inodes_per_group g <? 2 ^ 16).

(** Every block of the device has the block size and holds bytes. *)
Definition device_ok (cfg : Config) (c : Cache) : Prop :=
  forall j, length (blocks c j) = BS cfg /\ is_bytes (blocks c j).

(** Block addresses of the regions of group [grp], as integers. *)
Definition group_base (g : Geometry) (grp : Z) : Z :=
  grp * g_blocks_per_group g + 1.

Definition metadata_blocks (g : Geometry) : Z :=
  3 + g_group_desc_block_count g + g_inodes_table_block_count g.

(** [j] is the superblock copy or a descriptor-table block of a full group. *)
Definition is_super_or_desc_block (g : Geometry) (j : Z) : Prop :=
  exists grp, 0 <= grp < g_full_group_count g /\
    group_base g grp <= j <= group_base g grp + g_group_desc_block_count g.

(** [j] is the inode-bitmap block of a full group. *)
Definition is_inode_bitmap_block (g : Geometry) (j : Z) : Prop :=
  exists grp, 0 <= grp < g_full_group_count g /\
    j = group_base g grp + 2 + g_group_desc_block_count g.

(** [j] is a data block of a full group. *)
Definition is_data_block (g : Geometry) (j : Z) : Prop :=
  exists grp, 0 <= grp < g_full_group_count g /\
    group_base g grp + metadata_blocks g <= j
      < group_base g grp + g_blocks_per_group g.

(** The five geometry members of two objects agree. *)
Definition same_geometry (st st' : Ext2m) : Prop :=
  full_group_count st' = full_group_count st /\
  blocks_per_group st' = blocks_per_group st /\
  inodes_per_group st' = inodes_per_group st /\
  group_desc_block_count st' = group_desc_block_count st /\
  inodes_table_block_count st' = inodes_table_block_count st.

(** The content of block [j] of the object's device. *)
Definition blk (st : Ext2m) (j : Z) : list Z := blocks (_disk st) j.

(** From [st] to [st'] the geometry is kept and only blocks in [P] change. *)
Definition only_writes (P : Z -> Prop) (st st' : Ext2m) : Prop :=
  same_geometry st st' /\ forall j, ~ P j -> blk st' j = blk st j.

(** [j] lies between offsets [lo] (included) and [hi] (excluded) of a full
    group. *)
Definition in_group_range (g : Geometry) (lo hi j : Z) : Prop :=
  exists grp, 0 <= grp < g_full_group_count g /\
    group_base g grp + lo <= j < group_base g grp + hi.

Definition is_read (ev : io_event) : Prop :=
  match ev with
  | EvRead _ => True
  | _ => False
  end.

(** From [st] to [st'] the device is only read: no block changes and the log
    grows by read events. *)
Definition only_reads (st st' : Ext2m) : Prop :=
  same_geometry st st' /\ (forall j, blk st' j = blk st j) /\
  exists evs, io_log (_disk st') = evs ++ io_log (_disk st) /\ Forall is_read evs.

(** The descriptor table of group [grp] as it is on the device: its blocks
    one after the other. *)
Definition desc_table_on_disk (st : Ext2m) (grp : Z) : list Z :=
  concat (map (fun j => blk st (get_group_group_desc_table_index st grp + Z.of_nat j))
            (seq 0 (Z.to_nat (group_desc_block_count st)))).

(** The geometry of the 17 MB configuration. *)
Definition g17 : Geometry :=
  {| g_full_group_count := 2; g_group_count := 3;
     g_blocks_per_group := 8192; g_blocks_last_group := 1023;
     g_group_desc_block_count := 1; g_inodes_per_group := 3853;
     g_inodes_table_block_count := 482; g_data_block_count := 7706 |}.

(** The number of unset bits among the [n] bits from [i] on. *)
Fixpoint count_unset (n : nat) (bm : BitMap) (i : Z) : Z :=
  match n with
  | O => 0
  | S k => (if bm_test bm i then 0 else 1) + count_unset k bm (i + 1)
  end.

(** The number of unset bits from [from] up to the bit count. *)
Definition unset_from (bm : BitMap) (from : Z) : Z :=
  count_unset (Z.to_nat (bm_nbits bm - from)) bm from.

(** The packed bytes cover the bit count. *)
Definition bitmap_wf (bm : BitMap) : Prop :=
  (Z.to_nat ((bm_nbits bm + 7) / 8) <= length (bm_bytes bm))%nat.

(** The free blocks of a group: the unset bits of its block bitmap as the
    allocator loads it. *)
Definition free_blocks_in_group (st : Ext2m) (grp : Z) : Z :=
  unset_from (fst (get_group_block_bitmap grp st)) 0.

Fixpoint sum_range (f : Z -> Z) (lo : Z) (n : nat) : Z :=
  match n with
  | O => 0
  | S k => f lo + sum_range f (lo + 1) k
  end.

(** The free blocks of all full groups together. *)
Definition total_free_blocks (st : Ext2m) : Z :=
  sum_range (free_blocks_in_group st) 0 (Z.to_nat (full_group_count st)).

(** Every bit below the bit count is set. *)
Definition all_set (bm : BitMap) : Prop :=
  forall k, 0 <= k < bm_nbits bm -> bm_test bm k = true.

(** A two-group object over a blank device, 16 blocks per group. *)
Definition small_blank : Ext2m :=
  {| _disk := zero_device cfg17; _buf := zeros (BS cfg17);
     full_group_count := 2; blocks_per_group := 16; inodes_per_group := 8;
     group_desc_block_count := 1; inodes_table_block_count := 1 |}.

(** The geometry of the 9 MB configuration, and the blank 9 MB device after
    [format] has laid out its single group (up to the first [sync()]). *)
Definition g9 : Geometry :=
  {| g_full_group_count := 1; g_group_count := 2;
     g_blocks_per_group := 8192; g_blocks_last_group := 1023;
     g_group_desc_block_count := 1; g_inodes_per_group := 3853;
     g_inodes_table_block_count := 482; g_data_block_count := 7706 |}.

Definition blank9 : Ext2m := fresh cfg9 (zero_device cfg9).

Definition layout9 : Ext2m := format_layout cfg9 env0 g9 0 blank9.

(** The inode is a directory. *)
Definition is_directory (inode : list Z) : Prop :=
  Z.land (load INO.i_mode inode) EXT2_S_IFMT = EXT2_S_IFDIR.

(** A device and a configuration on which [format] goes through: the device
    has blocks of the block size, the geometry exists and fits, the copies
    stay in their buffers, there are at least two full groups (the group loop
    of the allocator never looks at the last one) and group 0 has a block
    that is free beyond the metadata. *)
Definition formattable (cfg : Config) (g : Geometry) (st0 : Ext2m) : Prop :=
  device_ok cfg (_disk st0) /\
  block_group_calculation cfg = Some g /\
  geometry_fits g = true /\
  buffers_in_bounds cfg g = true /\
  2 <= g_full_group_count g /\
  exists k, metadata_blocks g <= k < g_blocks_per_group g /\
    bm_test (BitMap_new (blk st0 (group_base g 0 + 1 + g_group_desc_block_count g))
               (g_blocks_per_group g)) k = false.

(** The 1 KB configuration the sources are written for, on a device of at
    least two full groups and less than 1 TB. *)
Definition standard_config (cfg : Config) : Prop :=
  BLOCK_SIZE cfg = 1024 /\ GROUP_DESC_SIZE cfg = 32 /\ INODE_SIZE cfg = 128 /\
  (2 * 8192 + 1) * 1024 <= DISK_SIZE cfg < 2 ^ 40.

(** ** Further vocabulary *)

(** Strictly increasing. *)
Fixpoint ascending (l : list Z) : Prop :=
  match l with
  | [] => True
  | a :: t => Forall (Z.lt a) t /\ ascending t
  end.

(** Two objects over devices with the same content and the same geometry. *)
Definition same_device (st1 st2 : Ext2m) : Prop :=
  same_geometry st1 st2 /\ forall j, blk st2 j = blk st1 j.

(** The 1-based inode number [k] names a record that lies in the first block
    of the inode table of a full group. *)
Definition inode_reachable (cfg : Config) (st : Ext2m) (k : Z) : Prop :=
  1 <= k /\
  (k - 1) / inodes_per_group st < full_group_count st /\
  ((k - 1) mod inodes_per_group st + 1) * Z.of_nat INO.size <= BLOCK_SIZE cfg.

(** The block [get_inode] and [write_inode] use for inode [k], and the offset
    of the record in it. *)
Definition inode_block (st : Ext2m) (k : Z) : Z :=
  get_group_inode_table_index st ((k - 1) / inodes_per_group st).

Definition inode_offset (st : Ext2m) (k : Z) : nat :=
  (Z.to_nat ((k - 1) mod inodes_per_group st) * INO.size)%nat.

(** The first [full_group_count] descriptors of the table of group 0 as
    they are on the device. *)
Definition descriptors_on_disk (st : Ext2m) : list Z :=
  load_bytes 0 (Z.to_nat (Z.of_nat GD.size * full_group_count st))
    (desc_table_on_disk st 0).

(** A superblock that passes the probe and counts no inode per group. *)
Definition empty_group_superblock : list Z :=
  store SB.s_inode_size 128
    (store SB.s_first_ino EXT2_GOOD_OLD_FIRST_INO
       (store SB.s_first_data_block 1
          (store SB.s_magic EXT2_SUPER_MAGIC (zeros 1024)))).


(** The free blocks of the groups the allocator visits from [group_id]:
    all full groups but the one before [group_id]. *)
Definition visited_free_blocks (st : Ext2m) (group_id : Z) : Z :=
  sum_range
    (fun k => free_blocks_in_group st ((group_id + k) mod full_group_count st))
    0 (Z.to_nat (full_group_count st) - 1).

(** A block the allocator hands out, as the group it lies in and its bit in
    that group's bitmap, and the address pushed for it. *)
Definition pick_address (st : Ext2m) (p : Z * Z) : Z :=
  get_group_index st (fst p) + snd p.
(** * Properties *)

(** ** Machine integers *)

Lemma wrap_range bits x : 0 <= bits -> 0 <= wrap bits x < 2 ^ bits.
Proof. intros. unfold wrap. apply Z.mod_pos_bound. apply Z.pow_pos_nonneg; lia. Qed.

Lemma wrap_small bits x : 0 <= x < 2 ^ bits -> wrap bits x = x.
Proof. intros. unfold wrap. apply Z.mod_small; lia. Qed.

Lemma u64_range x : 0 <= u64 x < 2 ^ 64.
Proof. apply wrap_range; lia. Qed.

Lemma u64_small x : 0 <= x < 2 ^ 64 -> u64 x = x.
Proof. apply wrap_small. Qed.

Lemma u32_small x : 0 <= x < 2 ^ 32 -> u32 x = x.
Proof. apply wrap_small. Qed.

Lemma udiv_Some x y q : udiv x y = Some q -> y <> 0 /\ q = x / y.
Proof.
  unfold udiv. destruct (Z.eqb_spec y 0); [discriminate|].
  intros [= <-]. auto.
Qed.

Lemma bind_opt_Some {A B} (o : option A) (k : A -> option B) b :
  bind_opt o k = Some b -> exists a, o = Some a /\ k a = Some b.
Proof. destruct o; simpl; [eauto | discriminate]. Qed.

(** ** Geometry Calculator *)

(** Modular form of the sum, whatever the operands. *)
Lemma u64_sum_back bpg gdbc itbc :
  0 <= bpg < 2 ^ 64 ->
  u64 (3 + gdbc + u64 (bpg - 3 - gdbc - itbc) + itbc) = bpg.
Proof.
  intros Hb. unfold u64, wrap.
  rewrite <- (Z.mod_small bpg (2 ^ 64)) at 2 by lia.
  replace (3 + gdbc + (bpg - 3 - gdbc - itbc) mod 2 ^ 64 + itbc)
    with ((bpg - 3 - gdbc - itbc) mod 2 ^ 64 + (3 + gdbc + itbc)) by lia.
  rewrite Zplus_mod_idemp_l. f_equal. lia.
Qed.

(** What [block_group_calculation] returns, spelled out. *)
Lemma block_group_calculation_inv cfg g :
  block_group_calculation cfg = Some g ->
  exists total,
    BLOCK_SIZE cfg <> 0 /\ total = DISK_SIZE cfg / BLOCK_SIZE cfg /\
    MAX_BLOCKS_PER_GROUP cfg <> 0 /\
    g_full_group_count g = u64 (total - 1) / MAX_BLOCKS_PER_GROUP cfg /\
    g_full_group_count g <> 0 /\
    g_blocks_last_group g =
      u64 (u64 (total - 1)
           - u64 (MAX_BLOCKS_PER_GROUP cfg * g_full_group_count g)) /\
    g_blocks_per_group g =
      u64 (u64 (total - 1) - g_blocks_last_group g) / g_full_group_count g /\
    g_group_desc_block_count g =
      u64 (u64 (g_full_group_count g * GROUP_DESC_SIZE cfg) + BLOCK_SIZE cfg - 1)
      / BLOCK_SIZE cfg /\
    u64 (bytes_per_inode + INODE_SIZE cfg) <> 0 /\
    g_inodes_per_group g =
      u64 (u64 (g_blocks_per_group g - 3 - g_group_desc_block_count g)
           * BLOCK_SIZE cfg)
      / u64 (bytes_per_inode + INODE_SIZE cfg) /\
    g_inodes_table_block_count g =
      u64 (u64 (g_inodes_per_group g * INODE_SIZE cfg) + BLOCK_SIZE cfg - 1)
      / BLOCK_SIZE cfg /\
    g_data_block_count g =
      u64 (g_blocks_per_group g - 3 - g_group_desc_block_count g
           - g_inodes_table_block_count g).
Proof.
  unfold block_group_calculation, ceil. intros H.
  repeat (apply bind_opt_Some in H as (? & ?%udiv_Some & H)).
  injection H as <-. simpl. destruct_and!. subst.
  eexists. repeat split; try reflexivity; assumption.
Qed.

Lemma blocks_per_group_range cfg g :
  block_group_calculation cfg = Some g -> 0 <= g_blocks_per_group g < 2 ^ 64.
Proof.
  intros (total & _ & _ & Hm & Hf & Hf0 & _ & Hb & _)%block_group_calculation_inv.
  assert (0 < g_full_group_count g).
  { pose proof (u64_range (total - 1)).
    pose proof (u64_range (8 * BLOCK_SIZE cfg)).
    unfold MAX_BLOCKS_PER_GROUP in *.
    assert (0 <= g_full_group_count g) by (rewrite Hf; apply Z.div_pos; lia).
    lia. }
  rewrite Hb.
  pose proof (u64_range (u64 (total - 1) - g_blocks_last_group g)).
  split; [apply Z.div_pos; lia|].
  apply Z.div_lt_upper_bound; nia.
Qed.

(** The [static_assert] never fails. *)
Lemma block_group_calculation_static_assert cfg g :
  block_group_calculation cfg = Some g ->
  sum_of_block_counts g = g_blocks_per_group g.
Proof.
  intros H. pose proof (blocks_per_group_range _ _ H) as Hr.
  apply block_group_calculation_inv in H
    as (total & _ & _ & _ & _ & _ & _ & _ & _ & _ & _ & _ & Hd).
  unfold sum_of_block_counts. rewrite Hd. apply u64_sum_back, Hr.
Qed.

(** C1. The sum that [block_group_calculation] asserts, 3 + descriptor-table
    span + data-block count + inode-table span, equals blocks-per-group for
    every configuration that has a geometry at all: as the [uint64_t] sum the
    [static_assert] compares, always; and as a sum of integers exactly when
    the metadata of a group fits in the group, so that the data-block count
    did not wrap. *)
Theorem block_group_calculation_sum (cfg : Config) (g : Geometry) :
  config_in_range cfg ->
  block_group_calculation cfg = Some g ->
  static_assert_holds g = true /\
  sum_of_block_counts g = g_blocks_per_group g /\
  (3 + g_group_desc_block_count g + g_inodes_table_block_count g
     <= g_blocks_per_group g ->
   3 + g_group_desc_block_count g + g_data_block_count g
     + g_inodes_table_block_count g = g_blocks_per_group g).
Proof.
  intros (_ & Hbs & _ & _) H. pose proof (blocks_per_group_range _ _ H) as Hr.
  pose proof (block_group_calculation_static_assert _ _ H) as Hs.
  apply block_group_calculation_inv in H
    as (total & Hb0 & _ & _ & _ & _ & _ & _ & Hgd & _ & _ & Hit & Hd).
  split; [|split]; [unfold static_assert_holds; lia | exact Hs |].
  intros Hfit. rewrite Hd.
  assert (0 <= g_group_desc_block_count g).
  { rewrite Hgd. apply Z.div_pos; [apply u64_range | lia]. }
  assert (0 <= g_inodes_table_block_count g).
  { rewrite Hit. apply Z.div_pos; [apply u64_range | lia]. }
  rewrite u64_small; lia.
Qed.

Lemma block_group_calculation_sum_witness :
  static_assert_holds
    {| g_full_group_count := 2; g_group_count := 3;
       g_blocks_per_group := 8192; g_blocks_last_group := 1023;
       g_group_desc_block_count := 1; g_inodes_per_group := 3853;
       g_inodes_table_block_count := 482; g_data_block_count := 7706 |} = true.
Proof.
  apply (block_group_calculation_sum cfg17).
  - repeat split; (reflexivity || (vm_compute; discriminate)).
  - reflexivity.
Defined.

(** ** Byte buffers *)

Lemma length_le_split n v : length (le_split n v) = n.
Proof. revert v. induction n; intros; simpl; auto. Qed.

Lemma le_combine_split n v : le_combine (le_split n v) = v mod 256 ^ Z.of_nat n.
Proof.
  revert v. induction n as [|n IH]; intros v.
  - simpl. symmetry. apply Z.mod_1_r.
  - cbn [le_split le_combine]. rewrite IH, Nat2Z.inj_succ, Z.pow_succ_r by lia.
    rewrite Z.rem_mul_r by lia. reflexivity.
Qed.

Lemma le_combine_range l :
  Forall (fun b => 0 <= b < 256) l -> 0 <= le_combine l < 256 ^ Z.of_nat (length l).
Proof.
  induction 1 as [|b l Hb _ IH]; [simpl; lia|].
  cbn [le_combine length]. rewrite Nat2Z.inj_succ, Z.pow_succ_r by lia. lia.
Qed.

Lemma byte_at_lookup buf i b : buf !! i = Some b -> byte_at buf i = b.
Proof. unfold byte_at. intros ->. reflexivity. Qed.

Lemma byte_at_ge buf i : (length buf <= i)%nat -> byte_at buf i = 0.
Proof. unfold byte_at. intros. rewrite lookup_ge_None_2; auto. Qed.

Lemma length_store_bytes off bs buf : length (store_bytes off bs buf) = length buf.
Proof. apply length_inserts. Qed.

Lemma length_store f v buf : length (store f v buf) = length buf.
Proof. apply length_store_bytes. Qed.

Lemma length_strcpy off s buf : length (strcpy off s buf) = length buf.
Proof. apply length_store_bytes. Qed.

Lemma length_zeros n : length (zeros n) = n.
Proof. apply length_replicate. Qed.

Lemma length_uninitialised junk n : length (uninitialised junk n) = n.
Proof. unfold uninitialised. rewrite length_map, length_seq. reflexivity. Qed.

Lemma byte_at_zeros n i : byte_at (zeros n) i = 0.
Proof.
  unfold byte_at, zeros. destruct (replicate n 0 !! i) eqn:E; [|reflexivity].
  apply lookup_replicate in E as [-> _]. reflexivity.
Qed.

Lemma byte_at_store_bytes_in off bs buf i :
  (off <= i < off + length bs)%nat -> (i < length buf)%nat ->
  byte_at (store_bytes off bs buf) i = byte_at bs (i - off).
Proof. intros. unfold byte_at, store_bytes. rewrite list_lookup_inserts by lia. reflexivity. Qed.

Lemma byte_at_store_bytes_out off bs buf i :
  (i < off \/ off + length bs <= i)%nat ->
  byte_at (store_bytes off bs buf) i = byte_at buf i.
Proof.
  intros [?|?]; unfold byte_at, store_bytes.
  - rewrite list_lookup_inserts_lt by lia. reflexivity.
  - rewrite list_lookup_inserts_ge by lia. reflexivity.
Qed.

Lemma map_seq_ext {A} (f g : nat -> A) a n :
  (forall i, (a <= i < a + n)%nat -> f i = g i) -> map f (seq a n) = map g (seq a n).
Proof.
  intros H. apply map_ext_in. intros i [? ?]%in_seq. apply H. lia.
Qed.

Lemma apart_spec off1 n1 off2 n2 :
  apart off1 n1 off2 n2 = true -> (off1 + n1 <= off2 \/ off2 + n2 <= off1)%nat.
Proof.
  unfold apart. intros [H|H]%orb_true_iff; apply Nat.leb_le in H; lia.
Qed.

Lemma load_store_bytes_other f off bs buf :
  apart (f_off f) (f_width f) off (length bs) = true ->
  load f (store_bytes off bs buf) = load f buf.
Proof.
  intros H%apart_spec. unfold load. f_equal. apply map_seq_ext. intros i Hi.
  apply byte_at_store_bytes_out. lia.
Qed.

Lemma load_store_other f g v buf :
  apart (f_off f) (f_width f) (f_off g) (f_width g) = true ->
  load f (store g v buf) = load f buf.
Proof.
  intros. unfold store. apply load_store_bytes_other. rewrite length_le_split. assumption.
Qed.

Lemma load_strcpy_other f off s buf :
  apart (f_off f) (f_width f) off (length (c_string s)) = true ->
  load f (strcpy off s buf) = load f buf.
Proof. apply load_store_bytes_other. Qed.

Lemma load_bytes_after_store off bs buf :
  (off + length bs <= length buf)%nat ->
  map (byte_at (store_bytes off bs buf)) (seq off (length bs)) = bs.
Proof.
  intros H. apply list_eq. intros i. rewrite list_lookup_fmap.
  destruct (decide (i < length bs)%nat) as [Hi|Hi].
  - rewrite lookup_seq_lt by lia. simpl.
    destruct (lookup_lt_is_Some_2 bs i Hi) as [b Hb]. rewrite Hb. f_equal.
    rewrite byte_at_store_bytes_in by lia.
    replace (off + i - off)%nat with i by lia. apply byte_at_lookup, Hb.
  - rewrite lookup_seq_ge by lia. rewrite lookup_ge_None_2 by lia. reflexivity.
Qed.

Lemma load_store_same f v buf :
  (f_off f + f_width f <= length buf)%nat ->
  load f (store f v buf) = v mod 256 ^ Z.of_nat (f_width f).
Proof.
  intros H. unfold load, store.
  rewrite <- (length_le_split (f_width f) v) at 2.
  rewrite load_bytes_after_store by (rewrite length_le_split; lia).
  apply le_combine_split.
Qed.

Lemma load_zeros f n : load f (zeros n) = 0.
Proof.
  unfold load. generalize (f_off f). induction (f_width f) as [|w IH]; intros o.
  - reflexivity.
  - cbn [seq map le_combine]. rewrite byte_at_zeros, IH. reflexivity.
Qed.

(** ** Probe *)

Lemma is_bytes_zeros n : is_bytes (zeros n).
Proof. apply Forall_replicate. lia. Qed.

Lemma byte_at_range buf i : is_bytes buf -> 0 <= byte_at buf i < 256.
Proof.
  intros H. unfold byte_at. destruct (buf !! i) eqn:E; simpl; [|lia].
  eapply Forall_lookup_1 in H; eauto.
Qed.

Lemma load_range f buf :
  is_bytes buf -> 0 <= load f buf < 256 ^ Z.of_nat (f_width f).
Proof.
  intros H. unfold load.
  pose proof (le_combine_range (map (byte_at buf) (seq (f_off f) (f_width f)))) as Hr.
  rewrite length_map, length_seq in Hr. apply Hr.
  apply Forall_fmap, Forall_true. intros i. apply byte_at_range, H.
Qed.

Lemma shl_int_1024 s bs shifted :
  0 <= s -> 0 < bs < 2 ^ 31 -> shl_int 1024 s = Some shifted ->
  (u64 shifted = bs <-> 1024 * 2 ^ s = bs).
Proof.
  unfold shl_int. intros Hs Hbs. destruct (Z.ltb_spec s 32) as [Hlt|]; [|discriminate].
  intros [= <-].
  assert (Hcases : s = 0 \/ s = 1 \/ s = 2 \/ s = 3 \/ s = 4 \/ s = 5 \/ s = 6 \/ s = 7
          \/ s = 8 \/ s = 9 \/ s = 10 \/ s = 11 \/ s = 12 \/ s = 13 \/ s = 14 \/ s = 15
          \/ s = 16 \/ s = 17 \/ s = 18 \/ s = 19 \/ s = 20 \/ s = 21 \/ s = 22
          \/ s = 23 \/ s = 24 \/ s = 25 \/ s = 26 \/ s = 27 \/ s = 28 \/ s = 29
          \/ s = 30 \/ s = 31) by lia.
  change (2 ^ 31) with 2147483648 in Hbs.
  repeat (destruct Hcases as [-> | Hcases]; [vm_compute (u64 _); vm_compute (1024 * _); lia|]).
  subst. vm_compute (u64 _); vm_compute (1024 * _); lia.
Qed.

Lemma shl_int_None s : shl_int 1024 s = None -> 2 ^ 42 <= 1024 * 2 ^ s.
Proof.
  unfold shl_int. destruct (Z.ltb_spec s 32); [discriminate|]. intros _.
  change (2 ^ 42) with (1024 * 2 ^ 32). apply Z.mul_le_mono_nonneg_l; [lia|].
  apply Z.pow_le_mono_r; lia.
Qed.

(** The probe in terms of the six checks, for a decoded shift count that is
    not negative. *)
Lemma check_is_ext2_format_spec (cfg : Config) (st : Ext2m) :
  0 < BLOCK_SIZE cfg < 2 ^ 31 ->
  0 <= load SB.s_log_block_size (blocks (_disk st) 1) ->
  ((exists st', check_is_ext2_format cfg st = Ok (true, st'))
   <-> probe_checks cfg (blocks (_disk st) 1))
  /\ (load SB.s_log_block_size (blocks (_disk st) 1) < 32 ->
      ~ probe_checks cfg (blocks (_disk st) 1) ->
      exists st', check_is_ext2_format cfg st = Ok (false, st')).
Proof.
  intros Hbs Hs0. unfold check_is_ext2_format, probe_checks. simpl.
  set (sb := blocks (_disk st) 1) in *.
  assert (H8 : u64 (8 * BLOCK_SIZE cfg) = 8 * BLOCK_SIZE cfg).
  { apply u64_small. change (2 ^ 31) with 2147483648 in Hbs.
    change (2 ^ 64) with 18446744073709551616. lia. }
  rewrite H8.
  destruct (shl_int 1024 (load SB.s_log_block_size sb)) as [shifted|] eqn:Hsh.
  - pose proof (shl_int_1024 _ _ _ Hs0 Hbs Hsh) as Hiff.
    split.
    + split.
      * intros [st' [= Hflag]].
        repeat (apply andb_prop in Hflag as [Hflag ?]). repeat split; lia.
      * intros (? & ? & ? & ? & ? & ?). eexists. do 2 f_equal.
        repeat (apply andb_true_intro; split); lia.
    + intros _ Hn.
      destruct (_ && _ && _ && _ && _ && _) eqn:Hflag; [|eauto].
      exfalso. apply Hn.
      repeat (apply andb_prop in Hflag as [Hflag ?]). repeat split; lia.
  - apply shl_int_None in Hsh as Hbig. split.
    + split; [intros [? [=]]|].
      intros (_ & Hb & _). exfalso.
      change (2 ^ 31) with 2147483648 in Hbs. change (2 ^ 42) with 4398046511104 in Hbig. lia.
    + intros Hlt. exfalso. unfold shl_int in Hsh.
      destruct (Z.ltb_spec (load SB.s_log_block_size sb) 32); [discriminate | lia].
Qed.

(** X30. For a block 1 made of bytes, [check_is_ext2_format] returns true
    exactly when the superblock image passes all six checks: magic, encoded
    block size, first data block equal to 1, inodes-per-group at most
    8 x block size, first usable inode number, inode record size. When the
    shift count [s_log_block_size] is below 32, a failing check makes it
    return false. *)
Theorem check_is_ext2_format_iff (cfg : Config) (st : Ext2m) :
  0 < BLOCK_SIZE cfg < 2 ^ 31 ->
  is_bytes (blocks (_disk st) 1) ->
  ((exists st', check_is_ext2_format cfg st = Ok (true, st'))
   <-> probe_checks cfg (blocks (_disk st) 1))
  /\ (load SB.s_log_block_size (blocks (_disk st) 1) < 32 ->
      ~ probe_checks cfg (blocks (_disk st) 1) ->
      exists st', check_is_ext2_format cfg st = Ok (false, st')).
Proof.
  intros Hbs Hbytes. apply check_is_ext2_format_spec; [exact Hbs|].
  apply (load_range SB.s_log_block_size), Hbytes.
Qed.

Lemma check_is_ext2_format_iff_witness :
  ((exists st', check_is_ext2_format cfg17 blank17 = Ok (true, st'))
   <-> probe_checks cfg17 (blocks (_disk blank17) 1))
  /\ (load SB.s_log_block_size (blocks (_disk blank17) 1) < 32 ->
      ~ probe_checks cfg17 (blocks (_disk blank17) 1) ->
      exists st', check_is_ext2_format cfg17 blank17 = Ok (false, st')).
Proof.
  apply (check_is_ext2_format_iff cfg17 blank17).
  - split; reflexivity.
  - apply is_bytes_zeros.
Defined.



(** ** The shape of a successful [format] *)

Lemma format_inv cfg env st st' :
  format cfg env st = Ok st' ->
  exists g lbs bm root_ino st1,
    block_group_calculation cfg = Some g /\
    static_assert_holds g = true /\
    buffers_in_bounds cfg g = true /\
    log2 (BLOCK_SIZE cfg / 1024) = Some lbs /\
    add_root_directory cfg env (format_layout cfg env g lbs st)
      = Ok (bm, root_ino, st1) /\
    st' = sync st1.
Proof.
  unfold format. intros H.
  destruct (block_group_calculation cfg) as [g|] eqn:Eg; [|discriminate].
  destruct (static_assert_holds g) eqn:Ea; [|discriminate].
  destruct (buffers_in_bounds cfg g) eqn:Eb; [|discriminate]. simpl in H.
  unfold udiv in H. simpl in H.
  destruct (log2 (BLOCK_SIZE cfg / 1024)) as [lbs|] eqn:El; [|discriminate].
  destruct (add_root_directory _ _ _) as [[[bm root_ino] st1]| | |] eqn:Er;
    try discriminate.
  injection H as <-. exists g, lbs, bm, root_ino, st1. repeat split; auto.
Qed.

Lemma add_root_directory_inv cfg env st bm root_ino st1 :
  add_root_directory cfg env st = Ok (bm, root_ino, st1) ->
  exists front rest st_a buf,
    get_free_block_indexes (Z.to_nat (full_group_count st)) 0 1
      (snd (get_group_inode_bitmap 0 st)) = Ok (front :: rest, st_a) /\
    bm = bm_set (fst (get_group_inode_bitmap 0 st)) 2 /\
    root_ino = store (INO.i_block_at 0) front (build_root_inode env) /\
    root_directory_block cfg = Some buf /\
    st1 = write_block cfg (load (INO.i_block_at 0) root_ino) buf (with_buf buf st_a).
Proof.
  unfold add_root_directory.
  destruct (get_group_inode_bitmap 0 st) as [bm0 st0] eqn:E0. cbn [fst snd].
  replace (full_group_count st0) with (full_group_count st)
    by (unfold get_group_inode_bitmap in E0; injection E0 as _ <-; reflexivity).
  destruct (get_free_block_indexes _ _ _ _) as [[tmp st_a]| | |] eqn:Ea;
    try discriminate.
  destruct tmp as [|front rest]; [discriminate|].
  destruct (root_directory_block cfg) as [buf|] eqn:Eb; [|discriminate].
  intros [= <- <- <-]. exists front, rest, st_a, buf. repeat split; auto.
Qed.

(** ** The root directory block *)

Ltac buf_length :=
  repeat first [ rewrite length_store | rewrite length_strcpy
               | rewrite length_store_bytes ];
  rewrite ?length_zeros, ?length_uninitialised;
  simpl; unfold SB.size, INO.size, GD.size; lia.

Ltac load_chain :=
  repeat first
    [ rewrite load_store_other by reflexivity
    | rewrite load_store_bytes_other by reflexivity
    | rewrite load_strcpy_other by reflexivity
    | rewrite load_store_same by buf_length ].

Lemma load_bytes_as_map off n buf :
  (off + n <= length buf)%nat ->
  load_bytes off n buf = map (fun i => load (Field i 1) buf) (seq off n).
Proof.
  intros H. unfold load_bytes. apply list_eq. intros i.
  rewrite list_lookup_fmap.
  destruct (decide (i < n)%nat) as [Hi|Hi].
  - rewrite lookup_take_lt, lookup_drop, lookup_seq_lt by lia. simpl.
    destruct (lookup_lt_is_Some_2 buf (off + i)) as [b Hb]; [lia|].
    rewrite Hb. f_equal. unfold load. simpl.
    rewrite (byte_at_lookup _ _ _ Hb). lia.
  - rewrite lookup_take_ge, lookup_seq_ge by lia. reflexivity.
Qed.

Lemma root_directory_block_entries cfg :
  1024 <= BLOCK_SIZE cfg < 2 ^ 16 ->
  exists buf,
    root_directory_block cfg = Some buf /\
    length buf = BS cfg /\
    dir_entries (length buf) buf 0 = [dot_entry; dotdot_entry cfg].
Proof.
  intros Hbs. assert (Hn : (1024 <= BS cfg)%nat) by (unfold BS; lia).
  unfold root_directory_block.
  replace (load (at_offset 0 DE.name_len) _) with 1 by (load_chain; reflexivity).
  change (roundup _ 4) with (Some 12). cbn [bind_opt]. change (Z.to_nat 12) with 12%nat.
  eexists. split; [reflexivity|]. split; [buf_length|].
  match goal with |- dir_entries (length ?b) _ _ = _ => set (buf := b) end.
  assert (Hlen : length buf = BS cfg) by (subst buf; buf_length).
  assert (Hrec : u64 (BLOCK_SIZE cfg - 12) mod 256 ^ Z.of_nat 2 = BLOCK_SIZE cfg - 12).
  { change (2 ^ 16) with 65536 in Hbs.
    rewrite u64_small by (change (2 ^ 64) with 18446744073709551616; lia).
    apply Z.mod_small. change (256 ^ Z.of_nat 2) with 65536. lia. }
  assert (E1 : read_dir_entry buf 0 = dot_entry).
  { unfold read_dir_entry, dot_entry. subst buf.
    replace (load (at_offset 0 DE.name_len) _) with 1 by (load_chain; reflexivity).
    rewrite load_bytes_as_map by buf_length. change (Z.to_nat 1) with 1%nat; change (Z.to_nat 2) with 2%nat; cbn [seq map Nat.add].
    f_equal; load_chain; reflexivity. }
  assert (E2 : read_dir_entry buf 12 = dotdot_entry cfg).
  { unfold read_dir_entry, dotdot_entry. subst buf.
    replace (load (at_offset 12 DE.name_len) _) with 2 by (load_chain; reflexivity).
    rewrite load_bytes_as_map by buf_length. change (Z.to_nat 1) with 1%nat; change (Z.to_nat 2) with 2%nat; cbn [seq map Nat.add].
    f_equal; load_chain; try reflexivity. exact Hrec. }
  rewrite Hlen. destruct (BS cfg) as [|[|k]] eqn:Ek; [lia|lia|].
  cbn [dir_entries]. rewrite Hlen.
  replace (0 <? S (S k))%nat with true by (symmetry; apply Nat.ltb_lt; lia).
  rewrite E1. cbn [de_rec_len dot_entry]. change (12 <=? 0) with false. cbv iota.
  change (0 + Z.to_nat 12)%nat with 12%nat.
  replace (12 <? S (S k))%nat with true by (symmetry; apply Nat.ltb_lt; lia).
  rewrite E2. cbn [de_rec_len dotdot_entry].
  replace (BLOCK_SIZE cfg - 12 <=? 0) with false by (symmetry; apply Z.leb_gt; lia).
  do 2 f_equal.
  destruct k as [|k]; [reflexivity|]. cbn [dir_entries]. rewrite Hlen.
  replace (_ <? _)%nat with false; [reflexivity|].
  symmetry. apply Nat.ltb_ge. unfold BS in Ek. lia.
Qed.

Lemma load_all_zero f buf :
  (forall i, (f_off f <= i < f_off f + f_width f)%nat -> byte_at buf i = 0) ->
  load f buf = 0.
Proof.
  unfold load. generalize (f_off f). induction (f_width f) as [|w IH]; intros o H.
  - reflexivity.
  - cbn [seq map le_combine]. rewrite H by lia. rewrite IH; [reflexivity|].
    intros i Hi. apply H. lia.
Qed.

Lemma root_inode_other_pointers env front k :
  (1 <= k < 15)%nat ->
  load (INO.i_block_at k) (store (INO.i_block_at 0) front (build_root_inode env)) = 0.
Proof.
  intros Hk. rewrite load_store_other.
  2:{ unfold apart, INO.i_block_at. cbn [f_off f_width].
      apply orb_true_iff. right. apply Nat.leb_le. lia. }
  unfold build_root_inode. apply load_all_zero. intros i Hi.
  unfold INO.i_block_at in Hi. cbn [f_off f_width] in Hi.
  rewrite byte_at_store_bytes_in.
  - apply byte_at_zeros.
  - rewrite length_zeros. unfold INO.i_block. cbn [f_off f_width]. lia.
  - rewrite !length_store, length_uninitialised. unfold INO.size. lia.
Qed.

Lemma buffers_in_bounds_block_size cfg g :
  buffers_in_bounds cfg g = true -> 1024 <= BLOCK_SIZE cfg.
Proof.
  unfold buffers_in_bounds. intros H.
  repeat (apply andb_prop in H as [H ?]). change (Z.of_nat SB.size) with 1024 in H. lia.
Qed.

Lemma blocks_write_block_same cfg b buf st :
  blocks (_disk (write_block cfg b buf st)) b = take (BS cfg) buf.
Proof. simpl. rewrite Z.eqb_refl. reflexivity. Qed.

Lemma blocks_write_block_other cfg b buf st j :
  j <> b -> blocks (_disk (write_block cfg b buf st)) j = blocks (_disk st) j.
Proof. intros. simpl. destruct (Z.eqb_spec j b); [contradiction | reflexivity]. Qed.

(** The root directory block after a [format] that returns. *)
Lemma format_root_directory_block_if (cfg : Config) (env : Env) (st st' : Ext2m) :
  BLOCK_SIZE cfg < 2 ^ 16 ->
  format cfg env st = Ok st' ->
  exists g lbs bm root_ino st1,
    block_group_calculation cfg = Some g /\
    add_root_directory cfg env (format_layout cfg env g lbs st)
      = Ok (bm, root_ino, st1) /\
    st' = sync st1 /\
    (forall k, (1 <= k < 15)%nat -> load (INO.i_block_at k) root_ino = 0) /\
    let block := blocks (_disk st') (load (INO.i_block_at 0) root_ino) in
    dir_entries (length block) block 0 = [dot_entry; dotdot_entry cfg] /\
    roundup (8 + de_name_len dot_entry + 1) 4 = Some (de_rec_len dot_entry) /\
    de_rec_len dot_entry + de_rec_len (dotdot_entry cfg) = BLOCK_SIZE cfg.
Proof.
  intros Hbs (g & lbs & bm & root_ino & st1 & Hg & _ & Hb & _ & Hr & ->)%format_inv.
  exists g, lbs, bm, root_ino, st1. repeat split; try assumption.
  - apply add_root_directory_inv in Hr as (front & rest & st_a & buf & _ & _ & -> & _).
    intros k Hk. apply root_inode_other_pointers, Hk.
  - apply buffers_in_bounds_block_size in Hb.
    apply add_root_directory_inv in Hr as (front & rest & st_a & buf & _ & _ & _ & Hd & ->).
    destruct (root_directory_block_entries cfg) as (buf' & Hd' & Hlen & He); [lia|].
    rewrite Hd in Hd'. injection Hd' as <-.
    change (blocks (_disk (sync ?s))) with (blocks (_disk s)).
    rewrite blocks_write_block_same, firstn_all2 by lia. exact He.
  - simpl. lia.
Qed.

(** ** Layout addressing without wrap-around *)

Record geo_facts (g : Geometry) : Prop := {
  gf_fgc : 0 < g_full_group_count g;
  gf_gdbc : 0 <= g_group_desc_block_count g;
  gf_itbc : 0 <= g_inodes_table_block_count g;
  gf_fit : metadata_blocks g <= g_blocks_per_group g;
  gf_addr : g_full_group_count g * g_blocks_per_group g + 1 < 2 ^ 32;
  gf_ipg : 0 < g_inodes_per_group g;
  gf_inodes : g_inodes_per_group g * g_full_group_count g < 2 ^ 32;
  gf_bpg16 : g_blocks_per_group g < 2 ^ 16;
  gf_ipg16 : g_inodes_per_group g < 2 ^ 16
}.

Lemma geometry_fits_facts cfg g :
  0 < BLOCK_SIZE cfg ->
  block_group_calculation cfg = Some g -> geometry_fits g = true -> geo_facts g.
Proof.
  intros Hbs Hg Hf. unfold geometry_fits in Hf.
  repeat (apply andb_prop in Hf as [Hf ?]).
  apply block_group_calculation_inv in Hg
    as (total & _ & _ & Hm & Hfgc & Hf0 & _ & _ & Hgd & _ & _ & Hit & _).
  assert (0 < g_full_group_count g).
  { pose proof (u64_range (total - 1)).
    pose proof (u64_range (8 * BLOCK_SIZE cfg)). unfold MAX_BLOCKS_PER_GROUP in *.
    assert (0 <= g_full_group_count g) by (rewrite Hfgc; apply Z.div_pos; lia).
    lia. }
  split; unfold metadata_blocks; try lia.
  - rewrite Hgd. apply Z.div_pos; [apply u64_range | lia].
  - rewrite Hit. apply Z.div_pos; [apply u64_range | lia].
Qed.

Lemma group_bounds g grp :
  geo_facts g -> 0 <= grp < g_full_group_count g ->
  0 < group_base g grp /\
  group_base g grp + g_blocks_per_group g <= g_full_group_count g * g_blocks_per_group g + 1 /\
  group_base g grp + g_blocks_per_group g < 2 ^ 32 /\ 0 <= g_blocks_per_group g.
Proof.
  intros [] Hgrp. unfold group_base, metadata_blocks in *.
  assert (0 <= g_blocks_per_group g) by lia. nia.
Qed.

Section Addresses.

Variables (g : Geometry) (st : Ext2m) (grp : Z).
Hypothesis Hgeo : has_geometry g st.
Hypothesis Hfacts : geo_facts g.
Hypothesis Hgrp : 0 <= grp < g_full_group_count g.

Local Ltac small :=
  pose proof (group_bounds g grp Hfacts Hgrp);
  destruct Hfacts; unfold metadata_blocks, group_base in *;
  change (2 ^ 32) with 4294967296 in *; change (2 ^ 64) with 18446744073709551616 in *.

Lemma get_group_index_eq : get_group_index st grp = group_base g grp.
Proof.
  unfold get_group_index. destruct Hgeo as (_ & -> & _).
  assert (0 <= grp * g_blocks_per_group g < 2 ^ 32) by (small; nia).
  assert (0 <= group_base g grp < 2 ^ 32) by (small; nia).
  rewrite (u64_small (grp * _)) by (small; lia).
  fold (group_base g grp). rewrite u64_small, u32_small; small; lia.
Qed.

Lemma get_group_super_block_index_eq :
  get_group_super_block_index st grp = group_base g grp.
Proof.
  unfold get_group_super_block_index. rewrite get_group_index_eq, Z.add_0_r.
  apply u32_small. small. lia.
Qed.

Lemma get_group_group_desc_table_index_eq :
  get_group_group_desc_table_index st grp = group_base g grp + 1.
Proof.
  unfold get_group_group_desc_table_index. rewrite get_group_index_eq.
  apply u32_small. small. lia.
Qed.

Lemma get_group_block_bitmap_index_eq :
  get_group_block_bitmap_index st grp =
  group_base g grp + 1 + g_group_desc_block_count g.
Proof.
  unfold get_group_block_bitmap_index. rewrite get_group_group_desc_table_index_eq.
  destruct Hgeo as (_ & _ & _ & -> & _).
  rewrite u64_small, u32_small; small; lia.
Qed.

Lemma get_group_inode_bitmap_index_eq :
  get_group_inode_bitmap_index st grp =
  group_base g grp + 2 + g_group_desc_block_count g.
Proof.
  unfold get_group_inode_bitmap_index. rewrite get_group_block_bitmap_index_eq.
  rewrite u32_small; small; lia.
Qed.

Lemma get_group_inode_table_index_eq :
  get_group_inode_table_index st grp =
  group_base g grp + 3 + g_group_desc_block_count g.
Proof.
  unfold get_group_inode_table_index. rewrite get_group_inode_bitmap_index_eq.
  rewrite u32_small; small; lia.
Qed.

Lemma get_group_data_table_index_eq :
  get_group_data_table_index st grp = group_base g grp + metadata_blocks g.
Proof.
  unfold get_group_data_table_index. rewrite get_group_inode_table_index_eq.
  destruct Hgeo as (_ & _ & _ & _ & ->).
  rewrite u64_small, u32_small; small; lia.
Qed.

End Addresses.

(** ** Bit vectors *)

Lemma bm_nbits_set bm i : bm_nbits (bm_set bm i) = bm_nbits bm.
Proof. unfold bm_set. destruct (_ && _); reflexivity. Qed.

Lemma bm_bytes_length_set bm i : length (bm_bytes (bm_set bm i)) = length (bm_bytes bm).
Proof. unfold bm_set. destruct (_ && _); simpl; [apply length_insert | reflexivity]. Qed.

Lemma byte_at_insert (l : list Z) k v k' :
  byte_at (<[k := v]> l) k' =
  if decide (k' = k /\ (k < length l)%nat) then v else byte_at l k'.
Proof.
  unfold byte_at. destruct (decide (k' = k /\ (k < length l)%nat)) as [[-> H]|H].
  - rewrite list_lookup_insert_eq by lia. reflexivity.
  - destruct (decide (k = k')) as [->|Hne].
    + rewrite list_insert_ge by lia. reflexivity.
    + rewrite list_lookup_insert_ne by lia. reflexivity.
Qed.

Lemma testbit_set_bit b p q :
  0 <= p -> 0 <= q ->
  Z.testbit (Z.lor b (Z.shiftl 1 p)) q = Z.testbit b q || (p =? q).
Proof.
  intros. rewrite Z.lor_spec, Z.shiftl_1_l, Z.pow2_bits_eqb by lia. reflexivity.
Qed.

Lemma bit_index_eq i j :
  0 <= i -> 0 <= j -> i / 8 = j / 8 -> i mod 8 = j mod 8 -> i = j.
Proof.
  intros. rewrite (Z.div_mod i 8), (Z.div_mod j 8) by lia. lia.
Qed.

Lemma bm_test_set bm i j :
  0 <= i < bm_nbits bm -> (Z.to_nat (i / 8) < length (bm_bytes bm))%nat -> 0 <= j ->
  bm_test (bm_set bm i) j = bm_test bm j || (i =? j).
Proof.
  intros Hi Hlen Hj. unfold bm_set.
  replace ((0 <=? i) && (i <? bm_nbits bm)) with true by (symmetry; apply andb_true_iff; lia).
  unfold bm_test. cbn [bm_bytes]. rewrite byte_at_insert.
  assert (0 <= i / 8) by (apply Z.div_pos; lia).
  assert (0 <= j / 8) by (apply Z.div_pos; lia).
  pose proof (Z.mod_pos_bound i 8 ltac:(lia)). pose proof (Z.mod_pos_bound j 8 ltac:(lia)).
  destruct (decide _) as [[He _]|Hn].
  - rewrite testbit_set_bit by lia. rewrite He. f_equal.
    apply Z2Nat.inj in He; try lia.
    destruct (Z.eqb_spec (i mod 8) (j mod 8)) as [Hm|Hm];
      destruct (Z.eqb_spec i j) as [Hij|Hij]; try reflexivity.
    + exfalso. apply Hij. apply bit_index_eq; lia.
    + subst. contradiction.
  - destruct (Z.eqb_spec i j) as [->|_]; [exfalso; apply Hn; split; [reflexivity|lia]|].
    rewrite orb_false_r. reflexivity.
Qed.

Lemma bm_test_set_mono bm i j :
  0 <= j -> bm_test bm j = true -> bm_test (bm_set bm i) j = true.
Proof.
  intros Hj H. unfold bm_set. destruct (_ && _) eqn:E; [|exact H].
  apply andb_true_iff in E as [E1 E2].
  destruct (decide (Z.to_nat (i / 8) < length (bm_bytes bm))%nat).
  - pose proof (bm_test_set bm i j) as Hs. unfold bm_set in Hs.
    rewrite E1, E2 in Hs. simpl in Hs. rewrite Hs by lia. rewrite H. reflexivity.
  - unfold bm_test. cbn [bm_bytes]. rewrite list_insert_ge by lia. exact H.
Qed.

Lemma bm_test_set_other bm i j :
  0 <= j -> j <> i -> bm_test (bm_set bm i) j = bm_test bm j.
Proof.
  intros Hj Hne. unfold bm_set. destruct (_ && _) eqn:E; [|reflexivity].
  apply andb_true_iff in E as [E1 E2].
  destruct (decide (Z.to_nat (i / 8) < length (bm_bytes bm))%nat).
  - pose proof (bm_test_set bm i j) as Hs. unfold bm_set in Hs.
    rewrite E1, E2 in Hs. simpl in Hs. rewrite Hs by lia.
    destruct (Z.eqb_spec i j); [lia|]. apply orb_false_r.
  - unfold bm_test. cbn [bm_bytes]. rewrite list_insert_ge by lia. reflexivity.
Qed.

Lemma for_range_bm_set_other lo n bm j :
  0 <= j -> (j < lo \/ lo + Z.of_nat n <= j) ->
  bm_test (for_range lo n (fun j b => bm_set b j) bm) j = bm_test bm j.
Proof.
  revert lo bm. induction n as [|n IH]; intros lo bm Hj Hout; cbn [for_range].
  - reflexivity.
  - rewrite IH by lia. apply bm_test_set_other; lia.
Qed.

Lemma next_unset_Some n bm i k :
  next_unset n bm i = Some k ->
  i <= k < i + Z.of_nat n /\ bm_test bm k = false /\
  forall j, i <= j < k -> bm_test bm j = true.
Proof.
  revert i. induction n as [|n IH]; intros i; cbn [next_unset]; [discriminate|].
  destruct (bm_test bm i) eqn:E.
  - intros (? & ? & Hall)%IH. split; [lia|]. split; [assumption|].
    intros j Hj. destruct (decide (j = i)) as [->|]; [assumption|]. apply Hall. lia.
  - intros [= <-]. split; [lia|]. split; [assumption|]. intros; lia.
Qed.

Lemma next_unset_None n bm i :
  next_unset n bm i = None ->
  forall j, i <= j < i + Z.of_nat n -> bm_test bm j = true.
Proof.
  revert i. induction n as [|n IH]; intros i; cbn [next_unset]; [intros; lia|].
  destruct (bm_test bm i) eqn:E; [|discriminate].
  intros H j Hj. destruct (decide (j = i)) as [->|]; [assumption|].
  apply (IH _ H). lia.
Qed.

Lemma bm_nextBit_Some bm from k :
  bm_nextBit bm from = Some k ->
  from <= k < bm_nbits bm /\ bm_test bm k = false /\
  forall j, from <= j < k -> bm_test bm j = true.
Proof.
  unfold bm_nextBit. intros (? & ? & ?)%next_unset_Some. repeat split; auto; lia.
Qed.

Lemma bm_nextBit_None bm from :
  bm_nextBit bm from = None ->
  forall j, from <= j < bm_nbits bm -> bm_test bm j = true.
Proof.
  unfold bm_nextBit. intros H j Hj. apply (next_unset_None _ _ _ H). lia.
Qed.

(** Setting the bits [lo .. lo + n - 1], as the loop of [format] does. *)
Lemma for_range_bm_set lo n bm :
  bm_nbits (for_range lo n (fun j b => bm_set b j) bm) = bm_nbits bm /\
  length (bm_bytes (for_range lo n (fun j b => bm_set b j) bm)) = length (bm_bytes bm) /\
  (forall j, 0 <= j -> bm_test bm j = true ->
     bm_test (for_range lo n (fun j b => bm_set b j) bm) j = true) /\
  (0 <= lo -> lo + Z.of_nat n <= bm_nbits bm ->
   (Z.to_nat ((bm_nbits bm + 7) / 8) <= length (bm_bytes bm))%nat ->
   forall j, lo <= j < lo + Z.of_nat n ->
     bm_test (for_range lo n (fun j b => bm_set b j) bm) j = true).
Proof.
  revert lo bm. induction n as [|n IH]; intros lo bm; cbn [for_range].
  - repeat split; auto. intros. lia.
  - destruct (IH (lo + 1) (bm_set bm lo)) as (Hn & Hl & Hm & Hs).
    rewrite bm_nbits_set in *. rewrite bm_bytes_length_set in *.
    repeat split; auto.
    + intros j Hj Ht. apply Hm; [lia|]. apply bm_test_set_mono; assumption.
    + intros Hlo Hhi Hlen j Hj.
      destruct (decide (j = lo)) as [->|].
      * apply Hm; [lia|]. rewrite bm_test_set; try lia.
        assert (0 <= lo / 8) by (apply Z.div_pos; lia).
        assert (lo / 8 < (bm_nbits bm + 7) / 8); [|lia].
        apply Z.div_lt_upper_bound; [lia|].
        pose proof (Z.mod_pos_bound (bm_nbits bm + 7) 8 ltac:(lia)).
        pose proof (Z.div_mod (bm_nbits bm + 7) 8 ltac:(lia)). lia.
      * apply Hs; lia.
Qed.

(** ** Loops and frames *)

Lemma for_range_ind {T : Type} (P : Z -> T -> Prop) lo n body (s : T) :
  P lo s ->
  (forall i s, lo <= i < lo + Z.of_nat n -> P i s -> P (i + 1) (body i s)) ->
  P (lo + Z.of_nat n) (for_range lo n body s).
Proof.
  revert lo s. induction n as [|n IH]; intros lo s H0 Hstep; cbn [for_range].
  - replace (lo + Z.of_nat 0) with lo by lia. exact H0.
  - replace (lo + Z.of_nat (S n)) with (lo + 1 + Z.of_nat n) by lia.
    apply IH.
    + apply Hstep; [lia | exact H0].
    + intros i s' Hi. apply Hstep. lia.
Qed.

Lemma same_geometry_refl st : same_geometry st st.
Proof. repeat split. Qed.

Lemma same_geometry_trans st1 st2 st3 :
  same_geometry st1 st2 -> same_geometry st2 st3 -> same_geometry st1 st3.
Proof. unfold same_geometry. intros ? ?. destruct_and!. repeat split; congruence. Qed.

Lemma has_geometry_same g st st' :
  has_geometry g st -> same_geometry st st' -> has_geometry g st'.
Proof. unfold has_geometry, same_geometry. intros ? ?. destruct_and!. repeat split; congruence. Qed.

Lemma has_geometry_agree g st st' :
  has_geometry g st -> has_geometry g st' -> same_geometry st st'.
Proof. unfold has_geometry, same_geometry. intros ? ?. destruct_and!. repeat split; congruence. Qed.

Lemma only_writes_refl P st : only_writes P st st.
Proof. split; [apply same_geometry_refl | reflexivity]. Qed.

Lemma only_writes_trans P st1 st2 st3 :
  only_writes P st1 st2 -> only_writes P st2 st3 -> only_writes P st1 st3.
Proof.
  intros [G1 H1] [G2 H2]. split; [eapply same_geometry_trans; eauto|].
  intros j Hj. rewrite H2, H1; auto.
Qed.

Lemma only_writes_weaken (P Q : Z -> Prop) st st' :
  (forall j, P j -> Q j) -> only_writes P st st' -> only_writes Q st st'.
Proof. intros HPQ [G H]. split; [exact G|]. intros j Hj. apply H. auto. Qed.

Lemma only_writes_write_block cfg i src st :
  only_writes (fun j => j = i) st (write_block cfg i src st).
Proof.
  split; [repeat split|]. intros j Hj. unfold blk.
  apply blocks_write_block_other. exact Hj.
Qed.

Lemma only_writes_read_block P i st : only_writes P st (read_block i st).
Proof. split; [repeat split|]. reflexivity. Qed.

Lemma only_writes_with_buf P b st : only_writes P st (with_buf b st).
Proof. split; [repeat split|]. reflexivity. Qed.

Lemma blk_write_block_same cfg i src st :
  blk (write_block cfg i src st) i = take (BS cfg) src.
Proof. apply blocks_write_block_same. Qed.

Lemma group_offset_unique g grp grp' a b :
  geo_facts g ->
  0 <= a < g_blocks_per_group g -> 0 <= b < g_blocks_per_group g ->
  group_base g grp + a = group_base g grp' + b -> grp = grp' /\ a = b.
Proof.
  intros _ Ha Hb. unfold group_base. intros H.
  assert (grp = grp') by nia. subst. lia.
Qed.

(** A loop whose iteration [i] only writes blocks in [Q i] only writes blocks
    in some [Q i] of its range. *)
Lemma for_range_only_writes (Q : Z -> Z -> Prop) lo n body st :
  (forall i s, lo <= i < lo + Z.of_nat n -> same_geometry st s ->
     only_writes (Q i) s (body i s)) ->
  only_writes (fun j => exists i, lo <= i < lo + Z.of_nat n /\ Q i j) st
    (for_range lo n body st).
Proof.
  intros Hbody.
  pose (P := fun (i : Z) (s : Ext2m) =>
    only_writes (fun j => exists k, lo <= k < i /\ Q k j) st s).
  assert (P (lo + Z.of_nat n) (for_range lo n body st)) as H; [|exact H].
  apply for_range_ind; unfold P.
  - apply only_writes_refl.
  - intros i s Hi Hs. eapply only_writes_trans.
    + eapply only_writes_weaken; [|exact Hs]. intros j (k & ? & ?). exists k. split; [lia|auto].
    + eapply only_writes_weaken; [|apply Hbody; [lia | apply Hs]].
      intros j Hj. exists i. split; [lia|auto].
Qed.

(** ** The steps of [format_layout] *)

Section LayoutSteps.

Variables (cfg : Config) (g : Geometry).
Hypothesis Hfacts : geo_facts g.

Let n := Z.to_nat (g_full_group_count g).

Lemma fgc_n : Z.of_nat n = g_full_group_count g.
Proof. unfold n. destruct Hfacts. lia. Qed.

(** Step 3: the superblock copies. *)
Lemma write_super_blocks_spec st :
  has_geometry g st ->
  let st' := for_range 0 n (fun i s => write_super_block_to_group cfg i (_buf s) s) st in
  only_writes (fun j => exists grp, 0 <= grp < g_full_group_count g /\ j = group_base g grp)
    st st' /\
  forall grp, 0 <= grp < g_full_group_count g ->
    blk st' (group_base g grp) = take (BS cfg) (_buf st).
Proof.
  intros Hgeo st'. split.
  - rewrite <- fgc_n. subst st'.
    apply (for_range_only_writes (fun i j => j = group_base g i)).
    intros i s Hi Hs. unfold write_super_block_to_group.
    rewrite (get_group_super_block_index_eq g s i).
    + apply only_writes_write_block.
    + eapply has_geometry_same; eauto.
    + exact Hfacts.
    + rewrite fgc_n in Hi. lia.
  - pose (P := fun (i : Z) (s : Ext2m) =>
      same_geometry st s /\ _buf s = _buf st /\
      forall grp, 0 <= grp < i -> blk s (group_base g grp) = take (BS cfg) (_buf st)).
    assert (P (0 + Z.of_nat n) st') as (_ & _ & H).
    { apply for_range_ind; unfold P.
      - split; [apply same_geometry_refl|]. split; [reflexivity|]. intros; lia.
      - intros i s Hi (Hs & Hb & Hprev). rewrite fgc_n in Hi.
        unfold write_super_block_to_group.
        rewrite (get_group_super_block_index_eq g s i); auto;
          [|eapply has_geometry_same; eauto].
        split; [exact Hs|]. split; [exact Hb|].
        intros grp Hgrp. destruct (decide (grp = i)) as [->|Hne].
        + rewrite blk_write_block_same, Hb. reflexivity.
        + unfold blk. rewrite blocks_write_block_other; [apply Hprev; lia|].
          intros Heq. apply Hne.
          destruct (group_offset_unique g grp i 0 0 Hfacts) as [? _]; auto;
            destruct Hfacts; unfold metadata_blocks in *; lia. }
    rewrite fgc_n in H. intros grp Hgrp. apply H. lia.
Qed.

(** Step 4: one group's copy of the descriptor table. *)
Lemma write_group_desc_table_to_group_spec grp ptr st :
  has_geometry g st -> 0 <= grp < g_full_group_count g ->
  let st' := write_group_desc_table_to_group cfg grp ptr st in
  only_writes (fun j => group_base g grp + 1 <= j
                        < group_base g grp + 1 + g_group_desc_block_count g) st st' /\
  forall j, 0 <= j < g_group_desc_block_count g ->
    blk st' (group_base g grp + 1 + j) = take (BS cfg) (drop (Z.to_nat j * BS cfg) ptr).
Proof.
  intros Hgeo Hgrp st'. subst st'. unfold write_group_desc_table_to_group.
  assert (Hn : Z.of_nat (Z.to_nat (group_desc_block_count st)) = g_group_desc_block_count g).
  { destruct Hgeo as (_ & _ & _ & -> & _). destruct Hfacts. lia. }
  assert (Hidx : forall s j, same_geometry st s -> 0 <= j < g_group_desc_block_count g ->
            u64 (get_group_group_desc_table_index s grp + j) = group_base g grp + 1 + j).
  { intros s j Hs Hj.
    rewrite (get_group_group_desc_table_index_eq g s grp); auto;
      [|eapply has_geometry_same; eauto].
    apply u64_small. pose proof (group_bounds g grp Hfacts Hgrp).
    destruct Hfacts. unfold metadata_blocks in *.
    change (2 ^ 32) with 4294967296 in *. change (2 ^ 64) with 18446744073709551616. lia. }
  split.
  - eapply only_writes_weaken;
      [|apply (for_range_only_writes (fun i j => j = group_base g grp + 1 + i))].
    + intros j (i & Hi & ->). lia.
    + intros i s Hi Hs. rewrite Hidx by (auto; lia). apply only_writes_write_block.
  - pose (P := fun (i : Z) (s : Ext2m) =>
      same_geometry st s /\
      forall j, 0 <= j < i ->
        blk s (group_base g grp + 1 + j) = take (BS cfg) (drop (Z.to_nat j * BS cfg) ptr)).
    match goal with |- forall j, _ -> blk ?s _ = _ =>
      assert (P (0 + Z.of_nat (Z.to_nat (group_desc_block_count st))) s) as (_ & H) end.
    { apply for_range_ind; unfold P.
      - split; [apply same_geometry_refl|]. intros; lia.
      - intros i s Hi (Hs & Hprev). rewrite Hidx by (auto; lia).
        split; [exact Hs|]. intros j Hj. destruct (decide (j = i)) as [->|Hne].
        + apply blk_write_block_same.
        + unfold blk. rewrite blocks_write_block_other by lia. apply Hprev. lia. }
    intros j Hj. apply H. lia.
Qed.

(** Step 4: the descriptor table in every group. *)
Lemma write_group_desc_tables_spec ptr st :
  has_geometry g st ->
  let st' := for_range 0 n (fun i s => write_group_desc_table_to_group cfg i ptr s) st in
  only_writes (fun j => exists grp, 0 <= grp < g_full_group_count g /\
                 group_base g grp + 1 <= j
                 < group_base g grp + 1 + g_group_desc_block_count g) st st' /\
  forall grp j, 0 <= grp < g_full_group_count g ->
    0 <= j < g_group_desc_block_count g ->
    blk st' (group_base g grp + 1 + j) = take (BS cfg) (drop (Z.to_nat j * BS cfg) ptr).
Proof.
  intros Hgeo st'. split.
  - rewrite <- fgc_n. subst st'.
    apply (for_range_only_writes
             (fun i j => group_base g i + 1 <= j
                         < group_base g i + 1 + g_group_desc_block_count g)).
    intros i s Hi Hs. rewrite fgc_n in Hi.
    apply write_group_desc_table_to_group_spec; [eapply has_geometry_same; eauto | lia].
  - pose (P := fun (i : Z) (s : Ext2m) =>
      same_geometry st s /\
      forall grp j, 0 <= grp < i -> 0 <= j < g_group_desc_block_count g ->
        blk s (group_base g grp + 1 + j)
        = take (BS cfg) (drop (Z.to_nat j * BS cfg) ptr)).
    assert (P (0 + Z.of_nat n) st') as (_ & H).
    { apply for_range_ind; unfold P.
      - split; [apply same_geometry_refl|]. intros; lia.
      - intros i s Hi (Hs & Hprev). rewrite fgc_n in Hi.
        destruct (write_group_desc_table_to_group_spec i ptr s) as ((Hs' & Hfr) & Hnew);
          [eapply has_geometry_same; eauto | lia |].
        split; [eapply same_geometry_trans; eauto|].
        intros grp j Hgrp Hj. destruct (decide (grp = i)) as [->|Hne].
        + apply Hnew, Hj.
        + rewrite Hfr; [apply Hprev; lia|].
          intros Hin.
          destruct (group_offset_unique g grp i (1 + j)
                      (group_base g grp + 1 + j - group_base g i) Hfacts) as [? _];
            destruct Hfacts; unfold metadata_blocks in *; lia. }
    rewrite fgc_n in H. intros grp j Hgrp Hj. apply H; lia.
Qed.

End LayoutSteps.
Lemma take_store_bytes_zeros bytes m :
  (length bytes <= m)%nat -> take (length bytes) (store_bytes 0 bytes (zeros m)) = bytes.
Proof.
  intros H. unfold store_bytes, zeros.
  replace m with (length bytes + (m - length bytes))%nat by lia.
  rewrite replicate_add.
  rewrite list_inserts_0_r by (rewrite length_replicate; reflexivity).
  rewrite take_app_length. reflexivity.
Qed.

Lemma in_group_range_offset g lo hi grp o :
  geo_facts g ->
  0 <= lo -> hi <= g_blocks_per_group g -> 0 <= o < g_blocks_per_group g ->
  in_group_range g lo hi (group_base g grp + o) -> lo <= o < hi.
Proof.
  intros Hfacts Hlo Hhi Ho (grp' & Hgrp' & Hr).
  destruct (group_offset_unique g grp grp' o (group_base g grp + o - group_base g grp')
              Hfacts) as [-> _]; lia.
Qed.

Section InitGroups.
Variables (cfg : Config) (g : Geometry).
Hypothesis Hfacts : geo_facts g.

Let n := Z.to_nat (g_full_group_count g).

Hypothesis Hnb : (Z.to_nat ((g_blocks_per_group g + 7) / 8) <= BS cfg)%nat.

Lemma init_block_group_spec i st :
  has_geometry g st -> 0 <= i < g_full_group_count g ->
  length (blk st (group_base g i + 1 + g_group_desc_block_count g)) = BS cfg ->
  let st' := init_block_group cfg g i st in
  only_writes (fun j => group_base g i + 1 + g_group_desc_block_count g <= j
                        < group_base g i + g_blocks_per_group g) st st' /\
  (forall k, 0 <= k < metadata_blocks g ->
     bm_test (BitMap_new (blk st' (group_base g i + 1 + g_group_desc_block_count g))
                (g_blocks_per_group g)) k = true) /\
  length (blk st' (group_base g i + 1 + g_group_desc_block_count g)) = BS cfg /\
  (forall k, metadata_blocks g <= k ->
     bm_test (BitMap_new (blk st' (group_base g i + 1 + g_group_desc_block_count g))
                (g_blocks_per_group g)) k
     = bm_test (BitMap_new (blk st (group_base g i + 1 + g_group_desc_block_count g))
                  (g_blocks_per_group g)) k).
Proof.
  intros Hgeo Hi Hlen st'. subst st'. unfold init_block_group.
  set (s1 := with_buf (zeros (BS cfg)) st).
  assert (Hg1 : has_geometry g s1) by exact Hgeo.
  rewrite (get_group_inode_bitmap_index_eq g s1 i Hg1 Hfacts Hi).
  rewrite (get_group_index_eq g s1 i Hg1 Hfacts Hi).
  pose proof (group_bounds g i Hfacts Hi) as Hb.
  assert (Hend : u64 (group_base g i + g_blocks_per_group g) = group_base g i + g_blocks_per_group g).
  { apply u64_small. change (2 ^ 32) with 4294967296 in *. change (2 ^ 64) with 18446744073709551616. lia. }
  rewrite Hend.
  set (start := group_base g i + 2 + g_group_desc_block_count g).
  set (cnt := Z.to_nat (group_base g i + g_blocks_per_group g - start)).
  set (s2 := for_range start cnt _ s1).
  assert (H12 : only_writes (fun j => start <= j < group_base g i + g_blocks_per_group g) s1 s2).
  { eapply only_writes_weaken;
      [|apply (for_range_only_writes (fun i j => j = i))].
    - intros j (k & Hk & ->). subst cnt. lia.
    - intros k s _ _. apply only_writes_write_block. }
  assert (Hg2 : has_geometry g s2) by (eapply has_geometry_same; [exact Hg1 | apply H12]).
  unfold get_group_block_bitmap.
  rewrite (get_group_block_bitmap_index_eq g s2 i Hg2 Hfacts Hi).
  set (bb := group_base g i + 1 + g_group_desc_block_count g) in *.
  set (s3 := read_block bb s2).
  assert (Hbuf3 : _buf s3 = blk st bb).
  { transitivity (blk s2 bb); [reflexivity|].
    rewrite (proj2 H12 bb) by (subst start bb; lia). reflexivity. }
  assert (Hg3 : has_geometry g s3) by exact Hg2.
  replace (blocks_per_group s3) with (g_blocks_per_group g)
    by (destruct Hg3 as (_ & -> & _); reflexivity).
  set (bm0 := BitMap_new (_buf s3) (g_blocks_per_group g)).
  assert (Hm : u64 (3 + g_group_desc_block_count g + g_inodes_table_block_count g)
               = metadata_blocks g).
  { apply u64_small. destruct Hfacts. unfold metadata_blocks in *.
    change (2 ^ 16) with 65536 in *. change (2 ^ 64) with 18446744073709551616. lia. }
  rewrite Hm.
  set (bm := for_range 0 (Z.to_nat (metadata_blocks g)) _ bm0).
  assert (Hlen0 : length (bm_bytes bm0) = Z.to_nat ((g_blocks_per_group g + 7) / 8)).
  { subst bm0. cbn [BitMap_new bm_bytes]. rewrite length_take, Hbuf3, Hlen. lia. }
  destruct (for_range_bm_set 0 (Z.to_nat (metadata_blocks g)) bm0) as (Hnbits & Hbl & _ & Hset).
  fold bm in Hnbits, Hbl, Hset.
  unfold write_group_block_bitmap, bm_data.
  set (s4 := with_buf _ (with_buf (zeros (BS cfg)) s3)).
  assert (Hg4 : has_geometry g s4) by exact Hg3.
  rewrite (get_group_block_bitmap_index_eq g s4 i Hg4 Hfacts Hi). fold bb.
  assert (Hb4 : _buf s4 = store_bytes 0 (bm_bytes bm) (zeros (BS cfg))).
  { subst s4. cbn [with_buf _buf]. rewrite firstn_all. reflexivity. }
  assert (Hreload : BitMap_new (blk (write_block cfg bb (_buf s4) s4) bb)
                      (g_blocks_per_group g) = bm).
  { rewrite blk_write_block_same, Hb4.
    rewrite firstn_all2 by (rewrite length_store_bytes, length_zeros; lia).
    unfold BitMap_new. rewrite <- Hlen0, <- Hbl.
    rewrite take_store_bytes_zeros by lia.
    replace (g_blocks_per_group g) with (bm_nbits bm) by exact Hnbits.
    destruct bm; reflexivity. }
  split; [|split; [|split]].
  - eapply only_writes_trans; [|eapply only_writes_weaken; [|apply only_writes_write_block]].
    + eapply only_writes_trans; [apply only_writes_with_buf|].
      eapply only_writes_trans; [eapply only_writes_weaken; [|exact H12]|].
      * intros j Hj. subst start bb. cbv beta in *. lia.
      * split; [repeat split|reflexivity].
    + intros j ->. subst bb. destruct Hfacts. unfold metadata_blocks in *. lia.
  - intros k Hk. rewrite Hreload.
    apply Hset; try lia.
    + cbn [bm0 BitMap_new bm_nbits]. destruct Hfacts. lia.
    + rewrite Hlen0. cbn [bm0 BitMap_new bm_nbits]. lia.
  - rewrite blk_write_block_same, Hb4.
    rewrite length_take, length_store_bytes, length_zeros. lia.
  - intros k Hk. rewrite Hreload. subst bm.
    rewrite for_range_bm_set_other by (destruct Hfacts; unfold metadata_blocks in *; lia).
    subst bm0. rewrite Hbuf3. reflexivity.
Qed.


(** Step 5 for every group. *)
Lemma init_block_groups_spec st :
  has_geometry g st ->
  (forall grp, 0 <= grp < g_full_group_count g ->
     length (blk st (group_base g grp + 1 + g_group_desc_block_count g)) = BS cfg) ->
  let st' := for_range 0 n (init_block_group cfg g) st in
  only_writes (in_group_range g (1 + g_group_desc_block_count g) (g_blocks_per_group g))
    st st' /\
  forall grp, 0 <= grp < g_full_group_count g ->
    (forall k, 0 <= k < metadata_blocks g ->
       bm_test (BitMap_new (blk st' (group_base g grp + 1 + g_group_desc_block_count g))
                  (g_blocks_per_group g)) k = true) /\
    length (blk st' (group_base g grp + 1 + g_group_desc_block_count g)) = BS cfg /\
    (forall k, metadata_blocks g <= k ->
       bm_test (BitMap_new (blk st' (group_base g grp + 1 + g_group_desc_block_count g))
                  (g_blocks_per_group g)) k
       = bm_test (BitMap_new (blk st (group_base g grp + 1 + g_group_desc_block_count g))
                    (g_blocks_per_group g)) k).
Proof.
  intros Hgeo Hlen st'.
  assert (Hn : Z.of_nat n = g_full_group_count g) by (apply fgc_n, Hfacts).
  assert (Hbpg : metadata_blocks g <= g_blocks_per_group g) by (destruct Hfacts; lia).
  assert (Hgd : 0 <= g_group_desc_block_count g) by (destruct Hfacts; lia).
  assert (Hit : 0 <= g_inodes_table_block_count g) by (destruct Hfacts; lia).
  unfold metadata_blocks in Hbpg.
  pose (R := fun (i j : Z) => exists k, 0 <= k < i /\
     group_base g k + (1 + g_group_desc_block_count g) <= j
     < group_base g k + g_blocks_per_group g).
  pose (P := fun (i : Z) (s : Ext2m) =>
    only_writes (R i) st s /\
    forall grp, 0 <= grp < i ->
      (forall k, 0 <= k < metadata_blocks g ->
         bm_test (BitMap_new (blk s (group_base g grp + 1 + g_group_desc_block_count g))
                    (g_blocks_per_group g)) k = true) /\
      length (blk s (group_base g grp + 1 + g_group_desc_block_count g)) = BS cfg /\
      (forall k, metadata_blocks g <= k ->
         bm_test (BitMap_new (blk s (group_base g grp + 1 + g_group_desc_block_count g))
                    (g_blocks_per_group g)) k
         = bm_test (BitMap_new (blk st (group_base g grp + 1 + g_group_desc_block_count g))
                      (g_blocks_per_group g)) k)).
  assert (P (0 + Z.of_nat n) st') as (Hw & Hf).
  { apply for_range_ind; unfold P.
    - split; [apply only_writes_refl|]. intros; lia.
    - intros i s Hi (Hw & Hprev). rewrite Hn in Hi.
      assert (Hgs : has_geometry g s) by (eapply has_geometry_same; [exact Hgeo | apply Hw]).
      assert (Hbi : blk s (group_base g i + 1 + g_group_desc_block_count g)
                    = blk st (group_base g i + 1 + g_group_desc_block_count g)).
      { apply (proj2 Hw). intros (k & Hk & Hr).
        destruct (group_offset_unique g i k (1 + g_group_desc_block_count g)
                    (group_base g i + 1 + g_group_desc_block_count g - group_base g k)
                    Hfacts) as [-> _]; lia. }
      assert (Hli : length (blk s (group_base g i + 1 + g_group_desc_block_count g)) = BS cfg)
        by (rewrite Hbi; apply Hlen; lia).
      destruct (init_block_group_spec i s Hgs ltac:(lia) Hli) as (Hw' & Hbits & Hl' & Hsame).
      split.
      + eapply only_writes_trans.
        * eapply only_writes_weaken; [|exact Hw]. intros j (k & ? & ?). exists k. split; [lia|auto].
        * eapply only_writes_weaken; [|exact Hw']. intros j Hj. cbv beta in Hj. exists i. split; lia.
      + intros grp Hgrp. destruct (decide (grp = i)) as [->|Hne].
        * split; [exact Hbits|]. split; [exact Hl'|].
          intros k Hk. rewrite Hsame, Hbi by exact Hk. reflexivity.
        * rewrite (proj2 Hw'); [apply Hprev; lia|].
          intros Hr.
          destruct (group_offset_unique g grp i (1 + g_group_desc_block_count g)
                      (group_base g grp + 1 + g_group_desc_block_count g - group_base g i)
                      Hfacts) as [-> _]; lia. }
  rewrite Hn in Hw, Hf. split.
  - eapply only_writes_weaken; [|exact Hw]. intros j (k & ? & ?). exists k. split; lia.
  - intros grp Hgrp. apply Hf. lia.
Qed.

End InitGroups.

Section FormatLayout.

Variables (cfg : Config) (g : Geometry).
Hypothesis Hfacts : geo_facts g.
Hypothesis Hnb : (Z.to_nat ((g_blocks_per_group g + 7) / 8) <= BS cfg)%nat.

Lemma format_layout_spec env lbs st0 :
  device_ok cfg (_disk st0) ->
  let L := format_layout cfg env g lbs st0 in
  let sbuf := store_bytes 0 (build_super_block cfg env g lbs) (zeros (BS cfg)) in
  let ptr := group_desc_staging cfg g (build_group_desc env (set_geometry g st0) g) in
  has_geometry g L /\
  (forall grp, 0 <= grp < g_full_group_count g -> blk L (group_base g grp) = sbuf) /\
  (forall grp j, 0 <= grp < g_full_group_count g ->
     0 <= j < g_group_desc_block_count g ->
     blk L (group_base g grp + 1 + j) = take (BS cfg) (drop (Z.to_nat j * BS cfg) ptr)) /\
  (forall grp, 0 <= grp < g_full_group_count g ->
     (forall k, 0 <= k < metadata_blocks g ->
        bm_test (BitMap_new (blk L (group_base g grp + 1 + g_group_desc_block_count g))
                   (g_blocks_per_group g)) k = true) /\
     length (blk L (group_base g grp + 1 + g_group_desc_block_count g)) = BS cfg /\
     (forall k, metadata_blocks g <= k ->
        bm_test (BitMap_new (blk L (group_base g grp + 1 + g_group_desc_block_count g))
                   (g_blocks_per_group g)) k
        = bm_test (BitMap_new (blk st0 (group_base g grp + 1 + g_group_desc_block_count g))
                     (g_blocks_per_group g)) k)).
Proof.
  intros Hdev L sbuf ptr. subst L. unfold format_layout.
  set (S1 := set_geometry g (format_boot_sector cfg st0)).
  set (S2 := with_buf _ (with_buf (zeros (BS cfg)) S1)).
  assert (Hg2 : has_geometry g S2) by (repeat split).
  assert (Hb2 : _buf S2 = sbuf) by reflexivity.
  destruct (write_super_blocks_spec cfg g Hfacts S2 Hg2) as (Hw3 & Hsb).
  set (S3 := for_range 0 _ _ S2) in *.
  assert (Hg3 : has_geometry g S3) by (eapply has_geometry_same; [exact Hg2 | apply Hw3]).
  change (group_desc_staging cfg g (build_group_desc env S1 g)) with ptr.
  destruct (write_group_desc_tables_spec cfg g Hfacts ptr S3 Hg3) as (Hw4 & Hgd).
  set (S4 := for_range 0 _ _ S3) in *.
  assert (Hg4 : has_geometry g S4) by (eapply has_geometry_same; [exact Hg3 | apply Hw4]).
  assert (Hbpg : metadata_blocks g <= g_blocks_per_group g) by (destruct Hfacts; lia).
  assert (Hgdp : 0 <= g_group_desc_block_count g) by (destruct Hfacts; lia).
  assert (Hitp : 0 <= g_inodes_table_block_count g) by (destruct Hfacts; lia).
  unfold metadata_blocks in Hbpg.
  assert (Hblk4 : forall grp, 0 <= grp < g_full_group_count g ->
            blk S4 (group_base g grp + 1 + g_group_desc_block_count g)
            = blk st0 (group_base g grp + 1 + g_group_desc_block_count g)).
  { intros grp Hgrp.
    rewrite (proj2 Hw4), (proj2 Hw3).
    - pose proof (group_bounds g grp Hfacts Hgrp).
      unfold blk, S2, S1, format_boot_sector. cbn [with_buf set_geometry _disk].
      rewrite blocks_write_block_other by lia. reflexivity.
    - intros (grp' & Hgrp' & Hj).
      destruct (group_offset_unique g grp grp' (1 + g_group_desc_block_count g) 0 Hfacts); lia.
    - intros (grp' & Hgrp' & Hj).
      destruct (group_offset_unique g grp grp' (1 + g_group_desc_block_count g)
        (group_base g grp + 1 + g_group_desc_block_count g - group_base g grp') Hfacts); lia. }
  assert (Hlen4 : forall grp, 0 <= grp < g_full_group_count g ->
            length (blk S4 (group_base g grp + 1 + g_group_desc_block_count g)) = BS cfg)
    by (intros grp Hgrp; rewrite Hblk4 by exact Hgrp; apply Hdev).
  destruct (init_block_groups_spec cfg g Hfacts Hnb S4 Hg4 Hlen4) as (Hw5 & Hbm).
  set (S5 := for_range 0 _ _ S4) in *.
  assert (Hg5 : has_geometry g S5) by (eapply has_geometry_same; [exact Hg4 | apply Hw5]).
  split; [exact Hg5|]. split; [|split].
  - intros grp Hgrp. change (blk (sync S5)) with (blk S5).
    rewrite (proj2 Hw5); [rewrite (proj2 Hw4); [rewrite Hsb, Hb2 by assumption|]|].
    + apply firstn_all2. subst sbuf. rewrite length_store_bytes, length_zeros. lia.
    + intros (grp' & Hgrp' & Hj).
      destruct (group_offset_unique g grp grp' 0 (group_base g grp - group_base g grp') Hfacts); lia.
    + intros Hr. replace (group_base g grp) with (group_base g grp + 0) in Hr by lia.
      apply in_group_range_offset in Hr; auto; lia.
  - intros grp j Hgrp Hj. change (blk (sync S5)) with (blk S5).
    rewrite (proj2 Hw5); [apply Hgd; assumption|].
    intros Hr. replace (group_base g grp + 1 + j) with (group_base g grp + (1 + j)) in Hr by lia.
    apply in_group_range_offset in Hr; auto; lia.
  - intros grp Hgrp. change (blk (sync S5)) with (blk S5).
    destruct (Hbm grp Hgrp) as (H1 & H2 & H3). split; [exact H1|]. split; [exact H2|].
    intros k Hk. rewrite H3, Hblk4 by assumption. reflexivity.
Qed.

End FormatLayout.

(** ** The allocator, for a request of one block *)

Lemma only_reads_refl st : only_reads st st.
Proof.
  split; [apply same_geometry_refl|]. split; [reflexivity|]. exists []. split; [reflexivity | constructor].
Qed.

Lemma only_reads_trans st1 st2 st3 :
  only_reads st1 st2 -> only_reads st2 st3 -> only_reads st1 st3.
Proof.
  intros (G1 & B1 & e1 & L1 & F1) (G2 & B2 & e2 & L2 & F2).
  split; [eapply same_geometry_trans; eauto|]. split.
  - intros j. rewrite B2, B1. reflexivity.
  - exists (e2 ++ e1). split; [rewrite L2, L1, app_assoc; reflexivity|].
    apply Forall_app; auto.
Qed.

Lemma only_reads_read_block i st : only_reads st (read_block i st).
Proof.
  split; [repeat split|]. split; [reflexivity|].
  exists [EvRead i]. split; [reflexivity|]. repeat constructor.
Qed.

Section AllocOne.

Variable g : Geometry.
Hypothesis Hfacts : geo_facts g.

Lemma alloc_loop_single fuel group_id i seen st ret seen' st' :
  has_geometry g st -> 0 <= i < g_full_group_count g ->
  alloc_loop fuel group_id i [] 1 seen st = Ok (ret, seen', st') ->
  only_reads st st' /\
  (ret = [] \/
   exists grp start, 0 <= grp < g_full_group_count g /\
     ret = [group_base g grp + start] /\
     bm_nextBit (BitMap_new (blk st (group_base g grp + 1 + g_group_desc_block_count g))
                   (g_blocks_per_group g)) 0 = Some start).
Proof.
  revert i seen st. induction fuel as [|fuel IH]; intros i seen st Hgeo Hi; cbn [alloc_loop];
    [discriminate|].
  assert (Hfgc : full_group_count st = g_full_group_count g) by apply Hgeo.
  rewrite Hfgc.
  destruct (Z.eqb_spec (g_full_group_count g) 0) as [|_]; [lia|].
  assert (Hnext : 0 <= u64 (i + 1) mod g_full_group_count g < g_full_group_count g)
    by (apply Z.mod_pos_bound; lia).
  destruct (Z.eqb_spec (u64 (i + 1) mod g_full_group_count g) group_id) as [_|_].
  { intros [= <- <- <-]. split; [apply only_reads_refl | left; reflexivity]. }
  unfold get_group_block_bitmap.
  rewrite (get_group_block_bitmap_index_eq g st i Hgeo Hfacts Hi).
  rewrite (get_group_index_eq g st i Hgeo Hfacts Hi).
  set (bb := group_base g i + 1 + g_group_desc_block_count g).
  set (st1 := read_block bb st).
  assert (Hg1 : has_geometry g st1) by exact Hgeo.
  replace (blocks_per_group st1) with (g_blocks_per_group g)
    by (symmetry; apply Hg1).
  change (_buf st1) with (blk st bb).
  set (bm := BitMap_new (blk st bb) (g_blocks_per_group g)).
  cbn [scan_group].
  destruct (bm_nextBit bm 0) as [start|] eqn:Enext.
  - change (u64 (1 - 1) =? 0) with true. cbv iota.
    intros [= <- <- <-]. split; [apply only_reads_read_block|].
    right. exists i, start. split; [exact Hi|]. split; [|exact Enext].
    cbn [app]. f_equal.
    apply bm_nextBit_Some in Enext as (Hs & _).
    cbn [bm BitMap_new bm_nbits] in Hs.
    pose proof (group_bounds g i Hfacts Hi).
    rewrite u64_small; [lia|].
    change (2 ^ 32) with 4294967296 in *. change (2 ^ 64) with 18446744073709551616. lia.
  - intros Hrec. apply IH in Hrec as (Hr & Hret); [|exact Hg1|exact Hnext].
    split; [eapply only_reads_trans; [apply only_reads_read_block | exact Hr]|].
    exact Hret.
Qed.

End AllocOne.

(** ** What a successful [format] leaves on the device *)

Lemma format_effect cfg env st0 st' g :
  device_ok cfg (_disk st0) ->
  format cfg env st0 = Ok st' ->
  block_group_calculation cfg = Some g -> geometry_fits g = true ->
  exists lbs front,
    let L := format_layout cfg env g lbs st0 in
    log2 (BLOCK_SIZE cfg / 1024) = Some lbs /\
    buffers_in_bounds cfg g = true /\
    geo_facts g /\
    has_geometry g st' /\
    is_data_block g front /\
    (forall j, j <> front -> blk st' j = blk L j) /\
    (exists evs, io_log (_disk st') = EvFlush :: EvWrite front :: evs ++ io_log (_disk L)
                 /\ Forall is_read evs).
Proof.
  intros Hdev (g' & lbs & bm & root_ino & st1 & Hg' & _ & Hb & Hl & Hr & ->)%format_inv Hg Hfit.
  rewrite Hg in Hg'. injection Hg' as <-.
  pose proof (buffers_in_bounds_block_size _ _ Hb) as Hbs.
  assert (Hfacts : geo_facts g) by (eapply geometry_fits_facts; eauto; lia).
  assert (Hnb : (Z.to_nat ((g_blocks_per_group g + 7) / 8) <= BS cfg)%nat).
  { unfold buffers_in_bounds in Hb. repeat (apply andb_prop in Hb as [Hb ?]). unfold BS. lia. }
  destruct (format_layout_spec cfg g Hfacts Hnb env lbs st0 Hdev) as (HgL & _ & _ & Hbm).
  set (L := format_layout cfg env g lbs st0) in *.
  apply add_root_directory_inv in Hr
    as (front & rest & st_a & buf & Ha & _ & -> & Hd & ->).
  unfold get_free_block_indexes, get_free_block_indexes_seen in Ha.
  destruct (alloc_loop _ _ _ _ _ _ _) as [[[ret seen] st_a']| | |] eqn:Eloop; try discriminate.
  injection Ha as -> ->.
  apply (alloc_loop_single g Hfacts) in Eloop as (Hreads & Hret);
    [|exact HgL|destruct Hfacts; lia].
  destruct Hret as [|(grp & start & Hgrp & [= -> ->] & Hnext)]; [discriminate|].
  change (blk (snd (get_group_inode_bitmap 0 L))) with (blk L) in Hnext.
  destruct (Hbm grp Hgrp) as (Hbits & _).
  apply bm_nextBit_Some in Hnext as (Hs & Hunset & _).
  cbn [BitMap_new bm_nbits] in Hs.
  assert (Hstart : metadata_blocks g <= start).
  { destruct (Z.le_gt_cases (metadata_blocks g) start) as [|Hlt]; [assumption|].
    rewrite Hbits in Hunset by lia. discriminate. }
  pose proof (group_bounds g grp Hfacts Hgrp) as Hgb.
  set (front := group_base g grp + start) in *.
  assert (Hfront : load (INO.i_block_at 0)
                     (store (INO.i_block_at 0) front (build_root_inode env)) = front).
  { rewrite load_store_same.
    - apply Z.mod_small. change (256 ^ Z.of_nat (f_width (INO.i_block_at 0))) with 4294967296.
      change (2 ^ 32) with 4294967296 in *. subst front. lia.
    - unfold build_root_inode. rewrite length_store_bytes, !length_store, length_uninitialised.
      unfold INO.size, INO.i_block_at. cbn [f_off f_width]. lia. }
  rewrite Hfront.
  destruct Hreads as (Hsg & Hblk & evs & Hlog & Hevs).
  exists lbs, front. cbv zeta. fold L.
  split; [exact Hl|]. split; [exact Hb|]. split; [exact Hfacts|]. split; [|split; [|split]].
  - eapply has_geometry_same; [exact HgL|].
    eapply same_geometry_trans; [|exact Hsg]. repeat split.
  - exists grp. split; [exact Hgrp|]. subst front. lia.
  - intros j Hj. change (blk (sync ?s)) with (blk s). unfold blk at 1.
    rewrite blocks_write_block_other by exact Hj.
    change (blocks (_disk (with_buf buf st_a)) j) with (blk st_a j). rewrite Hblk. reflexivity.
  - exists (evs ++ [EvRead (get_group_inode_bitmap_index L 0)]). split.
    + cbn [sync write_block with_disk with_buf _disk cache_flush_all cache_write_block io_log].
      rewrite Hlog. cbn [get_group_inode_bitmap snd read_block cache_read_block with_disk
                         with_buf _disk io_log].
      rewrite <- app_assoc. reflexivity.
    + apply Forall_app. split; [exact Hevs | repeat constructor].
Qed.

(** ** The superblock image *)

Lemma load_store_bytes_inside f bs buf :
  (f_off f + f_width f <= length bs)%nat -> (length bs <= length buf)%nat ->
  load f (store_bytes 0 bs buf) = load f bs.
Proof.
  intros H1 H2. unfold load. f_equal. apply map_seq_ext. intros i Hi.
  rewrite byte_at_store_bytes_in by lia. f_equal. lia.
Qed.

Lemma length_build_super_block cfg env g lbs :
  length (build_super_block cfg env g lbs) = SB.size.
Proof.
  unfold build_super_block. cbv zeta.
  repeat first [ rewrite length_store | rewrite length_strcpy
               | rewrite length_store_bytes ].
  apply length_uninitialised.
Qed.

Section SuperBlockFields.

Variables (cfg : Config) (env : Env) (g : Geometry) (lbs : Z).

Let sb := build_super_block cfg env g lbs.

Local Ltac sb_field := subst sb; unfold build_super_block; cbv zeta; load_chain; reflexivity.

Lemma sb_s_magic : load SB.s_magic sb = EXT2_SUPER_MAGIC.
Proof. sb_field. Qed.

Lemma sb_s_first_ino : load SB.s_first_ino sb = EXT2_GOOD_OLD_FIRST_INO.
Proof. sb_field. Qed.

Lemma sb_s_log_block_size : load SB.s_log_block_size sb = lbs mod 2 ^ 32.
Proof. sb_field. Qed.

Lemma sb_s_first_data_block :
  load SB.s_first_data_block sb = (if BLOCK_SIZE cfg =? 1 * KB then 1 else 0) mod 2 ^ 32.
Proof. sb_field. Qed.

Lemma sb_s_inode_size : load SB.s_inode_size sb = INODE_SIZE cfg mod 2 ^ 16.
Proof. sb_field. Qed.

Lemma sb_s_inodes_per_group : load SB.s_inodes_per_group sb = g_inodes_per_group g mod 2 ^ 32.
Proof. sb_field. Qed.

Lemma sb_s_blocks_per_group : load SB.s_blocks_per_group sb = g_blocks_per_group g mod 2 ^ 32.
Proof. sb_field. Qed.

Lemma sb_s_inodes_count :
  load SB.s_inodes_count sb
  = u64 (g_inodes_per_group g * g_full_group_count g) mod 2 ^ 32.
Proof. sb_field. Qed.

Lemma sb_s_free_inodes_count :
  load SB.s_free_inodes_count sb
  = u64 (g_inodes_per_group g * g_full_group_count g) mod 2 ^ 32.
Proof. sb_field. Qed.

Lemma sb_s_free_blocks_count :
  load SB.s_free_blocks_count sb
  = u64 (u64 (g_blocks_per_group g * g_full_group_count g) mod 2 ^ 32
         - u64 (u64 (3 + g_group_desc_block_count g + g_inodes_table_block_count g)
                * g_full_group_count g)) mod 2 ^ 32.
Proof. sb_field. Qed.

End SuperBlockFields.

(** ** Metadata blocks after [format] *)

Lemma data_block_not_metadata g j :
  geo_facts g -> is_data_block g j -> ~ in_group_range g 0 (metadata_blocks g) j.
Proof.
  intros Hfacts (grp & Hgrp & Hj) Hr.
  replace j with (group_base g grp + (j - group_base g grp)) in Hr by lia.
  apply in_group_range_offset in Hr; auto; destruct Hfacts; unfold metadata_blocks in *; lia.
Qed.

Lemma data_block_not_super_or_desc g j :
  geo_facts g -> is_data_block g j -> ~ is_super_or_desc_block g j.
Proof.
  intros Hfacts Hd (grp & Hgrp & Hj). apply (data_block_not_metadata g j Hfacts Hd).
  exists grp. split; [exact Hgrp|]. destruct Hfacts. unfold metadata_blocks in *. lia.
Qed.

Lemma data_block_not_inode_bitmap g j :
  geo_facts g -> is_data_block g j -> ~ is_inode_bitmap_block g j.
Proof.
  intros Hfacts Hd (grp & Hgrp & Hj). apply (data_block_not_metadata g j Hfacts Hd).
  exists grp. split; [exact Hgrp|]. destruct Hfacts. unfold metadata_blocks in *. lia.
Qed.

(** After a [format] that returns, every full group starts with the
    superblock image and the staged descriptor table. *)
Lemma format_metadata cfg env st0 st' g :
  device_ok cfg (_disk st0) ->
  format cfg env st0 = Ok st' ->
  block_group_calculation cfg = Some g -> geometry_fits g = true ->
  exists lbs,
    log2 (BLOCK_SIZE cfg / 1024) = Some lbs /\
    buffers_in_bounds cfg g = true /\ geo_facts g /\ has_geometry g st' /\
    (forall grp, 0 <= grp < g_full_group_count g ->
       blk st' (group_base g grp)
       = store_bytes 0 (build_super_block cfg env g lbs) (zeros (BS cfg))) /\
    (forall grp j, 0 <= grp < g_full_group_count g ->
       0 <= j < g_group_desc_block_count g ->
       blk st' (group_base g grp + 1 + j)
       = take (BS cfg)
           (drop (Z.to_nat j * BS cfg)
              (group_desc_staging cfg g (build_group_desc env (set_geometry g st0) g)))).
Proof.
  intros Hdev Hfmt Hg Hfit.
  destruct (format_effect cfg env st0 st' g Hdev Hfmt Hg Hfit)
    as (lbs & front & Hl & Hb & Hfacts & Hgeo & Hdata & Hblk & _).
  assert (Hnb : (Z.to_nat ((g_blocks_per_group g + 7) / 8) <= BS cfg)%nat).
  { pose proof Hb as Hb'. unfold buffers_in_bounds in Hb'.
    repeat (apply andb_prop in Hb' as [Hb' ?]). unfold BS. lia. }
  destruct (format_layout_spec cfg g Hfacts Hnb env lbs st0 Hdev) as (_ & Hsb & Hgd & _).
  exists lbs. split; [exact Hl|]. split; [exact Hb|]. split; [exact Hfacts|].
  split; [exact Hgeo|]. split.
  - intros grp Hgrp. rewrite Hblk; [apply Hsb, Hgrp|].
    intros <-. apply (data_block_not_super_or_desc g _ Hfacts Hdata).
    exists grp. destruct Hfacts. split; [exact Hgrp | lia].
  - intros grp j Hgrp Hj. rewrite Hblk; [apply Hgd; assumption|].
    intros <-. apply (data_block_not_super_or_desc g _ Hfacts Hdata).
    exists grp. split; [exact Hgrp | lia].
Qed.

(** ** [format] returns *)

Lemma root_directory_block_Some cfg : exists buf, root_directory_block cfg = Some buf.
Proof. unfold root_directory_block, roundup, udiv. cbn [Z.eqb bind_opt]. eauto. Qed.

Lemma format_returns cfg env st0 g :
  formattable cfg g st0 -> exists st', format cfg env st0 = Ok st'.
Proof.
  intros (Hdev & Hg & Hfit & Hb & Hfgc & k & Hk & Hfree).
  pose proof (buffers_in_bounds_block_size _ _ Hb) as Hbs.
  assert (Hfacts : geo_facts g) by (eapply geometry_fits_facts; eauto; lia).
  assert (Hnb : (Z.to_nat ((g_blocks_per_group g + 7) / 8) <= BS cfg)%nat).
  { pose proof Hb as Hb'. unfold buffers_in_bounds in Hb'.
    repeat (apply andb_prop in Hb' as [Hb' ?]). unfold BS. lia. }
  unfold format. rewrite Hg.
  unfold static_assert_holds.
  rewrite (block_group_calculation_static_assert _ _ Hg), Z.eqb_refl, Hb. cbn [negb].
  unfold udiv. cbn [Z.eqb].
  destruct (log2 (BLOCK_SIZE cfg / 1024)) as [lbs|] eqn:El.
  2:{ exfalso. assert (0 < BLOCK_SIZE cfg / 1024) by (apply Z.div_str_pos; lia).
      destruct (BLOCK_SIZE cfg / 1024); try lia; discriminate. }
  destruct (format_layout_spec cfg g Hfacts Hnb env lbs st0 Hdev) as (HgL & _ & _ & Hbm).
  set (L := format_layout cfg env g lbs st0) in *.
  unfold add_root_directory.
  destruct (get_group_inode_bitmap 0 L) as [bm0 L1] eqn:Ebm.
  assert (HL1 : L1 = read_block (get_group_inode_bitmap_index L 0) L)
    by (unfold get_group_inode_bitmap in Ebm; injection Ebm as _ <-; reflexivity).
  assert (Hg1 : has_geometry g L1) by (subst L1; exact HgL).
  assert (H0 : 0 <= 0 < g_full_group_count g) by lia.
  replace (full_group_count L1) with (g_full_group_count g) by (symmetry; apply Hg1).
  destruct (Z.to_nat (g_full_group_count g)) as [|fuel] eqn:Ef; [lia|].
  unfold get_free_block_indexes, get_free_block_indexes_seen. cbn [alloc_loop].
  replace (full_group_count L1) with (g_full_group_count g) by (symmetry; apply Hg1).
  destruct (Z.eqb_spec (g_full_group_count g) 0) as [|_]; [lia|].
  change (u64 (0 + 1)) with 1. rewrite (Z.mod_small 1) by lia.
  cbn [Z.eqb]. unfold get_group_block_bitmap.
  rewrite (get_group_block_bitmap_index_eq g L1 0 Hg1 Hfacts H0).
  set (bb := group_base g 0 + 1 + g_group_desc_block_count g) in *.
  replace (blocks_per_group (read_block bb L1)) with (g_blocks_per_group g)
    by (symmetry; apply Hg1).
  replace (_buf (read_block bb L1)) with (blk L bb) by (subst L1; reflexivity).
  set (bm := BitMap_new (blk L bb) (g_blocks_per_group g)).
  cbn [scan_group].
  destruct (bm_nextBit bm 0) as [s|] eqn:Enext.
  - change (u64 (1 - 1) =? 0) with true. cbv iota. cbn [app].
    destruct (root_directory_block_Some cfg) as [buf ->]. eauto.
  - exfalso. pose proof (bm_nextBit_None _ _ Enext k) as Hset.
    destruct (Hbm 0 H0) as (_ & _ & Hsame). fold bb in Hsame.
    subst bm. cbn [BitMap_new bm_nbits] in Hset.
    rewrite Hsame, Hfree in Hset by lia.
    destruct Hfacts. unfold metadata_blocks in *.
    specialize (Hset ltac:(lia)). discriminate.
Qed.

Lemma load_super_block_image f cfg env g lbs :
  1024 <= BLOCK_SIZE cfg -> (f_off f + f_width f <= SB.size)%nat ->
  load f (store_bytes 0 (build_super_block cfg env g lbs) (zeros (BS cfg)))
  = load f (build_super_block cfg env g lbs).
Proof.
  intros Hbs Hf. apply load_store_bytes_inside.
  - rewrite length_build_super_block. exact Hf.
  - rewrite length_build_super_block, length_zeros. unfold SB.size, BS. lia.
Qed.

(** C6. [format] and then the probe: on a formattable device (a blank one,
    for instance) [format] returns and [check_is_ext2_format], run by any
    object on that device, returns true; on a device whose block 1 is all
    zero the probe returns false. *)
Theorem format_then_probe (cfg : Config) (env : Env) (st0 : Ext2m) (g : Geometry) :
  BLOCK_SIZE cfg = 1024 ->
  0 <= INODE_SIZE cfg < 2 ^ 16 ->
  formattable cfg g st0 ->
  (exists st', format cfg env st0 = Ok st' /\
     forall s, _disk s = _disk st' ->
       exists s', check_is_ext2_format cfg s = Ok (true, s')) /\
  (forall s, blocks (_disk s) 1 = zeros (BS cfg) ->
     exists s', check_is_ext2_format cfg s = Ok (false, s')).
Proof.
  intros Hbs Hino Hable. pose proof Hable as (Hdev & Hg & Hfit & _). split.
  - destruct (format_returns cfg env st0 g Hable) as [st' Hfmt].
    exists st'. split; [exact Hfmt|].
    intros s Hs.
    destruct (format_metadata cfg env st0 st' g Hdev Hfmt Hg Hfit)
      as (lbs & Hl & Hb & Hfacts & _ & Hsb & _).
    specialize (Hsb 0 ltac:(destruct Hfacts; lia)).
    change (group_base g 0) with 1 in Hsb. unfold blk in Hsb. rewrite <- Hs in Hsb.
    rewrite Hbs in Hl. change (log2 (1024 / 1024)) with (Some 0) in Hl. injection Hl as <-.
    assert (Hload : forall f, (f_off f + f_width f <= SB.size)%nat ->
              load f (blocks (_disk s) 1) = load f (build_super_block cfg env g 0)).
    { intros f Hf. rewrite Hsb. apply load_super_block_image; [lia | exact Hf]. }
    apply (check_is_ext2_format_spec cfg s).
    + rewrite Hbs. split; reflexivity.
    + rewrite Hload by (vm_compute; lia). rewrite sb_s_log_block_size. reflexivity.
    + unfold probe_checks. rewrite !Hload by (vm_compute; lia).
      rewrite sb_s_magic, sb_s_log_block_size, sb_s_first_data_block,
        sb_s_inodes_per_group, sb_s_first_ino, sb_s_inode_size.
      rewrite Hbs. destruct Hfacts.
      unfold buffers_in_bounds in Hb. repeat (apply andb_prop in Hb as [Hb ?]).
      rewrite Hbs in *.
      change (2 ^ 16) with 65536 in *. change (2 ^ 32) with 4294967296 in *.
      rewrite !Z.mod_small by lia.
      repeat split; try reflexivity.
      * rewrite Z.mod_small by lia.
        assert (g_inodes_per_group g + 7 < 8 * 1024 + 8); [|lia].
        pose proof (Z.div_mod (g_inodes_per_group g + 7) 8 ltac:(lia)).
        pose proof (Z.mod_pos_bound (g_inodes_per_group g + 7) 8 ltac:(lia)). lia.
      * apply Z.mod_small. lia.
  - intros s Hs.
    apply (check_is_ext2_format_spec cfg s).
    + rewrite Hbs. split; reflexivity.
    + rewrite Hs, load_zeros. lia.
    + rewrite Hs, load_zeros. lia.
    + unfold probe_checks. rewrite Hs, !load_zeros. intros (Hm & _). discriminate.
Qed.

Lemma device_ok_zero_device cfg : device_ok cfg (zero_device cfg).
Proof. intros j. split; [apply length_zeros | apply is_bytes_zeros]. Qed.

Lemma formattable_blank17 : formattable cfg17 g17 blank17.
Proof.
  split; [apply device_ok_zero_device|]. split; [reflexivity|]. split; [reflexivity|].
  split; [reflexivity|]. split; [vm_compute; discriminate|].
  exists 486. split; [split; [vm_compute; discriminate | reflexivity] | reflexivity].
Qed.

Lemma format_then_probe_witness :
  (exists st', format cfg17 env0 blank17 = Ok st' /\
     forall s, _disk s = _disk st' ->
       exists s', check_is_ext2_format cfg17 s = Ok (true, s')) /\
  (forall s, blocks (_disk s) 1 = zeros (BS cfg17) ->
     exists s', check_is_ext2_format cfg17 s = Ok (false, s')).
Proof.
  apply (format_then_probe cfg17 env0 blank17 g17).
  - reflexivity.
  - split; [vm_compute; discriminate | reflexivity].
  - apply formattable_blank17.
Defined.

(** ** Load after format *)

(** [read_info] after a [format] that returns. *)
Lemma read_info_after_format_if (cfg : Config) (env : Env) (st0 st' : Ext2m) (g : Geometry) :
  GROUP_DESC_SIZE cfg = Z.of_nat GD.size ->
  device_ok cfg (_disk st0) ->
  block_group_calculation cfg = Some g -> geometry_fits g = true ->
  format cfg env st0 = Ok st' ->
  forall s, _disk s = _disk st' ->
    exists s',
      read_info cfg s = Ok s' /\
      same_geometry st' s' /\
      has_geometry g s' /\
      load SB.s_inodes_count (blk st' 1) / load SB.s_inodes_per_group (blk st' 1)
      = g_full_group_count g.
Proof.
  intros Hgds Hdev Hg Hfit Hfmt s Hs.
  destruct (format_metadata cfg env st0 st' g Hdev Hfmt Hg Hfit)
    as (lbs & Hl & Hb & Hfacts & Hgeo & Hsb & _).
  specialize (Hsb 0 ltac:(destruct Hfacts; lia)).
  change (group_base g 0) with 1 in Hsb.
  pose proof (buffers_in_bounds_block_size _ _ Hb) as Hbs.
  assert (Hload : forall f, (f_off f + f_width f <= SB.size)%nat ->
            load f (blk st' 1) = load f (build_super_block cfg env g lbs)).
  { intros f Hf. rewrite Hsb. apply load_super_block_image; [lia | exact Hf]. }
  pose proof Hfacts as [].
  change (2 ^ 16) with 65536 in *. change (2 ^ 32) with 4294967296 in *.
  assert (Hbpg : 0 <= g_blocks_per_group g) by (unfold metadata_blocks in *; lia).
  assert (Hic : load SB.s_inodes_count (blk st' 1)
                = g_inodes_per_group g * g_full_group_count g).
  { rewrite Hload by (vm_compute; lia). rewrite sb_s_inodes_count.
    change (2 ^ 32) with 4294967296.
    rewrite u64_small by (change (2 ^ 64) with 18446744073709551616; nia).
    apply Z.mod_small. nia. }
  assert (Hipg : load SB.s_inodes_per_group (blk st' 1) = g_inodes_per_group g).
  { rewrite Hload by (vm_compute; lia). rewrite sb_s_inodes_per_group.
    apply Z.mod_small. change (2 ^ 32) with 4294967296. lia. }
  assert (Hbl : load SB.s_blocks_per_group (blk st' 1) = g_blocks_per_group g).
  { rewrite Hload by (vm_compute; lia). rewrite sb_s_blocks_per_group.
    apply Z.mod_small. change (2 ^ 32) with 4294967296. lia. }
  assert (Hdiv : g_inodes_per_group g * g_full_group_count g / g_inodes_per_group g
                 = g_full_group_count g).
  { rewrite Z.mul_comm. apply Z.div_mul. lia. }
  apply block_group_calculation_inv in Hg
    as (total & Hb0 & _ & _ & _ & _ & _ & _ & Hgd & _ & _ & Hit & _).
  unfold read_info. cbn [read_block cache_read_block with_buf with_disk _buf _disk].
  rewrite Hs. change (blocks (_disk st') 1) with (blk st' 1).
  rewrite Hic, Hipg, Hbl. unfold ceil, udiv.
  destruct (Z.eqb_spec (g_inodes_per_group g) 0) as [|_]; [lia|].
  destruct (Z.eqb_spec (BLOCK_SIZE cfg) 0) as [|_]; [lia|].
  rewrite Hdiv. eexists. split; [reflexivity|].
  assert (Hgeo' : has_geometry g
    {| _disk := {| blocks := blocks (_disk st'); io_log := EvRead 1 :: io_log (_disk st') |};
       _buf := blk st' 1;
       full_group_count := g_full_group_count g;
       blocks_per_group := g_blocks_per_group g;
       inodes_per_group := g_inodes_per_group g;
       group_desc_block_count :=
         u64 (u64 (g_full_group_count g * Z.of_nat GD.size) + BLOCK_SIZE cfg - 1)
         / BLOCK_SIZE cfg;
       inodes_table_block_count :=
         u64 (u64 (g_inodes_per_group g * INODE_SIZE cfg) + BLOCK_SIZE cfg - 1)
         / BLOCK_SIZE cfg |}).
  { repeat split; cbn; [rewrite Hgd, Hgds | rewrite Hit]; reflexivity. }
  split; [|split; [exact Hgeo' | reflexivity]].
  eapply has_geometry_agree; [exact Hgeo | exact Hgeo'].
Qed.

(** ** The descriptor table on the device *)

Lemma concat_chunks m k (l : list Z) :
  length l = (k * m)%nat ->
  concat (map (fun j => take m (drop (j * m) l)) (seq 0 k)) = l.
Proof.
  revert l. induction k as [|k IH]; intros l Hl.
  - destruct l; [reflexivity | discriminate].
  - cbn [seq map concat]. rewrite <- seq_shift, map_map.
    transitivity (take m l ++ drop m l); [|apply take_drop]. f_equal.
    etransitivity; [|apply (IH (drop m l)); rewrite length_drop; lia].
    f_equal. apply map_ext. intros j. rewrite drop_drop. reflexivity.
Qed.

Lemma apart_intro o1 n1 o2 n2 :
  (o1 + n1 <= o2 \/ o2 + n2 <= o1)%nat -> apart o1 n1 o2 n2 = true.
Proof.
  intros H. unfold apart. apply orb_true_iff.
  destruct H; [left | right]; apply Nat.leb_le; lia.
Qed.

Ltac gd_fields :=
  unfold GD.bg_block_bitmap, GD.bg_inode_bitmap, GD.bg_inode_table,
    GD.bg_free_blocks_count, GD.bg_free_inodes_count, GD.bg_used_dirs_count, GD.size in *;
  cbn [at_offset f_off f_width] in *.

Lemma build_group_desc_fields env st g i :
  0 <= i < g_full_group_count g ->
  let gd := build_group_desc env st g in
  length gd = (Z.to_nat (g_full_group_count g) * GD.size)%nat /\
  load (at_offset (Z.to_nat i * GD.size) GD.bg_free_blocks_count) gd
  = u64 (g_blocks_per_group g - 3 - g_group_desc_block_count g
         - g_inodes_table_block_count g) mod 2 ^ 16 /\
  load (at_offset (Z.to_nat i * GD.size) GD.bg_free_inodes_count) gd
  = g_inodes_per_group g mod 2 ^ 16.
Proof.
  intros Hi gd. subst gd. unfold build_group_desc.
  set (n := Z.to_nat (g_full_group_count g)).
  pose (P := fun (k : Z) (buf : list Z) =>
    length buf = (n * GD.size)%nat /\
    forall i, 0 <= i < k ->
      load (at_offset (Z.to_nat i * GD.size) GD.bg_free_blocks_count) buf
      = u64 (g_blocks_per_group g - 3 - g_group_desc_block_count g
             - g_inodes_table_block_count g) mod 2 ^ 16 /\
      load (at_offset (Z.to_nat i * GD.size) GD.bg_free_inodes_count) buf
      = g_inodes_per_group g mod 2 ^ 16).
  match goal with |- length ?b = _ /\ _ => assert (P (0 + Z.of_nat n) b) as (Hlen & H) end.
  { apply for_range_ind; unfold P.
    - split; [apply length_uninitialised | intros; lia].
    - intros k buf Hk (Hlen & Hprev). unfold init_group_desc. cbv zeta.
      split; [rewrite !length_store; exact Hlen|].
      intros j Hj. destruct (decide (j = k)) as [->|Hne].
      + split.
        * rewrite !load_store_other by (apply apart_intro; gd_fields; lia).
          rewrite load_store_same by (rewrite !length_store; gd_fields; lia).
          reflexivity.
        * rewrite !load_store_other by (apply apart_intro; gd_fields; lia).
          rewrite load_store_same by (rewrite !length_store; gd_fields; lia).
          reflexivity.
      + destruct (Hprev j ltac:(lia)) as (H1 & H2). split.
        * rewrite !load_store_other by (apply apart_intro; gd_fields; lia). exact H1.
        * rewrite !load_store_other by (apply apart_intro; gd_fields; lia). exact H2. }
  split; [exact Hlen|]. apply H. lia.
Qed.

Lemma desc_table_on_disk_format cfg env st0 st' g grp :
  BLOCK_SIZE cfg < 2 ^ 16 ->
  device_ok cfg (_disk st0) ->
  format cfg env st0 = Ok st' ->
  block_group_calculation cfg = Some g -> geometry_fits g = true ->
  0 <= grp < g_full_group_count g ->
  desc_table_on_disk st' grp
  = group_desc_staging cfg g (build_group_desc env (set_geometry g st0) g).
Proof.
  intros Hbs16 Hdev Hfmt Hg Hfit Hgrp.
  destruct (format_metadata cfg env st0 st' g Hdev Hfmt Hg Hfit)
    as (lbs & _ & Hb & Hfacts & Hgeo & _ & Hgd).
  pose proof (buffers_in_bounds_block_size _ _ Hb) as Hbs.
  unfold desc_table_on_disk.
  rewrite (get_group_group_desc_table_index_eq g st' grp Hgeo Hfacts Hgrp).
  replace (group_desc_block_count st') with (g_group_desc_block_count g)
    by (symmetry; apply Hgeo).
  set (ptr := group_desc_staging cfg g _) in *.
  transitivity (concat (map (fun j => take (BS cfg) (drop (j * BS cfg) ptr))
                          (seq 0 (Z.to_nat (g_group_desc_block_count g)))));
    [|apply concat_chunks].
  - f_equal. apply map_ext_in. intros j [_ Hj]%in_seq.
    rewrite Hgd by (auto; lia). rewrite Nat2Z.id. reflexivity.
  - subst ptr. unfold group_desc_staging. rewrite length_store_bytes, length_zeros.
    destruct Hfacts. unfold metadata_blocks in *.
    change (2 ^ 16) with 65536 in *.
    rewrite u64_small by (change (2 ^ 64) with 18446744073709551616; nia).
    unfold BS. rewrite Z2Nat.inj_mul by lia. lia.
Qed.

(** The root-directory step and the free counts after a [format] that
    returns. *)
Lemma format_root_step_frame_if (cfg : Config) (env : Env) (st0 st' : Ext2m) (g : Geometry) :
  BLOCK_SIZE cfg < 2 ^ 16 ->
  device_ok cfg (_disk st0) ->
  block_group_calculation cfg = Some g -> geometry_fits g = true ->
  format cfg env st0 = Ok st' ->
  exists lbs front evs,
    io_log (_disk st')
    = EvFlush :: EvWrite front :: evs
      ++ io_log (_disk (format_layout cfg env g lbs st0)) /\
    Forall is_read evs /\
    ~ is_super_or_desc_block g front /\ ~ is_inode_bitmap_block g front /\
    forall grp, 0 <= grp < g_full_group_count g ->
      let sb := blk st' (get_group_super_block_index st' grp) in
      let table := desc_table_on_disk st' grp in
      load SB.s_free_blocks_count sb = g_data_block_count g * g_full_group_count g /\
      load SB.s_free_inodes_count sb = g_inodes_per_group g * g_full_group_count g /\
      forall i, 0 <= i < g_full_group_count g ->
        load (at_offset (Z.to_nat i * GD.size) GD.bg_free_blocks_count) table
        = g_data_block_count g /\
        load (at_offset (Z.to_nat i * GD.size) GD.bg_free_inodes_count) table
        = g_inodes_per_group g.
Proof.
  intros Hbs16 Hdev Hg Hfit Hfmt.
  destruct (format_effect cfg env st0 st' g Hdev Hfmt Hg Hfit)
    as (lbs & front & Hl & Hb & Hfacts & Hgeo & Hdata & _ & evs & Hlog & Hevs).
  destruct (format_metadata cfg env st0 st' g Hdev Hfmt Hg Hfit)
    as (lbs' & Hl' & _ & _ & _ & Hsb & _).
  rewrite Hl in Hl'. injection Hl' as <-.
  pose proof (buffers_in_bounds_block_size _ _ Hb) as Hbs.
  exists lbs, front, evs.
  split; [exact Hlog|]. split; [exact Hevs|].
  split; [apply data_block_not_super_or_desc; assumption|].
  split; [apply data_block_not_inode_bitmap; assumption|].
  intros grp Hgrp sb table. subst sb table.
  rewrite (get_group_super_block_index_eq g st' grp Hgeo Hfacts Hgrp), (Hsb grp Hgrp).
  rewrite !load_super_block_image by (try lia; vm_compute; lia).
  rewrite sb_s_free_blocks_count, sb_s_free_inodes_count.
  pose proof Hg as Hinv. apply block_group_calculation_inv in Hinv
    as (total & _ & _ & _ & _ & _ & _ & _ & _ & _ & _ & _ & Hdbc).
  pose proof Hfacts as []. unfold metadata_blocks in *.
  change (2 ^ 16) with 65536 in *. change (2 ^ 32) with 4294967296 in *.
  assert (Hd : g_data_block_count g
               = g_blocks_per_group g - 3 - g_group_desc_block_count g
                 - g_inodes_table_block_count g).
  { rewrite Hdbc. apply u64_small. change (2 ^ 64) with 18446744073709551616. lia. }
  assert (H64 : forall x, 0 <= x < 4294967296 -> u64 x = x).
  { intros x Hx. apply u64_small. change (2 ^ 64) with 18446744073709551616. lia. }
  split; [|split].
  - rewrite (H64 (g_blocks_per_group g * _)) by nia.
    rewrite (Z.mod_small (g_blocks_per_group g * _)) by nia.
    rewrite (H64 (3 + _ + _)) by lia.
    rewrite (H64 ((3 + _ + _) * _)) by nia.
    rewrite H64 by nia. rewrite Z.mod_small by nia. rewrite Hd. ring.
  - rewrite H64 by nia. apply Z.mod_small. nia.
  - intros i Hi.
    rewrite (desc_table_on_disk_format cfg env st0 st' g grp) by assumption.
    destruct (build_group_desc_fields env (set_geometry g st0) g i Hi) as (Hlen & Hf1 & Hf2).
    unfold group_desc_staging.
    assert (Hfit' : (Z.to_nat (g_full_group_count g) * GD.size
                     <= Z.to_nat (u64 (BLOCK_SIZE cfg * g_group_desc_block_count g)))%nat).
    { unfold buffers_in_bounds in Hb.
      apply andb_prop in Hb as [Hb _]. apply andb_prop in Hb as [Hb _].
      apply andb_prop in Hb as [_ Hb]. apply Z.leb_le in Hb.
      rewrite (u64_small (g_full_group_count g * _)) in Hb
        by (unfold GD.size; change (2 ^ 64) with 18446744073709551616; nia).
      unfold GD.size in *. lia. }
    rewrite !load_store_bytes_inside
      by (rewrite ?Hlen, ?length_zeros; try exact Hfit'; gd_fields; nia).
    rewrite Hf1, Hf2, <- Hdbc. change (2 ^ 16) with 65536.
    rewrite !Z.mod_small by lia. split; reflexivity.
Qed.

(** ** The standard configurations *)

Lemma udiv_ok x y : y <> 0 -> udiv x y = Some (x / y).
Proof. intros H. unfold udiv. destruct (Z.eqb_spec y 0); [contradiction | reflexivity]. Qed.

Lemma standard_config_geometry cfg :
  standard_config cfg ->
  exists g,
    block_group_calculation cfg = Some g /\
    geometry_fits g = true /\ buffers_in_bounds cfg g = true /\
    2 <= g_full_group_count g /\ g_blocks_per_group g = 8192 /\
    metadata_blocks g < g_blocks_per_group g.
Proof.
  intros (Hbs & Hgds & Hino & Hd).
  change (2 ^ 40) with 1099511627776 in Hd.
  assert (H64 : forall x, 0 <= x < 2 ^ 63 -> u64 x = x).
  { intros x Hx. apply u64_small. change (2 ^ 63) with 9223372036854775808 in Hx.
    change (2 ^ 64) with 18446744073709551616. lia. }
  change (2 ^ 63) with 9223372036854775808 in H64.
  unfold block_group_calculation, ceil, MAX_BLOCKS_PER_GROUP, bytes_per_inode, KB.
  rewrite Hbs, Hgds, Hino.
  rewrite (udiv_ok _ 1024) by lia. cbn [bind_opt].
  set (total := DISK_SIZE cfg / 1024).
  assert (Ht : 16385 <= total < 1073741824).
  { subst total. split; [apply Z.div_le_lower_bound; lia | apply Z.div_lt_upper_bound; lia]. }
  rewrite (H64 (total - 1)) by lia. change (u64 (8 * 1024)) with 8192.
  rewrite (udiv_ok _ 8192) by lia. cbn [bind_opt].
  set (fgc := (total - 1) / 8192).
  assert (Hf : 2 <= fgc < 131072).
  { subst fgc. split; [apply Z.div_le_lower_bound; lia | apply Z.div_lt_upper_bound; lia]. }
  pose proof (Z.div_mod (total - 1) 8192 ltac:(lia)) as Hdm. fold fgc in Hdm.
  pose proof (Z.mod_pos_bound (total - 1) 8192 ltac:(lia)) as Hmb.
  rewrite (H64 (8192 * fgc)) by lia.
  rewrite (H64 (total - 1 - 8192 * fgc)) by lia.
  replace (total - 1 - (total - 1 - 8192 * fgc)) with (8192 * fgc) by lia.
  rewrite (H64 (8192 * fgc)) by lia.
  rewrite (udiv_ok _ fgc) by lia. cbn [bind_opt].
  rewrite Z.div_mul by lia.
  rewrite (H64 (fgc * 32)) by lia. rewrite (H64 (fgc * 32 + 1024 - 1)) by lia.
  rewrite (udiv_ok _ 1024) by lia. cbn [bind_opt].
  set (gdbc := (fgc * 32 + 1024 - 1) / 1024).
  assert (Hgd : 1 <= gdbc <= 4096).
  { subst gdbc. split; [apply Z.div_le_lower_bound; lia|].
    apply Z.lt_succ_r. apply Z.div_lt_upper_bound; lia. }
  assert (Hgd2 : fgc * 32 <= 1024 * gdbc).
  { subst gdbc. pose proof (Z.div_mod (fgc * 32 + 1024 - 1) 1024 ltac:(lia)).
    pose proof (Z.mod_pos_bound (fgc * 32 + 1024 - 1) 1024 ltac:(lia)). lia. }
  rewrite (H64 (8192 - 3 - gdbc)) by lia. rewrite (H64 ((8192 - 3 - gdbc) * 1024)) by lia.
  change (u64 (2 * 1024 + 128)) with 2176.
  rewrite (udiv_ok _ 2176) by lia. cbn [bind_opt].
  set (ipg := (8192 - 3 - gdbc) * 1024 / 2176).
  assert (Hi : 1925 <= ipg <= 3853).
  { subst ipg. split; [apply Z.div_le_lower_bound; lia|].
    apply Z.lt_succ_r. apply Z.div_lt_upper_bound; lia. }
  assert (Hi2 : ipg * 2176 <= (8192 - 3 - gdbc) * 1024).
  { subst ipg. pose proof (Z.div_mod ((8192 - 3 - gdbc) * 1024) 2176 ltac:(lia)).
    pose proof (Z.mod_pos_bound ((8192 - 3 - gdbc) * 1024) 2176 ltac:(lia)). lia. }
  rewrite (H64 (ipg * 128)) by lia. rewrite (H64 (ipg * 128 + 1024 - 1)) by lia.
  rewrite (udiv_ok _ 1024) by lia. cbn [bind_opt].
  set (itbc := (ipg * 128 + 1024 - 1) / 1024).
  assert (Hit : 1 <= itbc /\ 1024 * itbc < ipg * 128 + 1024).
  { subst itbc. split; [apply Z.div_le_lower_bound; lia|].
    pose proof (Z.div_mod (ipg * 128 + 1024 - 1) 1024 ltac:(lia)).
    pose proof (Z.mod_pos_bound (ipg * 128 + 1024 - 1) 1024 ltac:(lia)). lia. }
  assert (Hfit : 3 + gdbc + itbc < 8192) by lia.
  eexists. split; [reflexivity|].
  unfold geometry_fits, buffers_in_bounds, metadata_blocks. cbn [g_full_group_count
    g_blocks_per_group g_group_desc_block_count g_inodes_per_group
    g_inodes_table_block_count].
  rewrite Hbs. change (Z.of_nat SB.size) with 1024. change (Z.of_nat GD.size) with 32.
  rewrite (H64 (fgc * 32)) by lia. rewrite (H64 (1024 * gdbc)) by lia.
  change ((8192 + 7) / 8) with 1024.
  assert ((ipg + 7) / 8 <= 1024) by (apply Z.lt_succ_r, Z.div_lt_upper_bound; lia).
  change (2 ^ 32) with 4294967296. change (2 ^ 16) with 65536.
  repeat split; try lia; repeat (apply andb_true_intro; split); (lia || nia).
Qed.

(** A standard configuration on a blank device is formattable. *)
Lemma standard_config_formattable cfg :
  standard_config cfg ->
  exists g, formattable cfg g (fresh cfg (zero_device cfg)).
Proof.
  intros H. destruct (standard_config_geometry cfg H) as (g & Hg & Hfit & Hb & Hf & _ & Hm).
  exists g. split; [apply device_ok_zero_device|]. repeat (split; [assumption|]).
  exists (metadata_blocks g). split.
  - assert (Hfacts : geo_facts g).
    { eapply geometry_fits_facts; eauto. destruct H as (-> & _). lia. }
    destruct Hfacts. unfold metadata_blocks in *. lia.
  - unfold bm_test, BitMap_new, blk, fresh, zero_device. cbn [bm_bytes _disk blocks].
    unfold byte_at. destruct (take _ _ !! _) as [b|] eqn:E; [|apply Z.bits_0].
    apply lookup_take_Some in E as [E _]. apply lookup_replicate in E as [-> _].
    apply Z.bits_0.
Qed.

(** ** After [format] *)

(** C4. [format] returns on a formattable device, and after a [format] that
    returns, the block whose address is the root inode's first (and only
    non-zero) direct pointer holds exactly two directory entries: [.] for
    inode 2 with record length 12, which is its size 8 + 1 + 1 rounded up to a
    multiple of 4, and [..] for inode 2 with a record length that fills the
    rest of the block; the two record lengths add up to the block size. *)
Theorem format_root_directory_block (cfg : Config) (env : Env) (st0 : Ext2m) :
  BLOCK_SIZE cfg < 2 ^ 16 ->
  (forall g, formattable cfg g st0 -> exists st', format cfg env st0 = Ok st') /\
  forall st', format cfg env st0 = Ok st' ->
    exists g lbs bm root_ino st1,
      block_group_calculation cfg = Some g /\
      add_root_directory cfg env (format_layout cfg env g lbs st0)
        = Ok (bm, root_ino, st1) /\
      st' = sync st1 /\
      (forall k, (1 <= k < 15)%nat -> load (INO.i_block_at k) root_ino = 0) /\
      let block := blocks (_disk st') (load (INO.i_block_at 0) root_ino) in
      dir_entries (length block) block 0 = [dot_entry; dotdot_entry cfg] /\
      roundup (8 + de_name_len dot_entry + 1) 4 = Some (de_rec_len dot_entry) /\
      de_rec_len dot_entry + de_rec_len (dotdot_entry cfg) = BLOCK_SIZE cfg.
Proof.
  intros Hbs. split.
  - intros g. apply format_returns.
  - intros st'. apply format_root_directory_block_if, Hbs.
Qed.

Lemma format_root_directory_block_witness :
  (forall g, formattable cfg17 g blank17 ->
     exists st', format cfg17 env0 blank17 = Ok st') /\
  forall st', format cfg17 env0 blank17 = Ok st' ->
    exists g lbs bm root_ino st1,
      block_group_calculation cfg17 = Some g /\
      add_root_directory cfg17 env0 (format_layout cfg17 env0 g lbs blank17)
        = Ok (bm, root_ino, st1) /\
      st' = sync st1 /\
      (forall k, (1 <= k < 15)%nat -> load (INO.i_block_at k) root_ino = 0) /\
      let block := blocks (_disk st') (load (INO.i_block_at 0) root_ino) in
      dir_entries (length block) block 0 = [dot_entry; dotdot_entry cfg17] /\
      roundup (8 + de_name_len dot_entry + 1) 4 = Some (de_rec_len dot_entry) /\
      de_rec_len dot_entry + de_rec_len (dotdot_entry cfg17) = BLOCK_SIZE cfg17.
Proof.
  apply (format_root_directory_block cfg17 env0 blank17). reflexivity.
Defined.

(** C9. On a formattable device [format] returns, and [read_info], run by
    any object on the device a [format] has just written, rebuilds the
    geometry members [format] stored: blocks-per-group, inodes-per-group,
    full-group count, descriptor-table span and inode-table span; the
    full-group count it computes, total inodes divided by inodes-per-group,
    is the one of the Geometry Calculator. *)
Theorem read_info_after_format (cfg : Config) (env : Env) (st0 : Ext2m) (g : Geometry) :
  GROUP_DESC_SIZE cfg = Z.of_nat GD.size ->
  device_ok cfg (_disk st0) ->
  block_group_calculation cfg = Some g -> geometry_fits g = true ->
  (formattable cfg g st0 -> exists st', format cfg env st0 = Ok st') /\
  forall st', format cfg env st0 = Ok st' ->
    forall s, _disk s = _disk st' ->
      exists s',
        read_info cfg s = Ok s' /\
        same_geometry st' s' /\
        has_geometry g s' /\
        load SB.s_inodes_count (blk st' 1) / load SB.s_inodes_per_group (blk st' 1)
        = g_full_group_count g.
Proof.
  intros Hgds Hdev Hg Hfit. split.
  - apply format_returns.
  - intros st' Hfmt. eapply read_info_after_format_if; eauto.
Qed.

Lemma read_info_after_format_witness :
  (formattable cfg17 g17 blank17 -> exists st', format cfg17 env0 blank17 = Ok st') /\
  forall st', format cfg17 env0 blank17 = Ok st' ->
    forall s, _disk s = _disk st' ->
      exists s',
        read_info cfg17 s = Ok s' /\
        same_geometry st' s' /\
        has_geometry g17 s' /\
        load SB.s_inodes_count (blk st' 1) / load SB.s_inodes_per_group (blk st' 1)
        = g_full_group_count g17.
Proof.
  apply (read_info_after_format cfg17 env0 blank17 g17).
  - reflexivity.
  - apply device_ok_zero_device.
  - reflexivity.
  - reflexivity.
Defined.

(** C10. On a formattable device [format] returns. The root-directory step
    of a [format] that returns writes one block, a data block: no superblock
    copy, no descriptor-table block and no inode-bitmap block. Afterwards the
    superblock copy of every full group records data-block count x full-group
    count free blocks and inodes-per-group x full-group count free inodes,
    and every descriptor of every descriptor-table copy records data-block
    count free blocks and inodes-per-group free inodes: nothing was taken off
    for the root directory's block or for inode 2. *)
Theorem format_root_step_frame (cfg : Config) (env : Env) (st0 : Ext2m) (g : Geometry) :
  BLOCK_SIZE cfg < 2 ^ 16 ->
  device_ok cfg (_disk st0) ->
  block_group_calculation cfg = Some g -> geometry_fits g = true ->
  (formattable cfg g st0 -> exists st', format cfg env st0 = Ok st') /\
  forall st', format cfg env st0 = Ok st' ->
    exists lbs front evs,
      io_log (_disk st')
      = EvFlush :: EvWrite front :: evs
        ++ io_log (_disk (format_layout cfg env g lbs st0)) /\
      Forall is_read evs /\
      ~ is_super_or_desc_block g front /\ ~ is_inode_bitmap_block g front /\
      forall grp, 0 <= grp < g_full_group_count g ->
        let sb := blk st' (get_group_super_block_index st' grp) in
        let table := desc_table_on_disk st' grp in
        load SB.s_free_blocks_count sb = g_data_block_count g * g_full_group_count g /\
        load SB.s_free_inodes_count sb = g_inodes_per_group g * g_full_group_count g /\
        forall i, 0 <= i < g_full_group_count g ->
          load (at_offset (Z.to_nat i * GD.size) GD.bg_free_blocks_count) table
          = g_data_block_count g /\
          load (at_offset (Z.to_nat i * GD.size) GD.bg_free_inodes_count) table
          = g_inodes_per_group g.
Proof.
  intros Hbs Hdev Hg Hfit. split.
  - apply format_returns.
  - intros st' Hfmt. eapply format_root_step_frame_if; eauto.
Qed.

Lemma format_root_step_frame_witness :
  (formattable cfg17 g17 blank17 -> exists st', format cfg17 env0 blank17 = Ok st') /\
  forall st', format cfg17 env0 blank17 = Ok st' ->
    exists lbs front evs,
      io_log (_disk st')
      = EvFlush :: EvWrite front :: evs
        ++ io_log (_disk (format_layout cfg17 env0 g17 lbs blank17)) /\
      Forall is_read evs /\
      ~ is_super_or_desc_block g17 front /\ ~ is_inode_bitmap_block g17 front /\
      forall grp, 0 <= grp < g_full_group_count g17 ->
        let sb := blk st' (get_group_super_block_index st' grp) in
        let table := desc_table_on_disk st' grp in
        load SB.s_free_blocks_count sb = g_data_block_count g17 * g_full_group_count g17 /\
        load SB.s_free_inodes_count sb = g_inodes_per_group g17 * g_full_group_count g17 /\
        forall i, 0 <= i < g_full_group_count g17 ->
          load (at_offset (Z.to_nat i * GD.size) GD.bg_free_blocks_count) table
          = g_data_block_count g17 /\
          load (at_offset (Z.to_nat i * GD.size) GD.bg_free_inodes_count) table
          = g_inodes_per_group g17.
Proof.
  apply (format_root_step_frame cfg17 env0 blank17 g17).
  - reflexivity.
  - apply device_ok_zero_device.
  - reflexivity.
  - reflexivity.
Defined.

(** ** Counting free bits *)

Lemma count_unset_nonneg n bm i : 0 <= count_unset n bm i.
Proof.
  revert i. induction n as [|n IH]; intros i; cbn [count_unset]; [lia|].
  specialize (IH (i + 1)). destruct (bm_test bm i); lia.
Qed.

Lemma count_unset_le n bm i : count_unset n bm i <= Z.of_nat n.
Proof.
  revert i. induction n as [|n IH]; intros i; cbn [count_unset]; [lia|].
  specialize (IH (i + 1)). destruct (bm_test bm i); lia.
Qed.

Lemma count_unset_ext n bm bm' i :
  (forall k, i <= k < i + Z.of_nat n -> bm_test bm' k = bm_test bm k) ->
  count_unset n bm' i = count_unset n bm i.
Proof.
  revert i. induction n as [|n IH]; intros i H; cbn [count_unset]; [reflexivity|].
  rewrite H by lia. rewrite IH; [reflexivity|]. intros k Hk. apply H. lia.
Qed.

Lemma count_unset_app n m bm i :
  count_unset (n + m) bm i = count_unset n bm i + count_unset m bm (i + Z.of_nat n).
Proof.
  revert i. induction n as [|n IH]; intros i; cbn [count_unset Nat.add].
  - rewrite Z.add_0_r. reflexivity.
  - rewrite IH. replace (i + 1 + Z.of_nat n) with (i + Z.of_nat (S n)) by lia. lia.
Qed.

Lemma count_unset_all_set n bm i :
  (forall k, i <= k < i + Z.of_nat n -> bm_test bm k = true) -> count_unset n bm i = 0.
Proof.
  revert i. induction n as [|n IH]; intros i H; cbn [count_unset]; [reflexivity|].
  rewrite H by lia. rewrite IH; [reflexivity|]. intros k Hk. apply H. lia.
Qed.

Lemma unset_from_nonneg bm from : 0 <= unset_from bm from.
Proof. apply count_unset_nonneg. Qed.

Lemma unset_from_None bm from : bm_nextBit bm from = None -> unset_from bm from = 0.
Proof.
  intros H. apply count_unset_all_set. intros k Hk.
  apply (bm_nextBit_None _ _ H). lia.
Qed.

Lemma bitmap_wf_index bm i :
  bitmap_wf bm -> 0 <= i < bm_nbits bm ->
  (Z.to_nat (i / 8) < length (bm_bytes bm))%nat.
Proof.
  unfold bitmap_wf. intros Hwf Hi.
  assert (0 <= i / 8) by (apply Z.div_pos; lia).
  assert (i / 8 < (bm_nbits bm + 7) / 8); [|lia].
  apply Z.div_lt_upper_bound; [lia|].
  pose proof (Z.mod_pos_bound (bm_nbits bm + 7) 8 ltac:(lia)).
  pose proof (Z.div_mod (bm_nbits bm + 7) 8 ltac:(lia)). lia.
Qed.

Lemma bitmap_wf_set bm i : bitmap_wf bm -> bitmap_wf (bm_set bm i).
Proof. unfold bitmap_wf. rewrite bm_nbits_set, bm_bytes_length_set. auto. Qed.

(** Taking the first free bit at or after [from]: one free bit less from
    there on. *)
Lemma unset_from_Some bm from s :
  bitmap_wf bm -> 0 <= from -> bm_nextBit bm from = Some s ->
  unset_from bm from = 1 + unset_from (bm_set bm s) s.
Proof.
  intros Hwf Hfrom (Hs & Hun & Hall)%bm_nextBit_Some.
  unfold unset_from. rewrite bm_nbits_set.
  replace (Z.to_nat (bm_nbits bm - from))
    with (Z.to_nat (s - from) + S (Z.to_nat (bm_nbits bm - s - 1)))%nat by lia.
  rewrite count_unset_app.
  rewrite count_unset_all_set by (intros k Hk; apply Hall; lia).
  replace (from + Z.of_nat (Z.to_nat (s - from))) with s by lia.
  replace (Z.to_nat (bm_nbits bm - s)) with (S (Z.to_nat (bm_nbits bm - s - 1))) by lia.
  cbn [count_unset]. rewrite Hun.
  rewrite bm_test_set by (try apply bitmap_wf_index; auto; lia).
  rewrite Z.eqb_refl, orb_true_r.
  rewrite (count_unset_ext _ bm (bm_set bm s)); [lia|].
  intros k Hk. rewrite bm_test_set by (try apply bitmap_wf_index; auto; lia).
  destruct (Z.eqb_spec s k); [lia|]. apply orb_false_r.
Qed.

(** ** The scan of one group that does not satisfy the request *)

Lemma scan_group_exhausted fuel bm start group_ind ret count :
  bitmap_wf bm -> 0 <= start ->
  unset_from bm start < count < 2 ^ 64 ->
  (Z.to_nat (unset_from bm start) < fuel)%nat ->
  exists bm' ret',
    scan_group fuel bm start group_ind ret count
    = Exhausted bm' ret' (count - unset_from bm start) /\
    bm_nbits bm' = bm_nbits bm /\
    (forall k, 0 <= k -> bm_test bm k = true -> bm_test bm' k = true) /\
    (forall k, start <= k < bm_nbits bm -> bm_test bm' k = true).
Proof.
  revert bm start ret count. induction fuel as [|fuel IH];
    intros bm start ret count Hwf Hstart Hcount Hfuel; [lia|].
  cbn [scan_group]. destruct (bm_nextBit bm start) as [s|] eqn:Enext.
  - pose proof (unset_from_Some bm start s Hwf Hstart Enext) as Hu.
    pose proof (unset_from_nonneg (bm_set bm s) s) as Hnn.
    pose proof Enext as (Hs & Hun & Hall)%bm_nextBit_Some.
    assert (Hc : u64 (count - 1) = count - 1) by (apply u64_small; lia).
    rewrite Hc. destruct (Z.eqb_spec (count - 1) 0) as [|_]; [lia|].
    destruct (IH (bm_set bm s) s (ret ++ [u64 (s + group_ind)]) (count - 1))
      as (bm' & ret' & Hscan & Hn & Hmono & Hfull);
      [apply bitmap_wf_set, Hwf | lia | lia | lia |].
    exists bm', ret'. rewrite Hscan. split; [f_equal; lia|].
    rewrite bm_nbits_set in *. split; [exact Hn|]. split.
    + intros k Hk Ht. apply Hmono; [exact Hk|]. apply bm_test_set_mono; assumption.
    + intros k Hk. destruct (Z.lt_ge_cases k s) as [Hlt|Hge].
      * apply Hmono; [lia|]. apply bm_test_set_mono; [lia|]. apply Hall. lia.
      * apply Hfull. lia.
  - rewrite (unset_from_None _ _ Enext), Z.sub_0_r.
    exists bm, ret. split; [reflexivity|]. split; [reflexivity|]. split; [auto|].
    intros k Hk. apply (bm_nextBit_None _ _ Enext). exact Hk.
Qed.

(** ** Sums over groups *)

Lemma sum_range_app f lo a b :
  sum_range f lo (a + b) = sum_range f lo a + sum_range f (lo + Z.of_nat a) b.
Proof.
  revert lo. induction a as [|a IH]; intros lo; cbn [sum_range Nat.add].
  - rewrite Z.add_0_r. reflexivity.
  - rewrite IH. replace (lo + 1 + Z.of_nat a) with (lo + Z.of_nat (S a)) by lia. lia.
Qed.

Lemma sum_range_ext f h lo lo' n :
  (forall k, 0 <= k < Z.of_nat n -> f (lo + k) = h (lo' + k)) ->
  sum_range f lo n = sum_range h lo' n.
Proof.
  revert lo lo'. induction n as [|n IH]; intros lo lo' H; cbn [sum_range]; [reflexivity|].
  rewrite (IH (lo + 1) (lo' + 1)).
  - specialize (H 0 ltac:(lia)). rewrite !Z.add_0_r in H. rewrite H. reflexivity.
  - intros k Hk. specialize (H (k + 1) ltac:(lia)).
    replace (lo + 1 + k) with (lo + (k + 1)) by lia.
    replace (lo' + 1 + k) with (lo' + (k + 1)) by lia. exact H.
Qed.

Lemma sum_range_nonneg f lo n :
  (forall k, 0 <= f k) -> 0 <= sum_range f lo n.
Proof.
  intros H. revert lo. induction n as [|n IH]; intros lo; cbn [sum_range]; [lia|].
  specialize (IH (lo + 1)). specialize (H lo). lia.
Qed.

Lemma sum_range_prefix f lo d n :
  (forall k, 0 <= f k) -> (d <= n)%nat -> sum_range f lo d <= sum_range f lo n.
Proof.
  intros H Hd. replace n with (d + (n - d))%nat by lia. rewrite sum_range_app.
  pose proof (sum_range_nonneg f (lo + Z.of_nat d) (n - d) H). lia.
Qed.

(** A sum over all groups does not depend on the group it starts from. *)
Lemma sum_range_rotate_split f (a b : nat) (m : Z) :
  m = Z.of_nat (a + b) ->
  sum_range (fun k => f ((Z.of_nat b + k) mod m)) 0 (a + b)
  = sum_range f (Z.of_nat b) a + sum_range f 0 b.
Proof.
  intros ->. rewrite sum_range_app. f_equal.
  - apply sum_range_ext. intros k Hk. cbn beta. rewrite Z.add_0_l. f_equal.
    apply Z.mod_small. lia.
  - apply sum_range_ext. intros k Hk. cbn beta. f_equal.
    replace (Z.of_nat b + (0 + Z.of_nat a + k))
      with (0 + k + 1 * Z.of_nat (a + b)) by lia.
    rewrite Z.mod_add by lia. apply Z.mod_small. lia.
Qed.

Lemma sum_range_rotate f i n :
  0 <= i < Z.of_nat n ->
  sum_range (fun k => f ((i + k) mod Z.of_nat n)) 0 n = sum_range f 0 n.
Proof.
  intros Hi.
  pose proof (sum_range_rotate_split f (n - Z.to_nat i) (Z.to_nat i) (Z.of_nat n)) as H.
  replace (n - Z.to_nat i + Z.to_nat i)%nat with n in H by lia.
  replace (Z.of_nat (Z.to_nat i)) with i in H by lia.
  rewrite H by reflexivity.
  pose proof (sum_range_app f 0 (Z.to_nat i) (n - Z.to_nat i)) as H2.
  replace (Z.to_nat i + (n - Z.to_nat i))%nat with n in H2 by lia.
  replace (0 + Z.of_nat (Z.to_nat i)) with i in H2 by lia. lia.
Qed.

Lemma free_blocks_in_group_nonneg st grp : 0 <= free_blocks_in_group st grp.
Proof. apply unset_from_nonneg. Qed.

(** ** The allocator when the free blocks do not cover the request *)

Lemma cursor_done gid i n :
  0 < n -> 0 <= gid < n -> (gid - 1 - i) mod n = 0 -> (i + 1) mod n = gid.
Proof.
  intros Hn Hgid H. apply Z.mod_divide in H; [|lia]. destruct H as [q Hq].
  replace (i + 1) with (gid + (- q) * n) by lia.
  rewrite Z.mod_add by lia. apply Z.mod_small. lia.
Qed.

Lemma cursor_next gid i n d :
  0 < n -> 0 <= gid < n -> (gid - 1 - i) mod n = Z.of_nat (S d) ->
  (i + 1) mod n <> gid /\ (gid - 1 - (i + 1) mod n) mod n = Z.of_nat d.
Proof.
  intros Hn Hgid H.
  pose proof (Z.mod_pos_bound (gid - 1 - i) n Hn) as Hb.
  assert (Hd : (gid - 1 - (i + 1) mod n) mod n = Z.of_nat d).
  { rewrite Zminus_mod_idemp_r.
    replace (gid - 1 - (i + 1)) with (gid - 1 - i - 1) by lia.
    rewrite <- Zminus_mod_idemp_l, H.
    replace (Z.of_nat (S d) - 1) with (Z.of_nat d) by lia. apply Z.mod_small. lia. }
  split; [|exact Hd].
  intros Heq. rewrite Heq in Hd.
  replace (gid - 1 - gid) with (-1) in Hd by lia.
  assert ((gid - 1 - i) mod n = (gid - 1 - (i + 1) mod n + 1) mod n) as Hx.
  { rewrite <- Zplus_mod_idemp_l, Zminus_mod_idemp_r, Zplus_mod_idemp_l. f_equal. lia. }
  rewrite Heq in Hx. replace (gid - 1 - gid + 1) with 0 in Hx by lia.
  rewrite Z.mod_0_l in Hx by lia. lia.
Qed.

Lemma alloc_loop_exhausted gid d :
  forall fuel i ret count seen st,
    0 < full_group_count st < 2 ^ 64 ->
    0 <= gid < full_group_count st ->
    0 <= i < full_group_count st ->
    (gid - 1 - i) mod full_group_count st = Z.of_nat d ->
    (forall grp, 0 <= grp < full_group_count st ->
       bitmap_wf (fst (get_group_block_bitmap grp st))) ->
    sum_range (fun k => free_blocks_in_group st ((i + k) mod full_group_count st)) 0 d
      < count < 2 ^ 64 ->
    (d < fuel)%nat ->
    exists seen' st',
      alloc_loop fuel gid i ret count seen st = Ok ([], seen ++ seen', st') /\
      only_reads st st' /\
      Forall (fun p => all_set (snd p)) seen'.
Proof.
  induction d as [|d IH]; intros fuel i ret count seen st Hn Hgid Hi Hd Hwf Hcount Hfuel;
    (destruct fuel as [|fuel]; [lia|]); cbn [alloc_loop].
  - destruct (Z.eqb_spec (full_group_count st) 0) as [|_]; [lia|].
    rewrite u64_small by (change (2 ^ 64) with 18446744073709551616 in *; lia).
    rewrite (cursor_done gid i _ (proj1 Hn) Hgid Hd), Z.eqb_refl.
    exists [], st. rewrite app_nil_r.
    split; [reflexivity|]. split; [apply only_reads_refl | constructor].
  - destruct (Z.eqb_spec (full_group_count st) 0) as [|_]; [lia|].
    rewrite u64_small by (change (2 ^ 64) with 18446744073709551616 in *; lia).
    destruct (cursor_next gid i _ d (proj1 Hn) Hgid Hd) as (Hne & Hd').
    destruct (Z.eqb_spec ((i + 1) mod full_group_count st) gid) as [|_]; [contradiction|].
    cbn [sum_range] in Hcount. rewrite Z.add_0_r, (Z.mod_small i) in Hcount by lia.
    pose proof (sum_range_nonneg
      (fun k => free_blocks_in_group st ((i + k) mod full_group_count st)) (0 + 1) d
      ltac:(intros; apply free_blocks_in_group_nonneg)) as Hrest.
    destruct (get_group_block_bitmap i st) as [bm st1] eqn:Ebm.
    assert (Hbm : bm = fst (get_group_block_bitmap i st)) by (rewrite Ebm; reflexivity).
    assert (Hst1 : st1 = read_block (get_group_block_bitmap_index st i) st)
      by (unfold get_group_block_bitmap in Ebm; injection Ebm as _ <-; reflexivity).
    assert (Hfree : unset_from bm 0 = free_blocks_in_group st i)
      by (rewrite Hbm; reflexivity).
    pose proof (unset_from_nonneg bm 0) as Hnn.
    assert (Hle : unset_from bm 0 <= Z.of_nat (Z.to_nat (bm_nbits bm - 0)))
      by apply count_unset_le.
    destruct (scan_group_exhausted (S (Z.to_nat (bm_nbits bm))) bm 0
                (get_group_index st i) ret count)
      as (bm' & ret' & Hscan & Hnb & _ & Hfull);
      [rewrite Hbm; apply Hwf, Hi | lia | lia | lia |].
    rewrite Hscan.
    destruct (IH fuel ((i + 1) mod full_group_count st) ret'
                (count - unset_from bm 0) (seen ++ [(i, bm')]) st1)
      as (seen' & st' & Hloop & Hreads & Hall); subst st1;
      change (full_group_count (read_block (get_group_block_bitmap_index st i) st))
        with (full_group_count st); try assumption.
    + apply Z.mod_pos_bound. lia.
    + split; [|lia]. rewrite Hfree.
      rewrite (sum_range_ext _
                 (fun k => free_blocks_in_group st ((i + k) mod full_group_count st))
                 0 (0 + 1) d); [lia|].
      intros k Hk. cbn beta. change (free_blocks_in_group (read_block ?x st))
        with (free_blocks_in_group st).
      f_equal. rewrite Zplus_mod_idemp_l. f_equal. lia.
    + lia.
    + exists ((i, bm') :: seen'), st'. rewrite Hloop, <- app_assoc.
      split; [reflexivity|]. split.
      * eapply only_reads_trans; [apply only_reads_read_block | exact Hreads].
      * constructor; [|exact Hall]. intros k Hk. apply Hfull. cbn [snd] in Hk. lia.
Qed.

(** C8. When the free blocks of all full groups together are fewer than the
    request, [get_free_block_indexes] returns the empty vector, for every
    group to start from and with fuel for one pass over the groups. Nothing
    is undone on the way: the bitmap object of every visited group has all
    its bits set when it goes out of scope, the ones found free included.
    The device is only read. *)
Theorem get_free_block_indexes_exhausted (st : Ext2m) (group_id count : Z) (fuel : nat) :
  0 < full_group_count st < 2 ^ 64 ->
  0 <= group_id < full_group_count st ->
  (forall grp, 0 <= grp < full_group_count st ->
     bitmap_wf (fst (get_group_block_bitmap grp st))) ->
  total_free_blocks st < count < 2 ^ 64 ->
  (Z.to_nat (full_group_count st) <= fuel)%nat ->
  exists seen st',
    get_free_block_indexes_seen fuel group_id count st = Ok ([], seen, st') /\
    get_free_block_indexes fuel group_id count st = Ok ([], st') /\
    only_reads st st' /\
    Forall (fun p => all_set (snd p)) seen.
Proof.
  intros Hn Hgid Hwf Hcount Hfuel.
  set (n := Z.to_nat (full_group_count st)).
  assert (Hd : (group_id - 1 - group_id) mod full_group_count st = Z.of_nat (n - 1)).
  { replace (group_id - 1 - group_id) with (full_group_count st - 1 + (-1) * full_group_count st)
      by lia.
    rewrite Z.mod_add by lia. rewrite Z.mod_small by lia. lia. }
  destruct (alloc_loop_exhausted group_id (n - 1) fuel group_id [] count [] st)
    as (seen & st' & Hloop & Hreads & Hall); try assumption; [|lia|].
  - split; [|lia].
    eapply Z.le_lt_trans; [|exact (proj1 Hcount)].
    unfold total_free_blocks. fold n.
    rewrite <- (sum_range_rotate (free_blocks_in_group st) group_id n) by lia.
    replace (Z.of_nat n) with (full_group_count st) by lia.
    apply sum_range_prefix; [|lia]. intros k. apply free_blocks_in_group_nonneg.
  - exists seen, st'. unfold get_free_block_indexes, get_free_block_indexes_seen.
    rewrite Hloop. auto.
Qed.

Lemma get_free_block_indexes_exhausted_witness :
  exists seen st',
    get_free_block_indexes_seen 2 1 40 small_blank = Ok ([], seen, st') /\
    get_free_block_indexes 2 1 40 small_blank = Ok ([], st') /\
    only_reads small_blank st' /\
    Forall (fun p => all_set (snd p)) seen.
Proof.
  apply (get_free_block_indexes_exhausted small_blank 1 40 2).
  - split; reflexivity.
  - split; [vm_compute; discriminate | reflexivity].
  - intros grp _. vm_compute. lia.
  - split; reflexivity.
  - vm_compute. lia.
Defined.

(** ** Where the code departs from its description *)

(** C2. With a single full group the group loop of
    [get_free_block_indexes] is left before its first iteration: right after
    the layout steps of [format], with 7706 free blocks in group 0, a request
    for one block from group 0 returns the empty vector, whatever the fuel,
    and [format] itself then takes [front()] of an empty vector. *)
Theorem get_free_block_indexes_single_group :
  block_group_calculation cfg9 = Some g9 /\
  total_free_blocks layout9 = 7706 /\
  (forall fuel,
     match get_free_block_indexes (S fuel) 0 1 layout9 with
     | Ok (ret, _) => ret = []
     | _ => False
     end) /\
  format cfg9 env0 blank9 = Undefined.
Proof.
  split; [reflexivity|]. split; [vm_compute; reflexivity|]. split.
  - intros fuel. unfold get_free_block_indexes, get_free_block_indexes_seen.
    cbn [alloc_loop].
    replace (full_group_count layout9) with 1 by (vm_compute; reflexivity).
    reflexivity.
  - vm_compute. reflexivity.
Qed.

(** With two full groups the request made by [format] is served from group 0,
    but the bit set in the local bitmap is never stored: after [format] the
    block handed out, 487, holds the root directory and is still free in the
    block bitmap of group 0 on the device, so the next request for one block
    gets the same address again. *)
Lemma get_free_block_indexes_not_persisted :
  match format cfg17 env0 blank17 with
  | Ok st' =>
      load DE.inode (blk st' 487) = 2 /\
      bm_test (fst (get_group_block_bitmap 0 st')) 486 = false /\
      match get_free_block_indexes 2 0 1 st' with
      | Ok (ret, _) => ret = [487]
      | _ => False
      end
  | _ => False
  end.
Proof. vm_compute. repeat split; reflexivity. Qed.

(** C3. After [format] of a blank 17 MB device neither the bit of inode 2
    (index 1) nor bit 2 is set in the inode bitmap of group 0 on the device,
    and [get_inode(2)] returns the all-zero record of the freshly zeroed
    inode table: mode 0, link count 0, no block pointer; it is not a
    directory inode. The bitmap with bit 2 set and the root inode record only
    ever exist as locals of [format]. *)
Theorem format_root_inode_not_written :
  match format cfg17 env0 blank17 with
  | Ok st' =>
      bm_test (fst (get_group_inode_bitmap 0 st')) 1 = false /\
      bm_test (fst (get_group_inode_bitmap 0 st')) 2 = false /\
      match get_inode cfg17 2 st' with
      | Ok (inode, _) =>
          inode = zeros INO.size /\
          load INO.i_mode inode = 0 /\
          load INO.i_links_count inode = 0 /\
          load (INO.i_block_at 0) inode = 0 /\
          ~ is_directory inode
      | _ => False
      end
  | _ => False
  end.
Proof. vm_compute. repeat split; try reflexivity. discriminate. Qed.

(** What [format] builds and drops: the local inode record is a directory
    with link count 2, and the local bitmap has bit 2 set. *)
Lemma add_root_directory_locals :
  match add_root_directory cfg17 env0 (format_layout cfg17 env0 g17 0 blank17) with
  | Ok (bm, root_ino, _) =>
      bm_test bm 2 = true /\ bm_test bm 1 = false /\
      is_directory root_ino /\
      load INO.i_links_count root_ino = 2 /\
      load INO.i_uid root_ino = 0 /\ load INO.i_gid root_ino = 0 /\
      load (INO.i_block_at 0) root_ino = 487
  | _ => False
  end.
Proof. vm_compute. repeat split; reflexivity. Qed.

(** Whatever the in-group index, [get_inode] reads one block, the first
    block of the group's inode table, and takes the record from it; it can
    only return for an index within that block. It fails its assertions for
    a number below 1 and for a group that is not a full group. *)
Lemma get_inode_reads_first_block cfg k st :
  inodes_per_group st <> 0 -> k < 2 ^ 64 ->
  (k < 1 -> get_inode cfg k st = AssertFail) /\
  (1 <= k -> full_group_count st <= (k - 1) / inodes_per_group st ->
   get_inode cfg k st = AssertFail) /\
  (forall inode st', get_inode cfg k st = Ok (inode, st') ->
     let group_index := (k - 1) / inodes_per_group st in
     let ind := (k - 1) mod inodes_per_group st in
     let first := get_group_inode_table_index st group_index in
     1 <= k /\ group_index < full_group_count st /\
     io_log (_disk st') = EvRead first :: io_log (_disk st) /\
     (forall j, blk st' j = blk st j) /\
     inode = load_bytes (Z.to_nat ind * INO.size) INO.size (blk st first) /\
     (Z.to_nat ind * INO.size + INO.size <= BS cfg)%nat).
Proof.
  intros Hipg Hk. unfold get_inode, udiv.
  destruct (Z.eqb_spec (inodes_per_group st) 0) as [|_]; [contradiction|].
  destruct (Z.leb_spec 1 k) as [H1|H1]; cbn [negb].
  - rewrite u64_small by (change (2 ^ 64) with 18446744073709551616 in *; lia).
    split; [intros; lia|]. split.
    + intros _ Hge. destruct (Z.ltb_spec ((k - 1) / inodes_per_group st) (full_group_count st));
        [lia | reflexivity].
    + intros inode st'.
      destruct (Z.ltb_spec ((k - 1) / inodes_per_group st) (full_group_count st)) as [Hlt|];
        cbn [negb]; [|discriminate].
      destruct (_ <=? _)%nat eqn:Eb; [|discriminate].
      intros [= <- <-]. apply Nat.leb_le in Eb.
      repeat split; auto.
  - split; [reflexivity|]. split; [intros; lia | discriminate].
Qed.

(** C7. [get_inode] and [write_inode] always read the first block of the
    group's inode table. Inode 10 of the formatted 17 MB device has in-group
    index 9, which lies in the second block of the table (8 records of 128
    bytes per block); the code reads block 5, the first one, and indexes 1152
    bytes into the 1024-byte buffer, outside of it. Inode 2 is within the
    first block and is read from it with one block read. *)
Theorem get_inode_beyond_first_block :
  match format cfg17 env0 blank17 with
  | Ok st' =>
      get_group_inode_table_index st' 0 = 5 /\
      (10 - 1) / inodes_per_group st' = 0 /\ (10 - 1) mod inodes_per_group st' = 9 /\
      get_inode cfg17 10 st' = Undefined /\
      write_inode cfg17 10 (zeros INO.size) st' = Undefined /\
      match get_inode cfg17 2 st' with
      | Ok (_, st'') => io_log (_disk st'') = EvRead 5 :: io_log (_disk st')
      | _ => False
      end
  | _ => False
  end.
Proof. vm_compute. repeat split; reflexivity. Qed.

(** ** The helpers and the geometry, further *)

Lemma ceil_exact x y :
  0 <= x -> 0 < y -> x + y - 1 < 2 ^ 64 -> ceil x y = Some ((x + y - 1) / y).
Proof.
  intros Hx Hy Hs. unfold ceil. rewrite u64_small by lia. apply udiv_ok. lia.
Qed.

Lemma ceil_bounds x y :
  0 <= x -> 0 < y -> ((x + y - 1) / y - 1) * y < x <= (x + y - 1) / y * y.
Proof.
  intros Hx Hy.
  pose proof (Z.div_mod (x + y - 1) y ltac:(lia)) as Hdm.
  pose proof (Z.mod_pos_bound (x + y - 1) y Hy) as Hm.
  nia.
Qed.

(** X1. [ceil x y], for a positive [y] and operands whose sum [x + y - 1]
    fits [uint64_t], is the least [q] with [x <= q * y]: the number of
    [y]-sized pieces needed to hold [x]. *)
Theorem ceil_least (x y : Z) :
  0 <= x -> 0 < y -> x + y - 1 < 2 ^ 64 ->
  exists q, ceil x y = Some q /\
    (q - 1) * y < x <= q * y /\
    forall q', x <= q' * y -> q <= q'.
Proof.
  intros Hx Hy Hs. exists ((x + y - 1) / y).
  split; [apply ceil_exact; assumption|].
  pose proof (ceil_bounds x y Hx Hy) as Hb.
  split; [exact Hb|]. intros q' Hq'. nia.
Qed.

Lemma ceil_least_witness :
  exists q, ceil 3853 1024 = Some q /\
    (q - 1) * 1024 < 3853 <= q * 1024 /\
    forall q', 3853 <= q' * 1024 -> q <= q'.
Proof.
  apply (ceil_least 3853 1024); [lia | lia | vm_compute; reflexivity].
Defined.

(** X2. [roundup x y], under the same conditions, is the least multiple of
    [y] that is not below [x]: a multiple of [y] in [x, x + y), and [x]
    itself when [x] is a multiple already. *)
Theorem roundup_multiple (x y : Z) :
  0 <= x -> 0 < y -> x + y - 1 < 2 ^ 64 ->
  exists r, roundup x y = Some r /\
    r mod y = 0 /\ x <= r < x + y /\ (x mod y = 0 -> r = x).
Proof.
  intros Hx Hy Hs. exists ((x + y - 1) / y * y).
  pose proof (ceil_bounds x y Hx Hy) as Hb.
  split; [|split; [|split]].
  - unfold roundup. rewrite u64_small by lia. rewrite udiv_ok by lia.
    rewrite u64_small; [reflexivity|]. nia.
  - apply Z.mod_mul. lia.
  - lia.
  - intros Hm.
    pose proof (Z.div_mod x y ltac:(lia)) as Hdm. rewrite Hm in Hdm.
    replace (x + y - 1) with (y - 1 + x / y * y) by lia.
    rewrite Z.div_add by lia. rewrite Z.div_small by lia. lia.
Qed.

Lemma roundup_multiple_witness :
  exists r, roundup 10 4 = Some r /\
    r mod 4 = 0 /\ 10 <= r < 10 + 4 /\ (10 mod 4 = 0 -> r = 10).
Proof.
  apply (roundup_multiple 10 4); [lia | lia | vm_compute; reflexivity].
Defined.

Lemma ctz_pos_spec p :
  exists m, 0 <= ctz_pos p /\ 0 <= m /\ Z.pos p = 2 ^ ctz_pos p * (2 * m + 1).
Proof.
  induction p as [q _|q (m & Hk & Hm & IH)|].
  - exists (Z.pos q). cbn [ctz_pos]. split; [lia|]. split; lia.
  - exists m. cbn [ctz_pos]. split; [lia|]. split; [lia|].
    rewrite Z.pow_add_r by lia. change (2 ^ 1) with 2.
    rewrite Pos2Z.inj_xO, IH. lia.
  - exists 0. cbn [ctz_pos]. split; [lia|]. split; lia.
Qed.

(** X3. [log2] counts trailing zero bits: for [x > 0] its result [k] is the
    exponent of the largest power of two that divides [x], that is
    [x = 2 ^ k * (2 * m + 1)]. It is the binary logarithm of [x] only when
    [x] is a power of two. *)
Theorem log2_trailing_zeros (x : Z) :
  0 < x ->
  exists k m, log2 x = Some k /\ 0 <= k /\ 0 <= m /\ x = 2 ^ k * (2 * m + 1).
Proof.
  intros Hx. destruct x as [|p|p]; try lia.
  destruct (ctz_pos_spec p) as (m & Hk & Hm & Hp).
  exists (ctz_pos p), m. cbn [log2]. auto.
Qed.

Lemma log2_trailing_zeros_witness :
  exists k m, log2 12 = Some k /\ 0 <= k /\ 0 <= m /\ 12 = 2 ^ k * (2 * m + 1).
Proof. apply (log2_trailing_zeros 12). lia. Defined.

(** ** Geometry *)

(** X4. A device of at least one block and at most [8 * BLOCK_SIZE] blocks
    has no full group: [FULL_GROUP_COUNT] is 0, the constant expression of
    [block_group_calculation] divides by it, and [format] has no result. *)
Theorem block_group_calculation_small_device (cfg : Config) (env : Env) (st : Ext2m) :
  0 < BLOCK_SIZE cfg -> 8 * BLOCK_SIZE cfg < 2 ^ 64 ->
  BLOCK_SIZE cfg <= DISK_SIZE cfg < (8 * BLOCK_SIZE cfg + 1) * BLOCK_SIZE cfg ->
  block_group_calculation cfg = None /\ format cfg env st = Undefined.
Proof.
  intros Hb H8 Hd.
  assert (Hn : block_group_calculation cfg = None).
  { unfold block_group_calculation.
    rewrite udiv_ok by lia. cbn [bind_opt].
    assert (Ht : 1 <= DISK_SIZE cfg / BLOCK_SIZE cfg <= 8 * BLOCK_SIZE cfg).
    { split; [apply Z.div_le_lower_bound; lia|].
      apply Z.lt_succ_r, Z.div_lt_upper_bound; lia. }
    unfold MAX_BLOCKS_PER_GROUP.
    rewrite (u64_small (8 * BLOCK_SIZE cfg)) by lia.
    rewrite (u64_small (DISK_SIZE cfg / BLOCK_SIZE cfg - 1)) by lia.
    rewrite udiv_ok by lia. cbn [bind_opt].
    rewrite (Z.div_small (DISK_SIZE cfg / BLOCK_SIZE cfg - 1)) by lia.
    reflexivity. }
  split; [exact Hn|]. unfold format. rewrite Hn. reflexivity.
Qed.

Lemma block_group_calculation_small_device_witness :
  block_group_calculation
    {| DISK_SIZE := 8 * 1024 * KB; BLOCK_SIZE := 1 * KB;
       GROUP_DESC_SIZE := 32; INODE_SIZE := 128 |} = None /\
  format {| DISK_SIZE := 8 * 1024 * KB; BLOCK_SIZE := 1 * KB;
            GROUP_DESC_SIZE := 32; INODE_SIZE := 128 |} env0 blank17 = Undefined.
Proof.
  apply block_group_calculation_small_device;
    [reflexivity | reflexivity | split; [vm_compute; discriminate | reflexivity]].
Defined.

(** X5. For a device of at least one block: every full group has
    [8 * BLOCK_SIZE] blocks, there are [(TOTAL_BLOCK - 1) / (8 * BLOCK_SIZE)]
    of them, the last group is shorter than a full one, block 0 with the
    full groups and the last group is the whole device, and [GROUP_COUNT]
    counts the last group when it is not empty. *)
Theorem block_group_calculation_partition (cfg : Config) (g : Geometry) :
  0 < BLOCK_SIZE cfg -> 8 * BLOCK_SIZE cfg < 2 ^ 64 ->
  BLOCK_SIZE cfg <= DISK_SIZE cfg < 2 ^ 64 ->
  block_group_calculation cfg = Some g ->
  g_blocks_per_group g = 8 * BLOCK_SIZE cfg /\
  g_full_group_count g = (DISK_SIZE cfg / BLOCK_SIZE cfg - 1) / (8 * BLOCK_SIZE cfg) /\
  0 < g_full_group_count g /\
  0 <= g_blocks_last_group g < 8 * BLOCK_SIZE cfg /\
  1 + g_full_group_count g * g_blocks_per_group g + g_blocks_last_group g
    = DISK_SIZE cfg / BLOCK_SIZE cfg /\
  g_group_count g
    = g_full_group_count g + (if 0 <? g_blocks_last_group g then 1 else 0).
Proof.
  intros Hb H8 Hd H.
  assert (Hgc : g_group_count g
     = u64 (g_full_group_count g + (if 0 <? g_blocks_last_group g then 1 else 0))).
  { unfold block_group_calculation, ceil in H.
    repeat (apply bind_opt_Some in H as (? & ?%udiv_Some & H)).
    injection H as <-. reflexivity. }
  apply block_group_calculation_inv in H
    as (total & _ & -> & _ & Hf & Hf0 & Hl & Hp & _).
  set (T := DISK_SIZE cfg / BLOCK_SIZE cfg) in *.
  assert (Ht : 1 <= T < 2 ^ 64).
  { split; [apply Z.div_le_lower_bound; lia|].
    apply Z.div_lt_upper_bound; nia. }
  unfold MAX_BLOCKS_PER_GROUP in *.
  rewrite (u64_small (8 * BLOCK_SIZE cfg)) in * by lia.
  rewrite (u64_small (T - 1)) in * by lia.
  set (F := g_full_group_count g) in *.
  pose proof (Z.div_mod (T - 1) (8 * BLOCK_SIZE cfg) ltac:(lia)) as Hdm.
  pose proof (Z.mod_pos_bound (T - 1) (8 * BLOCK_SIZE cfg) ltac:(lia)) as Hm.
  rewrite <- Hf in Hdm.
  assert (HF : 0 < F).
  { assert (0 <= F) by (rewrite Hf; apply Z.div_pos; lia). lia. }
  rewrite (u64_small (8 * BLOCK_SIZE cfg * F)) in Hl by nia.
  rewrite u64_small in Hl by nia.
  assert (Hl' : g_blocks_last_group g = (T - 1) mod (8 * BLOCK_SIZE cfg)) by lia.
  rewrite u64_small in Hp by lia.
  assert (Hp' : g_blocks_per_group g = 8 * BLOCK_SIZE cfg).
  { rewrite Hp. replace (T - 1 - g_blocks_last_group g) with (8 * BLOCK_SIZE cfg * F) by lia.
    apply Z.div_mul. lia. }
  split; [exact Hp'|]. split; [exact Hf|]. split; [exact HF|].
  split; [lia|]. split; [rewrite Hp'; lia|].
  rewrite Hgc. apply u64_small.
  assert (F <= T - 1) by nia.
  destruct (0 <? g_blocks_last_group g); lia.
Qed.

Lemma block_group_calculation_partition_witness :
  g_blocks_per_group g17 = 8 * BLOCK_SIZE cfg17 /\
  g_full_group_count g17 = (DISK_SIZE cfg17 / BLOCK_SIZE cfg17 - 1) / (8 * BLOCK_SIZE cfg17) /\
  0 < g_full_group_count g17 /\
  0 <= g_blocks_last_group g17 < 8 * BLOCK_SIZE cfg17 /\
  1 + g_full_group_count g17 * g_blocks_per_group g17 + g_blocks_last_group g17
    = DISK_SIZE cfg17 / BLOCK_SIZE cfg17 /\
  g_group_count g17
    = g_full_group_count g17 + (if 0 <? g_blocks_last_group g17 then 1 else 0).
Proof.
  apply (block_group_calculation_partition cfg17 g17);
    [reflexivity | reflexivity | split; [vm_compute; discriminate | reflexivity]
    | reflexivity].
Defined.

(** X6. When the descriptor table leaves room in a group
    ([3 + group_desc_block_count <= blocks_per_group]), the rest is shared
    as the comments of [block_group_calculation] say: the inodes with
    [bytes_per_inode] bytes of data each fit in it, the inode table holds
    [inodes_per_group] records and fits too, the data-block count is what
    is left (it does not wrap), and the data blocks hold [bytes_per_inode]
    bytes for every inode up to less than one block in all. *)
Theorem block_group_calculation_inode_budget (cfg : Config) (g : Geometry) :
  0 < BLOCK_SIZE cfg -> 0 <= INODE_SIZE cfg < 2 ^ 63 ->
  block_group_calculation cfg = Some g ->
  3 + g_group_desc_block_count g <= g_blocks_per_group g ->
  g_blocks_per_group g * BLOCK_SIZE cfg < 2 ^ 64 ->
  let room := g_blocks_per_group g - 3 - g_group_desc_block_count g in
  g_inodes_per_group g * (bytes_per_inode + INODE_SIZE cfg) <= room * BLOCK_SIZE cfg /\
  g_inodes_per_group g * INODE_SIZE cfg <= g_inodes_table_block_count g * BLOCK_SIZE cfg /\
  g_inodes_table_block_count g <= room /\
  g_data_block_count g = room - g_inodes_table_block_count g /\
  g_inodes_per_group g * bytes_per_inode
    < g_data_block_count g * BLOCK_SIZE cfg + BLOCK_SIZE cfg.
Proof.
  intros Hb Hi H Hfit Hsz room.
  pose proof (blocks_per_group_range _ _ H) as Hr.
  apply block_group_calculation_inv in H
    as (total & _ & _ & _ & _ & _ & _ & _ & Hgd & _ & Hipg & Hit & Hd).
  assert (Hgd0 : 0 <= g_group_desc_block_count g).
  { rewrite Hgd. apply Z.div_pos; [apply u64_range | lia]. }
  unfold bytes_per_inode, KB in *.
  change (2 ^ 63) with 9223372036854775808 in *.
  change (2 ^ 64) with 18446744073709551616 in *.
  fold room in Hipg, Hd.
  assert (Hroom : 0 <= room) by (subst room; lia).
  rewrite (u64_small room) in Hipg by (unfold room; change (2 ^ 64) with 18446744073709551616; lia).
  rewrite (u64_small (room * BLOCK_SIZE cfg)) in Hipg
    by (change (2 ^ 64) with 18446744073709551616; unfold room; nia).
  rewrite (u64_small (2 * 1024 + INODE_SIZE cfg)) in Hipg
    by (change (2 ^ 64) with 18446744073709551616; lia).
  set (ipg := g_inodes_per_group g) in *.
  set (B := BLOCK_SIZE cfg) in *. set (I := INODE_SIZE cfg) in *.
  pose proof (Z.div_mod (room * B) (2 * 1024 + I) ltac:(lia)) as Hdm.
  pose proof (Z.mod_pos_bound (room * B) (2 * 1024 + I) ltac:(lia)) as Hm.
  rewrite <- Hipg in Hdm.
  assert (Hipg0 : 0 <= ipg) by (rewrite Hipg; apply Z.div_pos; nia).
  assert (H1 : ipg * (2 * 1024 + I) <= room * B) by nia.
  assert (H2 : ipg * I <= room * B) by nia.
  rewrite (u64_small (ipg * I)) in Hit
    by (change (2 ^ 64) with 18446744073709551616; unfold room in *; nia).
  rewrite (u64_small (ipg * I + B - 1)) in Hit
    by (change (2 ^ 64) with 18446744073709551616; unfold room in *; nia).
  pose proof (ceil_bounds (ipg * I) B ltac:(nia) Hb) as Hc.
  rewrite <- Hit in Hc.
  set (it := g_inodes_table_block_count g) in *.
  assert (H3 : it <= room) by nia.
  assert (Hit0 : 0 <= it) by (rewrite Hit; apply Z.div_pos; nia).
  assert (H4 : g_data_block_count g = room - it).
  { rewrite Hd. apply u64_small. change (2 ^ 64) with 18446744073709551616.
    unfold room in *. lia. }
  split; [exact H1|]. split; [lia|]. split; [exact H3|]. split; [exact H4|].
  rewrite H4. nia.
Qed.

Lemma block_group_calculation_inode_budget_witness :
  let room := g_blocks_per_group g17 - 3 - g_group_desc_block_count g17 in
  g_inodes_per_group g17 * (bytes_per_inode + INODE_SIZE cfg17) <= room * BLOCK_SIZE cfg17 /\
  g_inodes_per_group g17 * INODE_SIZE cfg17 <= g_inodes_table_block_count g17 * BLOCK_SIZE cfg17 /\
  g_inodes_table_block_count g17 <= room /\
  g_data_block_count g17 = room - g_inodes_table_block_count g17 /\
  g_inodes_per_group g17 * bytes_per_inode
    < g_data_block_count g17 * BLOCK_SIZE cfg17 + BLOCK_SIZE cfg17.
Proof.
  apply (block_group_calculation_inode_budget cfg17 g17);
    [reflexivity | split; [vm_compute; discriminate | reflexivity] | reflexivity
    | vm_compute; discriminate | reflexivity].
Defined.

(** ** Layout addressing *)

Lemma data_block_count_exact cfg g :
  block_group_calculation cfg = Some g -> geo_facts g ->
  g_data_block_count g = g_blocks_per_group g - metadata_blocks g.
Proof.
  intros H Hf. pose proof (blocks_per_group_range _ _ H) as Hr.
  apply block_group_calculation_inv in H
    as (total & _ & _ & _ & _ & _ & _ & _ & _ & _ & _ & _ & Hd).
  rewrite Hd. destruct Hf. unfold metadata_blocks in *.
  rewrite u64_small; lia.
Qed.

(** X7. With a geometry of the calculator whose addresses fit [unsigned],
    the regions of a full group follow each other without a gap: group 0
    starts at block 1; the superblock copy is the first block of the group,
    then come the descriptor table, the block bitmap, the inode bitmap, the
    inode table and the data blocks; the data blocks end where the next
    group starts, inside the blocks of the full groups. *)
Theorem group_regions_tile (cfg : Config) (g : Geometry) (st : Ext2m) (grp : Z) :
  0 < BLOCK_SIZE cfg ->
  block_group_calculation cfg = Some g -> geometry_fits g = true ->
  has_geometry g st -> 0 <= grp < g_full_group_count g ->
  get_group_index st 0 = 1 /\
  get_group_super_block_index st grp = get_group_index st grp /\
  get_group_group_desc_table_index st grp = get_group_super_block_index st grp + 1 /\
  get_group_block_bitmap_index st grp
    = get_group_group_desc_table_index st grp + g_group_desc_block_count g /\
  get_group_inode_bitmap_index st grp = get_group_block_bitmap_index st grp + 1 /\
  get_group_inode_table_index st grp = get_group_inode_bitmap_index st grp + 1 /\
  get_group_data_table_index st grp
    = get_group_inode_table_index st grp + g_inodes_table_block_count g /\
  get_group_data_table_index st grp + g_data_block_count g
    = get_group_index st grp + g_blocks_per_group g /\
  (grp + 1 < g_full_group_count g ->
   get_group_index st (grp + 1) = get_group_index st grp + g_blocks_per_group g) /\
  get_group_index st grp + g_blocks_per_group g
    <= 1 + g_full_group_count g * g_blocks_per_group g.
Proof.
  intros Hb Hc Hfit Hgeo Hgrp.
  assert (Hf : geo_facts g) by (eapply geometry_fits_facts; eauto).
  pose proof (data_block_count_exact cfg g Hc Hf) as Hd.
  pose proof (group_bounds g grp Hf Hgrp) as Hgb.
  rewrite (get_group_super_block_index_eq g st grp Hgeo Hf Hgrp).
  rewrite (get_group_group_desc_table_index_eq g st grp Hgeo Hf Hgrp).
  rewrite (get_group_block_bitmap_index_eq g st grp Hgeo Hf Hgrp).
  rewrite (get_group_inode_bitmap_index_eq g st grp Hgeo Hf Hgrp).
  rewrite (get_group_inode_table_index_eq g st grp Hgeo Hf Hgrp).
  rewrite (get_group_data_table_index_eq g st grp Hgeo Hf Hgrp).
  rewrite (get_group_index_eq g st grp Hgeo Hf Hgrp).
  assert (H0 : 0 <= 0 < g_full_group_count g) by (destruct Hf; lia).
  rewrite (get_group_index_eq g st 0 Hgeo Hf H0).
  unfold group_base, metadata_blocks in *.
  repeat (split; [lia|]). split; [|lia].
  intros Hn. rewrite (get_group_index_eq g st (grp + 1) Hgeo Hf) by lia.
  unfold group_base. lia.
Qed.

Lemma group_regions_tile_witness :
  get_group_index (set_geometry g17 blank17) 0 = 1 /\
  get_group_super_block_index (set_geometry g17 blank17) 1
    = get_group_index (set_geometry g17 blank17) 1 /\
  get_group_group_desc_table_index (set_geometry g17 blank17) 1
    = get_group_super_block_index (set_geometry g17 blank17) 1 + 1 /\
  get_group_block_bitmap_index (set_geometry g17 blank17) 1
    = get_group_group_desc_table_index (set_geometry g17 blank17) 1
      + g_group_desc_block_count g17 /\
  get_group_inode_bitmap_index (set_geometry g17 blank17) 1
    = get_group_block_bitmap_index (set_geometry g17 blank17) 1 + 1 /\
  get_group_inode_table_index (set_geometry g17 blank17) 1
    = get_group_inode_bitmap_index (set_geometry g17 blank17) 1 + 1 /\
  get_group_data_table_index (set_geometry g17 blank17) 1
    = get_group_inode_table_index (set_geometry g17 blank17) 1
      + g_inodes_table_block_count g17 /\
  get_group_data_table_index (set_geometry g17 blank17) 1 + g_data_block_count g17
    = get_group_index (set_geometry g17 blank17) 1 + g_blocks_per_group g17 /\
  (1 + 1 < g_full_group_count g17 ->
   get_group_index (set_geometry g17 blank17) (1 + 1)
   = get_group_index (set_geometry g17 blank17) 1 + g_blocks_per_group g17) /\
  get_group_index (set_geometry g17 blank17) 1 + g_blocks_per_group g17
    <= 1 + g_full_group_count g17 * g_blocks_per_group g17.
Proof.
  apply (group_regions_tile cfg17 g17 (set_geometry g17 blank17) 1);
    [reflexivity | reflexivity | reflexivity | repeat split
    | split; [vm_compute; discriminate | reflexivity]].
Defined.

Lemma u32_u64 x : u32 (u64 x) = u32 x.
Proof.
  unfold u32, u64, wrap. apply Z.mod_mod_divide.
  exists (2 ^ 32). reflexivity.
Qed.

Lemma get_group_index_mod st i :
  get_group_index st i = (i * blocks_per_group st + 1) mod 2 ^ 32.
Proof.
  unfold get_group_index. rewrite u32_u64. unfold u32, wrap.
  rewrite Z.add_mod by lia.
  fold (wrap 32 (u64 (i * blocks_per_group st))). fold (u32 (u64 (i * blocks_per_group st))).
  rewrite u32_u64. unfold u32, wrap. rewrite <- Z.add_mod by lia. reflexivity.
Qed.

(** X8. The layout functions return [unsigned]: two group numbers whose
    distance times [blocks_per_group] is a multiple of [2 ^ 32] get the same
    block addresses from all seven of them. *)
Theorem layout_addresses_truncate (st : Ext2m) (i k : Z) :
  (k * blocks_per_group st) mod 2 ^ 32 = 0 ->
  get_group_index st (i + k) = get_group_index st i /\
  get_group_super_block_index st (i + k) = get_group_super_block_index st i /\
  get_group_group_desc_table_index st (i + k) = get_group_group_desc_table_index st i /\
  get_group_block_bitmap_index st (i + k) = get_group_block_bitmap_index st i /\
  get_group_inode_bitmap_index st (i + k) = get_group_inode_bitmap_index st i /\
  get_group_inode_table_index st (i + k) = get_group_inode_table_index st i /\
  get_group_data_table_index st (i + k) = get_group_data_table_index st i.
Proof.
  intros Hk.
  assert (H : get_group_index st (i + k) = get_group_index st i).
  { rewrite !get_group_index_mod.
    replace ((i + k) * blocks_per_group st + 1)
      with (i * blocks_per_group st + 1 + k * blocks_per_group st) by lia.
    rewrite Z.add_mod, Hk, Z.add_0_r by lia. apply Z.mod_mod. lia. }
  unfold get_group_data_table_index, get_group_inode_table_index,
    get_group_inode_bitmap_index, get_group_block_bitmap_index,
    get_group_group_desc_table_index, get_group_super_block_index.
  rewrite H. repeat split; reflexivity.
Qed.

Lemma layout_addresses_truncate_witness :
  get_group_index (set_geometry g17 blank17) (1 + 2 ^ 19)
    = get_group_index (set_geometry g17 blank17) 1 /\
  get_group_super_block_index (set_geometry g17 blank17) (1 + 2 ^ 19)
    = get_group_super_block_index (set_geometry g17 blank17) 1 /\
  get_group_group_desc_table_index (set_geometry g17 blank17) (1 + 2 ^ 19)
    = get_group_group_desc_table_index (set_geometry g17 blank17) 1 /\
  get_group_block_bitmap_index (set_geometry g17 blank17) (1 + 2 ^ 19)
    = get_group_block_bitmap_index (set_geometry g17 blank17) 1 /\
  get_group_inode_bitmap_index (set_geometry g17 blank17) (1 + 2 ^ 19)
    = get_group_inode_bitmap_index (set_geometry g17 blank17) 1 /\
  get_group_inode_table_index (set_geometry g17 blank17) (1 + 2 ^ 19)
    = get_group_inode_table_index (set_geometry g17 blank17) 1 /\
  get_group_data_table_index (set_geometry g17 blank17) (1 + 2 ^ 19)
    = get_group_data_table_index (set_geometry g17 blank17) 1.
Proof.
  apply (layout_addresses_truncate (set_geometry g17 blank17) 1 (2 ^ 19)).
  reflexivity.
Defined.

(** ** Descriptor table copies *)

Lemma write_group_desc_table_to_group_buf cfg grp ptr st :
  _buf (write_group_desc_table_to_group cfg grp ptr st) = _buf st.
Proof.
  unfold write_group_desc_table_to_group.
  generalize 0 at 1. generalize (Z.to_nat (group_desc_block_count st)).
  intros n. revert st. induction n as [|n IH]; intros st lo; [reflexivity|].
  cbn [for_range]. rewrite IH. reflexivity.
Qed.

(** X9. [write_group_desc_table_to_group] writes a staging area of
    [group_desc_block_count] blocks into the descriptor table of the group:
    read back block after block it is the staging area; no block outside
    the table changes, and neither do [_buf] and the geometry. *)
Theorem write_group_desc_table_to_group_round_trip
    (cfg : Config) (g : Geometry) (st : Ext2m) (grp : Z) (ptr : list Z) :
  0 < BLOCK_SIZE cfg ->
  block_group_calculation cfg = Some g -> geometry_fits g = true ->
  has_geometry g st -> 0 <= grp < g_full_group_count g ->
  length ptr = (Z.to_nat (g_group_desc_block_count g) * BS cfg)%nat ->
  let st' := write_group_desc_table_to_group cfg grp ptr st in
  desc_table_on_disk st' grp = ptr /\
  (forall j,
     ~ (get_group_group_desc_table_index st grp <= j
        < get_group_group_desc_table_index st grp + g_group_desc_block_count g) ->
     blk st' j = blk st j) /\
  _buf st' = _buf st /\ same_geometry st st'.
Proof.
  intros Hb Hc Hfit Hgeo Hgrp Hlen st'.
  assert (Hf : geo_facts g) by (eapply geometry_fits_facts; eauto).
  destruct (write_group_desc_table_to_group_spec cfg g Hf grp ptr st Hgeo Hgrp)
    as (Hw & Hblocks).
  fold st' in Hw, Hblocks.
  assert (Hgeo' : has_geometry g st') by (eapply has_geometry_same; [exact Hgeo | apply Hw]).
  rewrite (get_group_group_desc_table_index_eq g st grp Hgeo Hf Hgrp).
  split; [|split; [|split]].
  - unfold desc_table_on_disk.
    rewrite (get_group_group_desc_table_index_eq g st' grp Hgeo' Hf Hgrp).
    replace (group_desc_block_count st') with (g_group_desc_block_count g)
      by (symmetry; apply Hgeo').
    etransitivity;
      [|apply (concat_chunks (BS cfg) (Z.to_nat (g_group_desc_block_count g)) ptr Hlen)].
    f_equal. apply map_ext_in. intros j [_ Hj]%in_seq.
    rewrite Hblocks by lia. rewrite Nat2Z.id. reflexivity.
  - intros j Hj. apply (proj2 Hw). exact Hj.
  - apply write_group_desc_table_to_group_buf.
  - apply Hw.
Qed.

Lemma write_group_desc_table_to_group_round_trip_witness :
  let st' := write_group_desc_table_to_group cfg17 1
               (c_string boot_sector_text ++ zeros 947) (set_geometry g17 blank17) in
  desc_table_on_disk st' 1 = c_string boot_sector_text ++ zeros 947 /\
  (forall j,
     ~ (get_group_group_desc_table_index (set_geometry g17 blank17) 1 <= j
        < get_group_group_desc_table_index (set_geometry g17 blank17) 1
          + g_group_desc_block_count g17) ->
     blk st' j = blk (set_geometry g17 blank17) j) /\
  _buf st' = _buf (set_geometry g17 blank17) /\
  same_geometry (set_geometry g17 blank17) st'.
Proof.
  apply (write_group_desc_table_to_group_round_trip cfg17 g17);
    [reflexivity | reflexivity | reflexivity | repeat split
    | split; [vm_compute; discriminate | reflexivity] | reflexivity].
Defined.

(** ** Bitmap accessors *)

Lemma bitmap_block_reload cfg bm :
  length (bm_bytes bm) = Z.to_nat ((bm_nbits bm + 7) / 8) ->
  (length (bm_bytes bm) <= BS cfg)%nat ->
  BitMap_new
    (take (BS cfg)
       (store_bytes 0 (take (length (bm_bytes bm)) (bm_bytes bm)) (zeros (BS cfg))))
    (bm_nbits bm) = bm.
Proof.
  intros Hlen Hle. rewrite firstn_all.
  rewrite (firstn_all2 (n := BS cfg)) by (rewrite length_store_bytes, length_zeros; lia).
  unfold BitMap_new. rewrite <- Hlen.
  rewrite take_store_bytes_zeros by lia. destruct bm; reflexivity.
Qed.

Lemma store_bytes_zeros_app bytes m :
  (length bytes <= m)%nat ->
  store_bytes 0 bytes (zeros m) = bytes ++ zeros (m - length bytes).
Proof.
  intros H. unfold store_bytes, zeros.
  replace m with (length bytes + (m - length bytes))%nat at 1 by lia.
  rewrite replicate_add. apply list_inserts_0_r. rewrite length_replicate. reflexivity.
Qed.

Lemma u32_succ_neq x : u32 (u32 x + 1) <> u32 x.
Proof.
  unfold u32, wrap.
  pose proof (Z.mod_pos_bound x (2 ^ 32) ltac:(lia)) as Hx.
  set (y := x mod 2 ^ 32) in *.
  destruct (Z.eq_dec (y + 1) (2 ^ 32)) as [E|E].
  - rewrite E, Z.mod_same by lia. lia.
  - rewrite Z.mod_small by lia. lia.
Qed.

Lemma block_inode_bitmap_index_neq st grp :
  get_group_inode_bitmap_index st grp <> get_group_block_bitmap_index st grp.
Proof. unfold get_group_inode_bitmap_index, get_group_block_bitmap_index. apply u32_succ_neq. Qed.

(** X10. [write_group_block_bitmap] and then [get_group_block_bitmap] give
    back the bitmap that was written, for a bitmap of [blocks_per_group]
    bits whose bytes fit a block. The block written is the bitmap's bytes
    followed by zeros; no other block changes, so the inode bitmap of the
    group reads as before. *)
Theorem write_group_block_bitmap_round_trip
    (cfg : Config) (st : Ext2m) (grp : Z) (bm : BitMap) :
  bm_nbits bm = blocks_per_group st ->
  length (bm_bytes bm) = Z.to_nat ((bm_nbits bm + 7) / 8) ->
  (length (bm_bytes bm) <= BS cfg)%nat ->
  let st' := write_group_block_bitmap cfg grp bm st in
  fst (get_group_block_bitmap grp st') = bm /\
  blk st' (get_group_block_bitmap_index st grp)
    = bm_bytes bm ++ zeros (BS cfg - length (bm_bytes bm)) /\
  (forall j, j <> get_group_block_bitmap_index st grp -> blk st' j = blk st j) /\
  fst (get_group_inode_bitmap grp st') = fst (get_group_inode_bitmap grp st) /\
  same_geometry st st'.
Proof.
  intros Hn Hlen Hle st'. subst st'.
  unfold write_group_block_bitmap, bm_data.
  set (s1 := with_buf _ (with_buf (zeros (BS cfg)) st)).
  change (get_group_block_bitmap_index s1 grp) with (get_group_block_bitmap_index st grp).
  set (bb := get_group_block_bitmap_index st grp).
  set (st' := write_block cfg bb (_buf s1) s1).
  assert (Hbb : blk st' bb
     = take (BS cfg)
         (store_bytes 0 (take (length (bm_bytes bm)) (bm_bytes bm)) (zeros (BS cfg))))
    by apply blk_write_block_same.
  split; [|split; [|split; [|split]]].
  - unfold get_group_block_bitmap. cbn [fst].
    change (get_group_block_bitmap_index st' grp) with bb.
    change (_buf (read_block bb st')) with (blk st' bb).
    change (blocks_per_group (read_block bb st')) with (blocks_per_group st).
    rewrite Hbb, <- Hn. apply bitmap_block_reload; assumption.
  - rewrite Hbb, firstn_all.
    rewrite firstn_all2 by (rewrite length_store_bytes, length_zeros; lia).
    apply store_bytes_zeros_app. exact Hle.
  - intros j Hj. unfold blk, st'. rewrite blocks_write_block_other by exact Hj. reflexivity.
  - unfold get_group_inode_bitmap. cbn [fst].
    change (get_group_inode_bitmap_index st' grp) with (get_group_inode_bitmap_index st grp).
    change (_buf (read_block ?i ?s)) with (blk s i).
    change (inodes_per_group (read_block ?i st')) with (inodes_per_group st).
    change (inodes_per_group (read_block ?i st)) with (inodes_per_group st).
    f_equal. unfold blk, st'.
    rewrite blocks_write_block_other by apply block_inode_bitmap_index_neq. reflexivity.
  - repeat split.
Qed.

Lemma write_group_block_bitmap_round_trip_witness :
  let bm := bm_set (BitMap_new (zeros 2) 16) 5 in
  let st' := write_group_block_bitmap cfg17 1 bm small_blank in
  fst (get_group_block_bitmap 1 st') = bm /\
  blk st' (get_group_block_bitmap_index small_blank 1)
    = bm_bytes bm ++ zeros (BS cfg17 - length (bm_bytes bm)) /\
  (forall j, j <> get_group_block_bitmap_index small_blank 1 ->
     blk st' j = blk small_blank j) /\
  fst (get_group_inode_bitmap 1 st') = fst (get_group_inode_bitmap 1 small_blank) /\
  same_geometry small_blank st'.
Proof.
  apply (write_group_block_bitmap_round_trip cfg17 small_blank 1
           (bm_set (BitMap_new (zeros 2) 16) 5));
    [reflexivity | reflexivity | vm_compute; lia].
Defined.

(** X11. [write_group_inode_bitmap] and then [get_group_inode_bitmap] give
    back the bitmap that was written, for a bitmap of [inodes_per_group]
    bits whose bytes fit a block. The block written is the bitmap's bytes
    followed by zeros; no other block changes, so the block bitmap of the
    group reads as before. *)
Theorem write_group_inode_bitmap_round_trip
    (cfg : Config) (st : Ext2m) (grp : Z) (bm : BitMap) :
  bm_nbits bm = inodes_per_group st ->
  length (bm_bytes bm) = Z.to_nat ((bm_nbits bm + 7) / 8) ->
  (length (bm_bytes bm) <= BS cfg)%nat ->
  let st' := write_group_inode_bitmap cfg grp bm st in
  fst (get_group_inode_bitmap grp st') = bm /\
  blk st' (get_group_inode_bitmap_index st grp)
    = bm_bytes bm ++ zeros (BS cfg - length (bm_bytes bm)) /\
  (forall j, j <> get_group_inode_bitmap_index st grp -> blk st' j = blk st j) /\
  fst (get_group_block_bitmap grp st') = fst (get_group_block_bitmap grp st) /\
  same_geometry st st'.
Proof.
  intros Hn Hlen Hle st'. subst st'.
  unfold write_group_inode_bitmap, bm_data.
  set (s1 := with_buf _ (with_buf (zeros (BS cfg)) st)).
  change (get_group_inode_bitmap_index s1 grp) with (get_group_inode_bitmap_index st grp).
  set (ib := get_group_inode_bitmap_index st grp).
  set (st' := write_block cfg ib (_buf s1) s1).
  assert (Hib : blk st' ib
     = take (BS cfg)
         (store_bytes 0 (take (length (bm_bytes bm)) (bm_bytes bm)) (zeros (BS cfg))))
    by apply blk_write_block_same.
  split; [|split; [|split; [|split]]].
  - unfold get_group_inode_bitmap. cbn [fst].
    change (get_group_inode_bitmap_index st' grp) with ib.
    change (_buf (read_block ib st')) with (blk st' ib).
    change (inodes_per_group (read_block ib st')) with (inodes_per_group st).
    rewrite Hib, <- Hn. apply bitmap_block_reload; assumption.
  - rewrite Hib, firstn_all.
    rewrite firstn_all2 by (rewrite length_store_bytes, length_zeros; lia).
    apply store_bytes_zeros_app. exact Hle.
  - intros j Hj. unfold blk, st'. rewrite blocks_write_block_other by exact Hj. reflexivity.
  - unfold get_group_block_bitmap. cbn [fst].
    change (get_group_block_bitmap_index st' grp) with (get_group_block_bitmap_index st grp).
    change (_buf (read_block ?i ?s)) with (blk s i).
    change (blocks_per_group (read_block ?i st')) with (blocks_per_group st).
    change (blocks_per_group (read_block ?i st)) with (blocks_per_group st).
    f_equal. unfold blk, st'.
    rewrite blocks_write_block_other; [reflexivity|].
    intros E. apply (block_inode_bitmap_index_neq st grp). symmetry. exact E.
  - repeat split.
Qed.

Lemma write_group_inode_bitmap_round_trip_witness :
  let bm := bm_set (BitMap_new (zeros 1) 8) 2 in
  let st' := write_group_inode_bitmap cfg17 0 bm small_blank in
  fst (get_group_inode_bitmap 0 st') = bm /\
  blk st' (get_group_inode_bitmap_index small_blank 0)
    = bm_bytes bm ++ zeros (BS cfg17 - length (bm_bytes bm)) /\
  (forall j, j <> get_group_inode_bitmap_index small_blank 0 ->
     blk st' j = blk small_blank j) /\
  fst (get_group_block_bitmap 0 st') = fst (get_group_block_bitmap 0 small_blank) /\
  same_geometry small_blank st'.
Proof.
  apply (write_group_inode_bitmap_round_trip cfg17 small_blank 0
           (bm_set (BitMap_new (zeros 1) 8) 2));
    [reflexivity | reflexivity | vm_compute; lia].
Defined.

(** ** Inode accessors *)

Lemma load_bytes_store_bytes_same off bs buf :
  (off + length bs <= length buf)%nat ->
  load_bytes off (length bs) (store_bytes off bs buf) = bs.
Proof.
  intros H. unfold load_bytes, store_bytes. apply list_eq. intros i.
  rewrite lookup_take, lookup_drop.
  destruct (decide (i < length bs)%nat) as [Hi|Hi].
  - rewrite list_lookup_inserts by lia. f_equal. lia.
  - symmetry. apply lookup_ge_None_2. lia.
Qed.

Lemma load_bytes_store_bytes_other off n off' bs buf :
  (off + n <= off' \/ off' + length bs <= off)%nat ->
  load_bytes off n (store_bytes off' bs buf) = load_bytes off n buf.
Proof.
  intros H. unfold load_bytes, store_bytes. apply list_eq. intros i.
  rewrite !lookup_take, !lookup_drop.
  destruct (decide (i < n)%nat) as [Hi|Hi]; [|reflexivity].
  destruct H as [H|H].
  - apply list_lookup_inserts_lt. lia.
  - apply list_lookup_inserts_ge. lia.
Qed.


Lemma inode_offset_fits cfg st k :
  0 < inodes_per_group st -> inode_reachable cfg st k ->
  (inode_offset st k + INO.size <= BS cfg)%nat.
Proof.
  intros Hipg (Hk & _ & Hfit). unfold inode_offset, BS.
  pose proof (Z.mod_pos_bound (k - 1) (inodes_per_group st) Hipg).
  unfold INO.size in *. lia.
Qed.

Lemma get_inode_ok cfg k st :
  0 < inodes_per_group st -> k < 2 ^ 64 -> inode_reachable cfg st k ->
  get_inode cfg k st
  = Ok (load_bytes (inode_offset st k) INO.size (blk st (inode_block st k)),
        read_block (inode_block st k) st).
Proof.
  intros Hipg Hk Hr. pose proof (inode_offset_fits cfg st k Hipg Hr) as Hfit.
  destruct Hr as (Hk1 & Hgrp & _).
  unfold get_inode. destruct (Z.leb_spec 1 k) as [_|]; [|lia]. cbn [negb].
  rewrite (u64_small (k - 1)) by lia.
  rewrite udiv_ok by lia.
  destruct (Z.eqb_spec (inodes_per_group st) 0) as [|_]; [lia|].
  destruct (Z.ltb_spec ((k - 1) / inodes_per_group st) (full_group_count st)) as [_|]; [|lia].
  cbn [negb].
  unfold inode_offset in Hfit. unfold inode_block, inode_offset.
  destruct (Nat.leb_spec (Z.to_nat ((k - 1) mod inodes_per_group st) * INO.size + INO.size)
              (BS cfg)) as [_|]; [|lia].
  reflexivity.
Qed.

Lemma write_inode_ok cfg k inode st :
  0 < inodes_per_group st -> k < 2 ^ 64 -> inode_reachable cfg st k ->
  write_inode cfg k inode st
  = Ok (write_block cfg (inode_block st k)
          (store_bytes (inode_offset st k) (take INO.size inode) (blk st (inode_block st k)))
          (with_buf
             (store_bytes (inode_offset st k) (take INO.size inode)
                (blk st (inode_block st k)))
             (read_block (inode_block st k) st))).
Proof.
  intros Hipg Hk Hr. pose proof (inode_offset_fits cfg st k Hipg Hr) as Hfit.
  destruct Hr as (Hk1 & Hgrp & _).
  unfold write_inode. destruct (Z.leb_spec 1 k) as [_|]; [|lia]. cbn [negb].
  rewrite (u64_small (k - 1)) by lia.
  rewrite udiv_ok by lia.
  destruct (Z.eqb_spec (inodes_per_group st) 0) as [|_]; [lia|].
  destruct (Z.ltb_spec ((k - 1) / inodes_per_group st) (full_group_count st)) as [_|]; [|lia].
  cbn [negb].
  unfold inode_offset in Hfit. unfold inode_block, inode_offset.
  destruct (Nat.leb_spec (Z.to_nat ((k - 1) mod inodes_per_group st) * INO.size + INO.size)
              (BS cfg)) as [_|]; [|lia].
  reflexivity.
Qed.

Lemma classic_reachable cfg st k :
  inode_reachable cfg st k \/ ~ inode_reachable cfg st k.
Proof.
  unfold inode_reachable.
  destruct (Z_le_dec 1 k); [|right; tauto].
  destruct (Z_lt_dec ((k - 1) / inodes_per_group st) (full_group_count st));
    [|right; tauto].
  destruct (Z_le_dec (((k - 1) mod inodes_per_group st + 1) * Z.of_nat INO.size)
              (BLOCK_SIZE cfg)); [left; tauto | right; tauto].
Qed.

(** X12. [get_inode] and [write_inode] return exactly for the inode numbers
    whose record lies in the first block of the inode table of a full
    group: [k >= 1], the group [(k - 1) / inodes_per_group] is a full
    group, and [((k - 1) mod inodes_per_group + 1) * sizeof(ext2_inode) <=
    BLOCK_SIZE]. *)
Theorem get_inode_defined_iff (cfg : Config) (st : Ext2m) (k : Z) (inode : list Z) :
  0 < inodes_per_group st -> k < 2 ^ 64 ->
  ((exists r st', get_inode cfg k st = Ok (r, st')) <-> inode_reachable cfg st k) /\
  ((exists st', write_inode cfg k inode st = Ok st') <-> inode_reachable cfg st k).
Proof.
  intros Hipg Hk.
  assert (Hiff : forall A (r : res A),
     (r = AssertFail \/ r = Undefined) -> ~ exists a, r = Ok a).
  { intros A r [-> | ->] [a Ha]; discriminate. }
  assert (Hnot : ~ inode_reachable cfg st k ->
     (get_inode cfg k st = AssertFail \/ get_inode cfg k st = Undefined) /\
     (write_inode cfg k inode st = AssertFail \/ write_inode cfg k inode st = Undefined)).
  { intros Hn. unfold get_inode, write_inode.
    destruct (Z.leb_spec 1 k) as [Hk1|Hk1]; cbn [negb]; [|auto].
    rewrite (u64_small (k - 1)) by lia. rewrite udiv_ok by lia.
    destruct (Z.eqb_spec (inodes_per_group st) 0) as [|_]; [lia|].
    destruct (Z.ltb_spec ((k - 1) / inodes_per_group st) (full_group_count st))
      as [Hg|Hg]; cbn [negb]; [|auto].
    destruct (Nat.leb_spec
                (Z.to_nat ((k - 1) mod inodes_per_group st) * INO.size + INO.size)
                (BS cfg)) as [Hfit|Hfit]; [|auto].
    exfalso. apply Hn. split; [exact Hk1|]. split; [exact Hg|].
    pose proof (Z.mod_pos_bound (k - 1) (inodes_per_group st) Hipg).
    unfold BS, INO.size in *. lia. }
  split; split.
  - intros (r & st' & H).
    destruct (classic_reachable cfg st k) as [Hr|Hr]; [exact Hr|].
    exfalso. apply (Hiff _ (get_inode cfg k st) (proj1 (Hnot Hr))).
    exists (r, st'). exact H.
  - intros Hr. rewrite (get_inode_ok cfg k st Hipg Hk Hr). eauto.
  - intros (st' & H).
    destruct (classic_reachable cfg st k) as [Hr|Hr]; [exact Hr|].
    exfalso. apply (Hiff _ (write_inode cfg k inode st) (proj2 (Hnot Hr))).
    exists st'. exact H.
  - intros Hr. rewrite (write_inode_ok cfg k inode st Hipg Hk Hr). eauto.
Qed.

Lemma get_inode_defined_iff_witness :
  ((exists r st', get_inode cfg17 10 (set_geometry g17 blank17) = Ok (r, st'))
   <-> inode_reachable cfg17 (set_geometry g17 blank17) 10) /\
  ((exists st', write_inode cfg17 10 (zeros INO.size) (set_geometry g17 blank17) = Ok st')
   <-> inode_reachable cfg17 (set_geometry g17 blank17) 10).
Proof.
  apply (get_inode_defined_iff cfg17 (set_geometry g17 blank17) 10 (zeros INO.size));
    reflexivity.
Defined.

Lemma write_inode_effect cfg k inode st :
  0 < inodes_per_group st -> k < 2 ^ 64 -> inode_reachable cfg st k ->
  length inode = INO.size ->
  length (blk st (inode_block st k)) = BS cfg ->
  exists st1,
    write_inode cfg k inode st = Ok st1 /\
    same_geometry st st1 /\
    blk st1 (inode_block st k)
      = store_bytes (inode_offset st k) inode (blk st (inode_block st k)) /\
    (forall j, j <> inode_block st k -> blk st1 j = blk st j) /\
    io_log (_disk st1)
      = EvWrite (inode_block st k) :: EvRead (inode_block st k) :: io_log (_disk st).
Proof.
  intros Hipg Hk Hr Hlen Hblk.
  rewrite (write_inode_ok cfg k inode st Hipg Hk Hr).
  eexists. split; [reflexivity|].
  rewrite <- Hlen, firstn_all.
  split; [repeat split|]. split; [|split].
  - rewrite blk_write_block_same. apply firstn_all2.
    rewrite length_store_bytes. lia.
  - intros j Hj. unfold blk. rewrite blocks_write_block_other by exact Hj. reflexivity.
  - reflexivity.
Qed.

(** X13. [write_inode] and then [get_inode] of the same reachable inode
    number give back the record that was written. [write_inode] reads and
    writes the one block [inode_block], and no other block of the device
    changes. *)
Theorem write_inode_get_inode (cfg : Config) (st : Ext2m) (k : Z) (inode : list Z) :
  0 < inodes_per_group st -> k < 2 ^ 64 -> inode_reachable cfg st k ->
  length inode = INO.size ->
  length (blk st (inode_block st k)) = BS cfg ->
  exists st1 st2,
    write_inode cfg k inode st = Ok st1 /\
    get_inode cfg k st1 = Ok (inode, st2) /\
    (forall j, j <> inode_block st k -> blk st1 j = blk st j) /\
    io_log (_disk st1)
      = EvWrite (inode_block st k) :: EvRead (inode_block st k) :: io_log (_disk st).
Proof.
  intros Hipg Hk Hr Hlen Hblk.
  destruct (write_inode_effect cfg k inode st Hipg Hk Hr Hlen Hblk)
    as (st1 & Hw & Hgeo & Hb & Hother & Hlog).
  exists st1. eexists. split; [exact Hw|].
  destruct Hgeo as (Hfgc & _ & Hipg1 & _).
  assert (Hr1 : inode_reachable cfg st1 k).
  { unfold inode_reachable. rewrite Hfgc, Hipg1. exact Hr. }
  assert (Hib : inode_block st1 k = inode_block st k).
  { unfold inode_block. rewrite Hipg1.
    apply write_inode_ok with (inode := inode) in Hr as Hw'; [|assumption..].
    rewrite Hw' in Hw. injection Hw as <-. reflexivity. }
  assert (Hio : inode_offset st1 k = inode_offset st k)
    by (unfold inode_offset; rewrite Hipg1; reflexivity).
  split; [|split; [exact Hother | exact Hlog]].
  rewrite (get_inode_ok cfg k st1) by (rewrite ?Hipg1; assumption).
  rewrite Hib, Hio, Hb. f_equal. f_equal.
  rewrite <- Hlen. apply load_bytes_store_bytes_same.
  pose proof (inode_offset_fits cfg st k Hipg Hr). lia.
Qed.

Lemma write_inode_get_inode_witness :
  exists st1 st2,
    write_inode cfg17 3 (build_root_inode env0) (set_geometry g17 blank17) = Ok st1 /\
    get_inode cfg17 3 st1 = Ok (build_root_inode env0, st2) /\
    (forall j, j <> inode_block (set_geometry g17 blank17) 3 ->
       blk st1 j = blk (set_geometry g17 blank17) j) /\
    io_log (_disk st1)
      = EvWrite (inode_block (set_geometry g17 blank17) 3)
        :: EvRead (inode_block (set_geometry g17 blank17) 3)
        :: io_log (_disk (set_geometry g17 blank17)).
Proof.
  apply (write_inode_get_inode cfg17 (set_geometry g17 blank17) 3 (build_root_inode env0));
    [reflexivity | reflexivity
    | split; [vm_compute; discriminate
             | split; [reflexivity | vm_compute; discriminate]]
    | reflexivity | reflexivity].
Defined.

(** X14. [write_inode] leaves every other reachable inode as it was:
    [get_inode] of an inode number [k' <> k] returns the same record before
    and after [write_inode k], when [k'] is in the group of [k] or in a
    group whose inode table starts at another block. *)
Theorem write_inode_other_inode (cfg : Config) (st : Ext2m) (k k' : Z) (inode : list Z) :
  0 < inodes_per_group st -> k < 2 ^ 64 -> k' < 2 ^ 64 ->
  inode_reachable cfg st k -> inode_reachable cfg st k' -> k' <> k ->
  length inode = INO.size ->
  length (blk st (inode_block st k)) = BS cfg ->
  (k' - 1) / inodes_per_group st = (k - 1) / inodes_per_group st \/
  inode_block st k' <> inode_block st k ->
  exists st1 r s s',
    write_inode cfg k inode st = Ok st1 /\
    get_inode cfg k' st = Ok (r, s) /\
    get_inode cfg k' st1 = Ok (r, s').
Proof.
  intros Hipg Hk Hk' Hr Hr' Hne Hlen Hblk Hcase.
  destruct (write_inode_effect cfg k inode st Hipg Hk Hr Hlen Hblk)
    as (st1 & Hw & Hgeo & Hb & Hother & _).
  destruct Hgeo as (Hfgc & _ & Hipg1 & _).
  assert (Hr1 : inode_reachable cfg st1 k').
  { unfold inode_reachable. rewrite Hfgc, Hipg1. exact Hr'. }
  assert (Hib : inode_block st1 k' = inode_block st k').
  { unfold inode_block. rewrite Hipg1.
    apply write_inode_ok with (inode := inode) in Hr as Hw'; [|assumption..].
    rewrite Hw' in Hw. injection Hw as <-. reflexivity. }
  assert (Hio : inode_offset st1 k' = inode_offset st k')
    by (unfold inode_offset; rewrite Hipg1; reflexivity).
  exists st1. do 3 eexists. split; [exact Hw|].
  split; [apply get_inode_ok; assumption|].
  rewrite (get_inode_ok cfg k' st1) by (rewrite ?Hipg1; assumption).
  rewrite Hib, Hio. f_equal. f_equal.
  destruct (Z.eq_dec (inode_block st k') (inode_block st k)) as [E|E].
  - rewrite E, Hb. apply load_bytes_store_bytes_other.
    destruct Hcase as [Hg|Hg]; [|contradiction].
    assert (Hm : (k' - 1) mod inodes_per_group st <> (k - 1) mod inodes_per_group st).
    { intros Hm.
      pose proof (Z.div_mod (k - 1) (inodes_per_group st) ltac:(lia)).
      pose proof (Z.div_mod (k' - 1) (inodes_per_group st) ltac:(lia)).
      apply Hne. nia. }
    pose proof (Z.mod_pos_bound (k - 1) (inodes_per_group st) Hipg).
    pose proof (Z.mod_pos_bound (k' - 1) (inodes_per_group st) Hipg).
    unfold inode_offset. rewrite Hlen. unfold INO.size. lia.
  - rewrite Hother by exact E. reflexivity.
Qed.

Lemma write_inode_other_inode_witness :
  exists st1 r s s',
    write_inode cfg17 3 (build_root_inode env0) (set_geometry g17 blank17) = Ok st1 /\
    get_inode cfg17 2 (set_geometry g17 blank17) = Ok (r, s) /\
    get_inode cfg17 2 st1 = Ok (r, s').
Proof.
  apply (write_inode_other_inode cfg17 (set_geometry g17 blank17) 3 2
           (build_root_inode env0));
    [reflexivity | reflexivity | reflexivity
    | split; [vm_compute; discriminate
             | split; [reflexivity | vm_compute; discriminate]]
    | split; [vm_compute; discriminate
             | split; [reflexivity | vm_compute; discriminate]]
    | discriminate | reflexivity | reflexivity | left; reflexivity].
Defined.


(** ** The allocator never writes *)

Lemma alloc_loop_only_reads fuel gid :
  forall i ret count seen st ret' seen' st',
    alloc_loop fuel gid i ret count seen st = Ok (ret', seen', st') ->
    only_reads st st'.
Proof.
  induction fuel as [|fuel IH]; intros i ret count seen st ret' seen' st';
    cbn [alloc_loop]; [discriminate|].
  destruct (full_group_count st =? 0); [discriminate|].
  destruct (u64 (i + 1) mod full_group_count st =? gid).
  { intros [= <- <- <-]. apply only_reads_refl. }
  unfold get_group_block_bitmap.
  set (st1 := read_block _ st).
  destruct (scan_group _ _ _ _ _ _) as [bm r|bm r c|]; [| |discriminate].
  - intros [= <- <- <-]. apply only_reads_read_block.
  - intros H%IH. eapply only_reads_trans; [apply only_reads_read_block | exact H].
Qed.

Lemma same_device_read_block i st1 st2 :
  same_device st1 st2 ->
  same_device (read_block i st1) (read_block i st2) /\
  _buf (read_block i st2) = _buf (read_block i st1).
Proof.
  intros (Hg & Hb). split; [split; [exact Hg | exact Hb]|]. apply Hb.
Qed.

Lemma same_device_get_group_index st1 st2 i :
  same_device st1 st2 -> get_group_index st2 i = get_group_index st1 i.
Proof. intros ((_ & Hb & _) & _). unfold get_group_index. rewrite Hb. reflexivity. Qed.

Lemma same_device_block_bitmap_index st1 st2 i :
  same_device st1 st2 ->
  get_group_block_bitmap_index st2 i = get_group_block_bitmap_index st1 i.
Proof.
  intros H. pose proof (same_device_get_group_index st1 st2 i H) as Hi.
  destruct H as ((_ & _ & _ & Hd & _) & _).
  unfold get_group_block_bitmap_index, get_group_group_desc_table_index.
  rewrite Hi, Hd. reflexivity.
Qed.

Lemma same_device_block_bitmap st1 st2 i :
  same_device st1 st2 ->
  fst (get_group_block_bitmap i st2) = fst (get_group_block_bitmap i st1) /\
  same_device (snd (get_group_block_bitmap i st1)) (snd (get_group_block_bitmap i st2)).
Proof.
  intros H. unfold get_group_block_bitmap. cbn [fst snd].
  rewrite (same_device_block_bitmap_index st1 st2 i H).
  destruct (same_device_read_block (get_group_block_bitmap_index st1 i) st1 st2 H)
    as (Hd & Hbuf).
  split; [|exact Hd]. rewrite Hbuf.
  change (blocks_per_group (read_block ?j ?s)) with (blocks_per_group s).
  destruct H as ((_ & -> & _) & _). reflexivity.
Qed.

Lemma alloc_loop_same_device fuel gid :
  forall i ret count seen st1 st2 ret' seen' st1',
    same_device st1 st2 ->
    alloc_loop fuel gid i ret count seen st1 = Ok (ret', seen', st1') ->
    exists st2',
      alloc_loop fuel gid i ret count seen st2 = Ok (ret', seen', st2') /\
      same_device st1' st2'.
Proof.
  induction fuel as [|fuel IH]; intros i ret count seen st1 st2 ret' seen' st1' Hsd;
    cbn [alloc_loop]; [discriminate|].
  assert (Hfgc : full_group_count st2 = full_group_count st1) by apply Hsd.
  rewrite Hfgc.
  destruct (full_group_count st1 =? 0); [discriminate|].
  destruct (u64 (i + 1) mod full_group_count st1 =? gid).
  { intros [= <- <- <-]. exists st2. split; [reflexivity | exact Hsd]. }
  rewrite (same_device_get_group_index st1 st2 i Hsd).
  destruct (same_device_block_bitmap st1 st2 i Hsd) as (Hbm & Hsd').
  destruct (get_group_block_bitmap i st1) as [bm1 t1].
  destruct (get_group_block_bitmap i st2) as [bm2 t2].
  cbn [fst snd] in Hbm, Hsd'. subst bm2.
  destruct (scan_group _ _ _ _ _ _) as [bm r|bm r c|]; [| |discriminate].
  - intros [= <- <- <-]. exists t2. split; [reflexivity | exact Hsd'].
  - intros H. eapply IH; eassumption.
Qed.

Lemma only_reads_same_device st st' : only_reads st st' -> same_device st st'.
Proof. intros (Hg & Hb & _). split; assumption. Qed.

(** X15. [get_free_block_indexes] records nothing: whatever it returns, the
    device was only read, every group's block bitmap on the device is as
    before, and the same call on the object it leaves returns the same
    addresses again. *)
Theorem get_free_block_indexes_not_recorded
    (st st' : Ext2m) (fuel : nat) (group_id count : Z) (ret : list Z) :
  get_free_block_indexes fuel group_id count st = Ok (ret, st') ->
  only_reads st st' /\
  (forall grp,
     fst (get_group_block_bitmap grp st') = fst (get_group_block_bitmap grp st)) /\
  exists st'', get_free_block_indexes fuel group_id count st' = Ok (ret, st'').
Proof.
  unfold get_free_block_indexes, get_free_block_indexes_seen.
  destruct (alloc_loop fuel group_id group_id [] count [] st)
    as [[[r seen] s]| | |] eqn:E; try discriminate.
  intros [= -> ->].
  pose proof (alloc_loop_only_reads _ _ _ _ _ _ _ _ _ _ E) as Hr.
  pose proof (only_reads_same_device _ _ Hr) as Hsd.
  split; [exact Hr|]. split.
  - intros grp. apply same_device_block_bitmap. exact Hsd.
  - destruct (alloc_loop_same_device _ _ _ _ _ _ _ _ _ _ _ Hsd E) as (st'' & -> & _).
    exists st''. reflexivity.
Qed.

Lemma get_free_block_indexes_not_recorded_witness :
  only_reads small_blank (read_block 3 small_blank) /\
  (forall grp,
     fst (get_group_block_bitmap grp (read_block 3 small_blank))
     = fst (get_group_block_bitmap grp small_blank)) /\
  exists st'',
    get_free_block_indexes 2 0 3 (read_block 3 small_blank) = Ok ([1; 2; 3], st'').
Proof.
  apply (get_free_block_indexes_not_recorded small_blank (read_block 3 small_blank) 2 0 3).
  reflexivity.
Defined.

(** ** The groups the allocator looks at *)

Lemma alloc_loop_visits fuel gid :
  forall i ret count seen st ret' seen' st',
    0 <= i < full_group_count st -> full_group_count st < 2 ^ 64 ->
    alloc_loop fuel gid i ret count seen st = Ok (ret', seen', st') ->
    exists vis,
      Forall (fun grp => 0 <= grp < full_group_count st /\
                         (grp + 1) mod full_group_count st <> gid) vis /\
      io_log (_disk st')
      = rev (map (fun grp => EvRead (get_group_block_bitmap_index st grp)) vis)
        ++ io_log (_disk st).
Proof.
  induction fuel as [|fuel IH]; intros i ret count seen st ret' seen' st' Hi Hn;
    cbn [alloc_loop]; [discriminate|].
  destruct (Z.eqb_spec (full_group_count st) 0) as [|_]; [discriminate|].
  rewrite (u64_small (i + 1)) by lia.
  destruct (Z.eqb_spec ((i + 1) mod full_group_count st) gid) as [|Hne].
  { intros [= <- <- <-]. exists []. split; [constructor | reflexivity]. }
  unfold get_group_block_bitmap.
  set (st1 := read_block _ st).
  destruct (scan_group _ _ _ _ _ _) as [bm r|bm r c|]; [| |discriminate].
  - intros [= <- <- <-]. exists [i]. split; [repeat constructor; lia | reflexivity].
  - intros H. apply IH in H as (vis & Hvis & Hlog);
      [|change (full_group_count st1) with (full_group_count st);
        apply Z.mod_pos_bound; lia
       |exact Hn].
    exists (i :: vis). split; [constructor; [split; [exact Hi | exact Hne] | exact Hvis]|].
    rewrite Hlog. cbn [map rev]. rewrite <- app_assoc. reflexivity.
Qed.

(** X16. [get_free_block_indexes] never looks at the group before
    [group_id] (cyclically, [pred] with [(pred + 1) mod full_group_count =
    group_id]): whatever it returns, the block bitmap of that group is not
    among the blocks it read. *)
Theorem get_free_block_indexes_skips_predecessor
    (cfg : Config) (g : Geometry) (st st' : Ext2m) (fuel : nat)
    (group_id count : Z) (ret : list Z) :
  0 < BLOCK_SIZE cfg ->
  block_group_calculation cfg = Some g -> geometry_fits g = true ->
  has_geometry g st -> 0 <= group_id < g_full_group_count g ->
  get_free_block_indexes fuel group_id count st = Ok (ret, st') ->
  let pred := (group_id + g_full_group_count g - 1) mod g_full_group_count g in
  0 <= pred < g_full_group_count g /\
  (pred + 1) mod g_full_group_count g = group_id /\
  exists evs,
    io_log (_disk st') = evs ++ io_log (_disk st) /\
    ~ In (EvRead (get_group_block_bitmap_index st pred)) evs.
Proof.
  intros Hb Hc Hfit Hgeo Hgid Halloc pred.
  assert (Hf : geo_facts g) by (eapply geometry_fits_facts; eauto).
  assert (Hn : 0 < g_full_group_count g) by (destruct Hf; lia).
  assert (Hfgc : full_group_count st = g_full_group_count g) by apply Hgeo.
  assert (Hp : 0 <= pred < g_full_group_count g) by (apply Z.mod_pos_bound; exact Hn).
  assert (Hp1 : (pred + 1) mod g_full_group_count g = group_id).
  { unfold pred. rewrite Zplus_mod_idemp_l.
    replace (group_id + g_full_group_count g - 1 + 1)
      with (group_id + 1 * g_full_group_count g) by lia.
    rewrite Z.mod_add by lia. apply Z.mod_small. exact Hgid. }
  split; [exact Hp|]. split; [exact Hp1|].
  unfold get_free_block_indexes, get_free_block_indexes_seen in Halloc.
  destruct (alloc_loop fuel group_id group_id [] count [] st)
    as [[[r seen] s]| | |] eqn:E; try discriminate.
  injection Halloc as -> ->.
  apply alloc_loop_visits in E as (vis & Hvis & Hlog);
    [|rewrite Hfgc; exact Hgid
     |rewrite Hfgc; destruct Hf; change (2 ^ 64) with 18446744073709551616;
      change (2 ^ 32) with 4294967296 in *; nia].
  eexists. split; [exact Hlog|].
  rewrite <- in_rev, in_map_iff. intros (grp & Heq & Hin).
  rewrite List.Forall_forall in Hvis. apply Hvis in Hin as (Hgrp & Hne).
  rewrite Hfgc in Hgrp, Hne.
  injection Heq as Heq.
  rewrite (get_group_block_bitmap_index_eq g st grp Hgeo Hf Hgrp) in Heq.
  rewrite (get_group_block_bitmap_index_eq g st pred Hgeo Hf Hp) in Heq.
  assert (Heqg : grp = pred).
  { destruct (group_offset_unique g grp pred (1 + g_group_desc_block_count g)
                (1 + g_group_desc_block_count g) Hf) as [E _];
      [destruct Hf; unfold metadata_blocks in *; lia ..|exact E]. }
  subst grp. contradiction.
Qed.

Lemma get_free_block_indexes_skips_predecessor_witness :
  let pred := (1 + g_full_group_count g17 - 1) mod g_full_group_count g17 in
  0 <= pred < g_full_group_count g17 /\
  (pred + 1) mod g_full_group_count g17 = 1 /\
  exists evs,
    io_log (_disk (read_block 8195 (set_geometry g17 blank17)))
    = evs ++ io_log (_disk (set_geometry g17 blank17)) /\
    ~ In (EvRead (get_group_block_bitmap_index (set_geometry g17 blank17) pred)) evs.
Proof.
  apply (get_free_block_indexes_skips_predecessor cfg17 g17 (set_geometry g17 blank17)
           (read_block 8195 (set_geometry g17 blank17)) 2 1 3 [8193; 8194; 8195]);
    [reflexivity | reflexivity | reflexivity | repeat split
    | split; [vm_compute; discriminate | reflexivity] | vm_compute; reflexivity].
Defined.

(** ** A request the preferred group can satisfy *)

Lemma unset_from_pos_next bm from :
  0 < unset_from bm from -> exists s, bm_nextBit bm from = Some s.
Proof.
  intros H. destruct (bm_nextBit bm from) as [s|] eqn:E; [eauto|].
  rewrite (unset_from_None _ _ E) in H. lia.
Qed.

Lemma bm_test_set_false bm s k :
  0 <= k -> bm_test (bm_set bm s) k = false -> bm_test bm k = false.
Proof.
  intros Hk H. destruct (bm_test bm k) eqn:E; [|reflexivity].
  rewrite (bm_test_set_mono bm s k Hk E) in H. discriminate.
Qed.

Lemma scan_group_returns fuel :
  forall bm start group_ind ret count,
    bitmap_wf bm -> 0 <= start ->
    1 <= count <= unset_from bm start -> count < 2 ^ 64 ->
    (Z.to_nat count <= fuel)%nat ->
    exists bits bm',
      scan_group fuel bm start group_ind ret count
      = Returned bm' (ret ++ map (fun s => u64 (s + group_ind)) bits) /\
      Z.of_nat (length bits) = count /\
      Forall (fun s => start <= s < bm_nbits bm /\ bm_test bm s = false) bits /\
      ascending bits /\
      (forall j s, In s bits -> start <= j < s -> bm_test bm j = false -> In j bits).
Proof.
  induction fuel as [|fuel IH]; intros bm start group_ind ret count Hwf Hstart Hc H64 Hfuel;
    [lia|].
  cbn [scan_group].
  destruct (unset_from_pos_next bm start ltac:(lia)) as (s & Enext). rewrite Enext.
  pose proof (unset_from_Some bm start s Hwf Hstart Enext) as Hu.
  pose proof Enext as (Hs & Hun & Hall)%bm_nextBit_Some.
  rewrite (u64_small (count - 1)) by lia.
  destruct (Z.eqb_spec (count - 1) 0) as [Hz|Hnz].
  - exists [s], (bm_set bm s). split; [reflexivity|]. split; [cbn; lia|].
    split; [constructor; [split; [lia | exact Hun] | constructor]|].
    split; [split; [constructor | exact I]|].
    intros j s' [<-|[]] Hj Hf. rewrite Hall in Hf by lia. discriminate.
  - destruct (IH (bm_set bm s) s group_ind (ret ++ [u64 (s + group_ind)]) (count - 1))
      as (bits & bm' & Hscan & Hlen & Hall' & Hsort & Hfit);
      [apply bitmap_wf_set, Hwf | lia | lia | lia | lia |].
    rewrite bm_nbits_set in Hall'.
    assert (Hgt : Forall (Z.lt s) bits).
    { eapply Forall_impl; [exact Hall'|]. intros k (Hk & Hf). cbn beta.
      destruct (Z.eq_dec k s) as [->|]; [|lia].
      rewrite bm_test_set in Hf by (try apply bitmap_wf_index; auto; lia).
      rewrite Z.eqb_refl, orb_true_r in Hf. discriminate. }
    exists (s :: bits), bm'. rewrite Hscan, <- app_assoc.
    split; [reflexivity|]. split; [cbn [length]; lia|].
    split; [|split].
    + constructor; [split; [lia | exact Hun]|].
      eapply Forall_impl; [exact Hall'|]. intros k (Hk & Hf). cbn beta.
      split; [lia|]. eapply bm_test_set_false; [lia | exact Hf].
    + split; assumption.
    + intros j s' [<-|Hin] Hj Hf.
      * rewrite Hall in Hf by lia. discriminate.
      * destruct (Z.lt_trichotomy j s) as [Hlt|[->|Hgt']].
        -- rewrite Hall in Hf by lia. discriminate.
        -- left. reflexivity.
        -- right. apply (Hfit j s' Hin); [lia|].
           rewrite bm_test_set_other by lia. exact Hf.
Qed.

Lemma ascending_NoDup_map (b : Z) (l : list Z) :
  ascending l -> List.NoDup (map (fun s => b + s) l).
Proof.
  induction l as [|a l IH]; cbn [map ascending]; [constructor|].
  intros (Ha & Hl). constructor; [|apply IH, Hl].
  rewrite in_map_iff. intros (x & Hx & Hin).
  rewrite List.Forall_forall in Ha. apply Ha in Hin. lia.
Qed.

(** X17. With at least two full groups and [count] free blocks in the
    preferred group, [get_free_block_indexes] returns [count] addresses of
    that group: distinct, in increasing order, each free in the group's
    bitmap on the device, and the lowest such ones (every free block of the
    group below a returned one is returned too). The device is only
    read. *)
Theorem get_free_block_indexes_first_fit
    (st : Ext2m) (group_id count : Z) (fuel : nat) :
  2 <= full_group_count st < 2 ^ 64 ->
  0 <= group_id < full_group_count st ->
  0 <= blocks_per_group st <= 2 ^ 32 ->
  bitmap_wf (fst (get_group_block_bitmap group_id st)) ->
  1 <= count <= free_blocks_in_group st group_id ->
  (1 <= fuel)%nat ->
  exists bits st',
    get_free_block_indexes fuel group_id count st
    = Ok (map (fun s => get_group_index st group_id + s) bits, st') /\
    Z.of_nat (length bits) = count /\
    List.NoDup (map (fun s => get_group_index st group_id + s) bits) /\
    ascending bits /\
    Forall (fun s => 0 <= s < blocks_per_group st /\
                     bm_test (fst (get_group_block_bitmap group_id st)) s = false) bits /\
    (forall j s, In s bits -> 0 <= j < s ->
       bm_test (fst (get_group_block_bitmap group_id st)) j = false -> In j bits) /\
    only_reads st st'.
Proof.
  intros Hn Hgid Hbpg Hwf Hcount Hfuel.
  destruct fuel as [|fuel]; [lia|].
  unfold get_free_block_indexes, get_free_block_indexes_seen. cbn [alloc_loop].
  destruct (Z.eqb_spec (full_group_count st) 0) as [|_]; [lia|].
  rewrite (u64_small (group_id + 1)) by lia.
  destruct (Z.eqb_spec ((group_id + 1) mod full_group_count st) group_id) as [E|_].
  { exfalso. destruct (Z.eq_dec (group_id + 1) (full_group_count st)) as [E1|E1].
    - rewrite E1, Z.mod_same in E by lia. lia.
    - rewrite Z.mod_small in E by lia. lia. }
  unfold free_blocks_in_group in Hcount.
  destruct (get_group_block_bitmap group_id st) as [bm st1] eqn:Ebm.
  cbn [fst] in *.
  assert (Hst1 : st1 = read_block (get_group_block_bitmap_index st group_id) st)
    by (unfold get_group_block_bitmap in Ebm; injection Ebm as _ <-; reflexivity).
  assert (Hnb : bm_nbits bm = blocks_per_group st)
    by (unfold get_group_block_bitmap in Ebm; injection Ebm as <- _; reflexivity).
  assert (Hle : unset_from bm 0 <= Z.of_nat (Z.to_nat (bm_nbits bm - 0)))
    by apply count_unset_le.
  change (2 ^ 32) with 4294967296 in *. change (2 ^ 64) with 18446744073709551616 in *.
  destruct (scan_group_returns (S (Z.to_nat (bm_nbits bm))) bm 0
              (get_group_index st group_id) [] count)
    as (bits & bm' & Hscan & Hlen & Hall & Hsort & Hfit);
    [exact Hwf | lia | exact Hcount
    | change (2 ^ 64) with 18446744073709551616; lia | lia |].
  rewrite Hscan. cbn [app].
  assert (Hidx : 0 <= get_group_index st group_id < 4294967296).
  { unfold get_group_index, u32, wrap. apply Z.mod_pos_bound. reflexivity. }
  assert (Hmap : map (fun s => u64 (s + get_group_index st group_id)) bits
                 = map (fun s => get_group_index st group_id + s) bits).
  { apply map_ext_in. intros s Hin. rewrite List.Forall_forall in Hall.
    apply Hall in Hin as (Hs & _). rewrite u64_small; [lia|].
    change (2 ^ 64) with 18446744073709551616. lia. }
  rewrite Hmap. exists bits, st1. split; [reflexivity|]. split; [exact Hlen|].
  split; [apply ascending_NoDup_map, Hsort|]. split; [exact Hsort|].
  split; [|split].
  - eapply Forall_impl; [exact Hall|]. intros s (Hs & Hf). cbn beta.
    rewrite <- Hnb. split; [lia | exact Hf].
  - intros j s Hin Hj Hf. apply (Hfit j s Hin); [lia | exact Hf].
  - subst st1. apply only_reads_read_block.
Qed.

Lemma get_free_block_indexes_first_fit_witness :
  exists bits st',
    get_free_block_indexes 1 0 3 small_blank
    = Ok (map (fun s => get_group_index small_blank 0 + s) bits, st') /\
    Z.of_nat (length bits) = 3 /\
    List.NoDup (map (fun s => get_group_index small_blank 0 + s) bits) /\
    ascending bits /\
    Forall (fun s => 0 <= s < blocks_per_group small_blank /\
                     bm_test (fst (get_group_block_bitmap 0 small_blank)) s = false) bits /\
    (forall j s, In s bits -> 0 <= j < s ->
       bm_test (fst (get_group_block_bitmap 0 small_blank)) j = false -> In j bits) /\
    only_reads small_blank st'.
Proof.
  apply (get_free_block_indexes_first_fit small_blank 0 3 1);
    [split; [vm_compute; discriminate | reflexivity]
    | split; [vm_compute; discriminate | reflexivity]
    | split; vm_compute; discriminate
    | vm_compute; lia
    | split; vm_compute; discriminate
    | lia].
Defined.

(** ** A request for no block *)

Lemma alloc_loop_zero gid d :
  forall fuel i ret seen st,
    0 < full_group_count st < 2 ^ 64 ->
    0 <= gid < full_group_count st ->
    0 <= i < full_group_count st ->
    (gid - 1 - i) mod full_group_count st = Z.of_nat d ->
    (forall grp, 0 <= grp < full_group_count st ->
       bitmap_wf (fst (get_group_block_bitmap grp st))) ->
    sum_range (fun k => free_blocks_in_group st ((i + k) mod full_group_count st)) 0 d
      < 2 ^ 64 ->
    (d < fuel)%nat ->
    exists seen' st',
      alloc_loop fuel gid i ret 0 seen st = Ok ([], seen', st') /\ only_reads st st'.
Proof.
  induction d as [|d IH]; intros fuel i ret seen st Hn Hgid Hi Hd Hwf Hsum Hfuel;
    (destruct fuel as [|fuel]; [lia|]); cbn [alloc_loop].
  - destruct (Z.eqb_spec (full_group_count st) 0) as [|_]; [lia|].
    rewrite u64_small by (change (2 ^ 64) with 18446744073709551616 in *; lia).
    rewrite (cursor_done gid i _ (proj1 Hn) Hgid Hd), Z.eqb_refl.
    exists seen, st. split; [reflexivity | apply only_reads_refl].
  - destruct (Z.eqb_spec (full_group_count st) 0) as [|_]; [lia|].
    rewrite u64_small by (change (2 ^ 64) with 18446744073709551616 in *; lia).
    destruct (cursor_next gid i _ d (proj1 Hn) Hgid Hd) as (Hne & Hd').
    destruct (Z.eqb_spec ((i + 1) mod full_group_count st) gid) as [|_]; [contradiction|].
    cbn [sum_range] in Hsum. rewrite Z.add_0_r, (Z.mod_small i) in Hsum by lia.
    assert (Hrest : 0 <= sum_range
      (fun k => free_blocks_in_group st ((i + k) mod full_group_count st)) (0 + 1) d)
      by (apply sum_range_nonneg; intros; apply free_blocks_in_group_nonneg).
    assert (Hshift :
      sum_range (fun k => free_blocks_in_group st
                            (((i + 1) mod full_group_count st + k) mod full_group_count st))
        0 d
      = sum_range (fun k => free_blocks_in_group st ((i + k) mod full_group_count st))
          (0 + 1) d).
    { apply sum_range_ext. intros k Hk. cbn beta.
      f_equal. rewrite Zplus_mod_idemp_l. f_equal. lia. }
    destruct (get_group_block_bitmap i st) as [bm st1] eqn:Ebm.
    assert (Hbm : bm = fst (get_group_block_bitmap i st)) by (rewrite Ebm; reflexivity).
    assert (Hst1 : st1 = read_block (get_group_block_bitmap_index st i) st)
      by (unfold get_group_block_bitmap in Ebm; injection Ebm as _ <-; reflexivity).
    assert (Hfree : unset_from bm 0 = free_blocks_in_group st i)
      by (rewrite Hbm; reflexivity).
    assert (Hwfb : bitmap_wf bm) by (rewrite Hbm; apply Hwf, Hi).
    pose proof (unset_from_nonneg bm 0) as Hnn.
    assert (Hle : unset_from bm 0 <= Z.of_nat (Z.to_nat (bm_nbits bm - 0)))
      by apply count_unset_le.
    assert (Hwf1 : forall grp, 0 <= grp < full_group_count st1 ->
               bitmap_wf (fst (get_group_block_bitmap grp st1)))
      by (subst st1; exact Hwf).
    assert (Hnext : 0 <= (i + 1) mod full_group_count st < full_group_count st)
      by (apply Z.mod_pos_bound; lia).
    cbn [scan_group].
    destruct (bm_nextBit bm 0) as [s|] eqn:Enext.
    + pose proof (unset_from_Some bm 0 s Hwfb ltac:(lia) Enext) as Hu.
      pose proof Enext as (Hs & _)%bm_nextBit_Some.
      pose proof (unset_from_nonneg (bm_set bm s) s) as Hnn'.
      change (u64 (0 - 1)) with 18446744073709551615.
      change (18446744073709551615 =? 0) with false. cbv iota.
      change (2 ^ 64) with 18446744073709551616 in *.
      destruct (scan_group_exhausted (Z.to_nat (bm_nbits bm)) (bm_set bm s) s
                  (get_group_index st i) (ret ++ [u64 (s + get_group_index st i)])
                  18446744073709551615)
        as (bm' & ret' & Hscan & _);
        [apply bitmap_wf_set, Hwfb | lia
        | change (2 ^ 64) with 18446744073709551616; lia | lia |].
      rewrite Hscan.
      destruct (alloc_loop_exhausted gid d fuel ((i + 1) mod full_group_count st) ret'
                  (18446744073709551615 - unset_from (bm_set bm s) s)
                  (seen ++ [(i, bm')]) st1)
        as (seen' & st' & Hloop & Hreads & _); subst st1;
        change (full_group_count (read_block (get_group_block_bitmap_index st i) st))
          with (full_group_count st); try assumption.
      * change (free_blocks_in_group (read_block (get_group_block_bitmap_index st i) st))
          with (free_blocks_in_group st).
        rewrite Hshift. change (2 ^ 64) with 18446744073709551616. lia.
      * lia.
      * eexists _, st'. split; [exact Hloop|].
        eapply only_reads_trans; [apply only_reads_read_block | exact Hreads].
    + destruct (IH fuel ((i + 1) mod full_group_count st) ret (seen ++ [(i, bm)]) st1)
        as (seen' & st' & Hloop & Hreads); subst st1;
        change (full_group_count (read_block (get_group_block_bitmap_index st i) st))
          with (full_group_count st); try assumption.
      * change (free_blocks_in_group (read_block (get_group_block_bitmap_index st i) st))
          with (free_blocks_in_group st).
        rewrite Hshift. lia.
      * lia.
      * exists seen', st'. split; [exact Hloop|].
        eapply only_reads_trans; [apply only_reads_read_block | exact Hreads].
Qed.

(** X18. A request for no block ([count = 0]) returns the empty vector:
    [count--] wraps, so the request can never be completed, and every group
    the loop visits is scanned to its end. The device is only read. *)
Theorem get_free_block_indexes_zero_count (st : Ext2m) (group_id : Z) (fuel : nat) :
  0 < full_group_count st < 2 ^ 64 ->
  0 <= group_id < full_group_count st ->
  (forall grp, 0 <= grp < full_group_count st ->
     bitmap_wf (fst (get_group_block_bitmap grp st))) ->
  total_free_blocks st < 2 ^ 64 ->
  (Z.to_nat (full_group_count st) <= fuel)%nat ->
  exists st', get_free_block_indexes fuel group_id 0 st = Ok ([], st') /\ only_reads st st'.
Proof.
  intros Hn Hgid Hwf Htotal Hfuel.
  set (n := Z.to_nat (full_group_count st)).
  assert (Hd : (group_id - 1 - group_id) mod full_group_count st = Z.of_nat (n - 1)).
  { replace (group_id - 1 - group_id) with (full_group_count st - 1 + (-1) * full_group_count st)
      by lia.
    rewrite Z.mod_add by lia. rewrite Z.mod_small by lia. lia. }
  destruct (alloc_loop_zero group_id (n - 1) fuel group_id [] [] st)
    as (seen & st' & Hloop & Hreads); try assumption; [|lia|].
  - eapply Z.le_lt_trans; [|exact Htotal].
    unfold total_free_blocks. fold n.
    rewrite <- (sum_range_rotate (free_blocks_in_group st) group_id n) by lia.
    replace (Z.of_nat n) with (full_group_count st) by lia.
    apply sum_range_prefix; [|lia]. intros k. apply free_blocks_in_group_nonneg.
  - exists st'. unfold get_free_block_indexes, get_free_block_indexes_seen.
    rewrite Hloop. auto.
Qed.

Lemma get_free_block_indexes_zero_count_witness :
  exists st', get_free_block_indexes 2 1 0 small_blank = Ok ([], st') /\
              only_reads small_blank st'.
Proof.
  apply (get_free_block_indexes_zero_count small_blank 1 2).
  - split; reflexivity.
  - split; [vm_compute; discriminate | reflexivity].
  - intros grp _. vm_compute. lia.
  - reflexivity.
  - vm_compute. lia.
Defined.

(** ** A request the visited groups can satisfy *)

Lemma scan_group_exhausted_bits fuel :
  forall bm start group_ind ret count,
    bitmap_wf bm -> 0 <= start ->
    unset_from bm start < count < 2 ^ 64 ->
    (Z.to_nat (unset_from bm start) < fuel)%nat ->
    exists bits bm',
      scan_group fuel bm start group_ind ret count
      = Exhausted bm' (ret ++ map (fun s => u64 (s + group_ind)) bits)
          (count - unset_from bm start) /\
      Z.of_nat (length bits) = unset_from bm start /\
      Forall (fun s => start <= s < bm_nbits bm /\ bm_test bm s = false) bits /\
      ascending bits.
Proof.
  induction fuel as [|fuel IH]; intros bm start group_ind ret count Hwf Hstart Hc Hfuel;
    [lia|].
  cbn [scan_group]. destruct (bm_nextBit bm start) as [s|] eqn:Enext.
  - pose proof (unset_from_Some bm start s Hwf Hstart Enext) as Hu.
    pose proof (unset_from_nonneg (bm_set bm s) s) as Hnn.
    pose proof Enext as (Hs & Hun & Hall)%bm_nextBit_Some.
    rewrite (u64_small (count - 1)) by lia.
    destruct (Z.eqb_spec (count - 1) 0) as [|_]; [lia|].
    destruct (IH (bm_set bm s) s group_ind (ret ++ [u64 (s + group_ind)]) (count - 1))
      as (bits & bm' & Hscan & Hlen & Hall' & Hsort);
      [apply bitmap_wf_set, Hwf | lia | lia | lia |].
    rewrite bm_nbits_set in Hall'.
    assert (Hgt : Forall (Z.lt s) bits).
    { eapply Forall_impl; [exact Hall'|]. intros k (Hk & Hf). cbn beta.
      destruct (Z.eq_dec k s) as [->|]; [|lia].
      rewrite bm_test_set in Hf by (try apply bitmap_wf_index; auto; lia).
      rewrite Z.eqb_refl, orb_true_r in Hf. discriminate. }
    exists (s :: bits), bm'. rewrite Hscan, <- app_assoc.
    split; [cbn [map app]; f_equal; lia|]. split; [cbn [length]; lia|].
    split; [|split; assumption].
    constructor; [split; [lia | exact Hun]|].
    eapply Forall_impl; [exact Hall'|]. intros k (Hk & Hf). cbn beta.
    split; [lia|]. eapply bm_test_set_false; [lia | exact Hf].
  - rewrite (unset_from_None _ _ Enext), Z.sub_0_r.
    exists [], bm. cbn [map]. rewrite app_nil_r.
    split; [reflexivity|]. split; [reflexivity|]. split; [constructor | exact I].
Qed.

Lemma NoDup_picks_of_group (i : Z) (bits : list Z) :
  ascending bits -> List.NoDup (map (fun s => (i, s)) bits).
Proof.
  induction bits as [|a l IH]; cbn [map ascending]; [constructor|].
  intros (Ha & Hl). constructor; [|apply IH, Hl].
  rewrite in_map_iff. intros (x & [= Hx] & Hin).
  rewrite List.Forall_forall in Ha. apply Ha in Hin. lia.
Qed.

Lemma alloc_loop_satisfied gid d :
  forall fuel i ret count seen st,
    0 < full_group_count st < 2 ^ 64 ->
    0 <= gid < full_group_count st ->
    0 <= i < full_group_count st ->
    0 <= blocks_per_group st <= 2 ^ 32 ->
    (gid - 1 - i) mod full_group_count st = Z.of_nat d ->
    (forall grp, 0 <= grp < full_group_count st ->
       bitmap_wf (fst (get_group_block_bitmap grp st))) ->
    1 <= count
      <= sum_range (fun k => free_blocks_in_group st ((i + k) mod full_group_count st)) 0 d ->
    count < 2 ^ 64 ->
    (d <= fuel)%nat ->
    exists picks seen' st',
      alloc_loop fuel gid i ret count seen st
      = Ok (ret ++ map (pick_address st) picks, seen', st') /\
      Z.of_nat (length picks) = count /\
      List.NoDup picks /\
      Forall (fun p =>
                0 <= fst p < full_group_count st /\
                1 <= (gid - 1 - fst p) mod full_group_count st <= Z.of_nat d /\
                0 <= snd p < blocks_per_group st /\
                bm_test (fst (get_group_block_bitmap (fst p) st)) (snd p) = false)
        picks /\
      only_reads st st'.
Proof.
  induction d as [|d IH]; intros fuel i ret count seen st Hn Hgid Hi Hbpg Hd Hwf Hcount H64 Hfuel.
  { cbn [sum_range] in Hcount. lia. }
  destruct fuel as [|fuel]; [lia|]. cbn [alloc_loop].
  destruct (Z.eqb_spec (full_group_count st) 0) as [|_]; [lia|].
  rewrite u64_small by (change (2 ^ 64) with 18446744073709551616 in *; lia).
  destruct (cursor_next gid i _ d (proj1 Hn) Hgid Hd) as (Hne & Hd').
  destruct (Z.eqb_spec ((i + 1) mod full_group_count st) gid) as [|_]; [contradiction|].
  cbn [sum_range] in Hcount. rewrite Z.add_0_r, (Z.mod_small i) in Hcount by lia.
  assert (Hshift :
    sum_range (fun k => free_blocks_in_group st
                          (((i + 1) mod full_group_count st + k) mod full_group_count st))
      0 d
    = sum_range (fun k => free_blocks_in_group st ((i + k) mod full_group_count st))
        (0 + 1) d).
  { apply sum_range_ext. intros k Hk. cbn beta.
    f_equal. rewrite Zplus_mod_idemp_l. f_equal. lia. }
  destruct (get_group_block_bitmap i st) as [bm st1] eqn:Ebm.
  assert (Hbm : bm = fst (get_group_block_bitmap i st)) by (rewrite Ebm; reflexivity).
  assert (Hst1 : st1 = read_block (get_group_block_bitmap_index st i) st)
    by (unfold get_group_block_bitmap in Ebm; injection Ebm as _ <-; reflexivity).
  assert (Hnb : bm_nbits bm = blocks_per_group st)
    by (unfold get_group_block_bitmap in Ebm; injection Ebm as <- _; reflexivity).
  assert (Hfree : unset_from bm 0 = free_blocks_in_group st i)
    by (rewrite Hbm; reflexivity).
  assert (Hwfb : bitmap_wf bm) by (rewrite Hbm; apply Hwf, Hi).
  pose proof (unset_from_nonneg bm 0) as Hnn.
  assert (Hle : unset_from bm 0 <= Z.of_nat (Z.to_nat (bm_nbits bm - 0)))
    by apply count_unset_le.
  assert (Hidx : 0 <= get_group_index st i < 2 ^ 32).
  { unfold get_group_index, u32, wrap. apply Z.mod_pos_bound. reflexivity. }
  assert (Hmap : forall bits,
            Forall (fun s => 0 <= s < bm_nbits bm /\ bm_test bm s = false) bits ->
            map (fun s => u64 (s + get_group_index st i)) bits
            = map (pick_address st) (map (fun s => (i, s)) bits) /\
            Forall (fun p =>
                0 <= fst p < full_group_count st /\
                1 <= (gid - 1 - fst p) mod full_group_count st <= Z.of_nat (S d) /\
                0 <= snd p < blocks_per_group st /\
                bm_test (fst (get_group_block_bitmap (fst p) st)) (snd p) = false)
              (map (fun s => (i, s)) bits)).
  { intros bits Hall. split.
    - rewrite map_map. apply map_ext_in. intros s Hin.
      rewrite List.Forall_forall in Hall. apply Hall in Hin as (Hs & _).
      unfold pick_address. cbn [fst snd]. rewrite u64_small; [lia|].
      change (2 ^ 32) with 4294967296 in *.
      change (2 ^ 64) with 18446744073709551616. lia.
    - apply Forall_map. eapply Forall_impl; [exact Hall|].
      intros s (Hs & Hf). cbn [fst snd]. rewrite <- Hbm, <- Hnb, Hd.
      repeat split; try lia. exact Hf. }
  change (2 ^ 64) with 18446744073709551616 in *.
  change (2 ^ 32) with 4294967296 in *.
  destruct (Z.le_gt_cases count (unset_from bm 0)) as [Hfit|Hmore].
  - destruct (scan_group_returns (S (Z.to_nat (bm_nbits bm))) bm 0
                (get_group_index st i) ret count)
      as (bits & bm' & Hscan & Hlen & Hall & Hsort & _);
      [exact Hwfb | lia | lia
      | change (2 ^ 64) with 18446744073709551616; lia | lia |].
    rewrite Hscan. destruct (Hmap bits Hall) as (-> & Hpicks).
    exists (map (fun s => (i, s)) bits), (seen ++ [(i, bm')]), st1.
    split; [reflexivity|]. split; [rewrite length_map; exact Hlen|].
    split; [apply NoDup_picks_of_group, Hsort|]. split; [exact Hpicks|].
    subst st1. apply only_reads_read_block.
  - destruct (scan_group_exhausted_bits (S (Z.to_nat (bm_nbits bm))) bm 0
                (get_group_index st i) ret count)
      as (bits & bm' & Hscan & Hlen & Hall & Hsort);
      [exact Hwfb | lia
      | change (2 ^ 64) with 18446744073709551616; lia | lia |].
    rewrite Hscan. destruct (Hmap bits Hall) as (-> & Hpicks).
    destruct (IH fuel ((i + 1) mod full_group_count st)
                (ret ++ map (pick_address st) (map (fun s => (i, s)) bits))
                (count - unset_from bm 0) (seen ++ [(i, bm')]) st1)
      as (picks & seen' & st' & Hloop & Hplen & Hnd & Hpall & Hreads); subst st1;
      change (full_group_count (read_block (get_group_block_bitmap_index st i) st))
        with (full_group_count st);
      change (blocks_per_group (read_block (get_group_block_bitmap_index st i) st))
        with (blocks_per_group st);
      try assumption.
    + apply Z.mod_pos_bound. lia.
    + change (free_blocks_in_group (read_block (get_group_block_bitmap_index st i) st))
        with (free_blocks_in_group st).
      rewrite Hshift. lia.
    + change (2 ^ 64) with 18446744073709551616. lia.
    + lia.
    + change (pick_address (read_block (get_group_block_bitmap_index st i) st))
        with (pick_address st) in Hloop.
      exists (map (fun s => (i, s)) bits ++ picks), seen', st'.
      rewrite Hloop, map_app, app_assoc.
      split; [reflexivity|].
      split; [rewrite length_app, length_map; lia|].
      split; [|split].
      * apply List.NoDup_app; [apply NoDup_picks_of_group, Hsort | exact Hnd|].
        intros p Hp1 Hp2.
        apply in_map_iff in Hp1 as (s & <- & _).
        rewrite List.Forall_forall in Hpall. apply Hpall in Hp2 as (_ & Hdist & _).
        cbn [fst] in Hdist.
        change (full_group_count (read_block (get_group_block_bitmap_index st i) st))
          with (full_group_count st) in Hdist.
        rewrite Hd in Hdist. lia.
      * apply Forall_app. split; [exact Hpicks|].
        eapply Forall_impl; [exact Hpall|]. intros p (H1 & H2 & H3 & H4).
        change (full_group_count (read_block (get_group_block_bitmap_index st i) st))
          with (full_group_count st) in *.
        change (blocks_per_group (read_block (get_group_block_bitmap_index st i) st))
          with (blocks_per_group st) in *.
        repeat split; try lia. exact H4.
      * eapply only_reads_trans; [apply only_reads_read_block | exact Hreads].
Qed.

Lemma cursor_not_last gid grp n :
  0 < n -> 1 <= (gid - 1 - grp) mod n -> (grp + 1) mod n <> gid.
Proof.
  intros Hn Hd E. rewrite <- E in Hd.
  replace ((grp + 1) mod n - 1 - grp) with ((grp + 1) mod n - (1 + grp)) in Hd by lia.
  rewrite Zminus_mod_idemp_l in Hd.
  replace (grp + 1 - (1 + grp)) with 0 in Hd by lia.
  rewrite Z.mod_0_l in Hd by lia. lia.
Qed.

(** X29. When the groups the loop visits from [group_id] (every full group
    but the one before [group_id]) hold at least [count] free blocks,
    [get_free_block_indexes] returns exactly [count] addresses, no two the
    same, each the address of a bit that is unset in the block bitmap of a
    visited group as it is on the device; the device is only read. *)
Theorem get_free_block_indexes_satisfied
    (cfg : Config) (g : Geometry) (st : Ext2m) (group_id count : Z) (fuel : nat) :
  0 < BLOCK_SIZE cfg ->
  block_group_calculation cfg = Some g -> geometry_fits g = true ->
  has_geometry g st -> 0 <= group_id < g_full_group_count g ->
  (forall grp, 0 <= grp < g_full_group_count g ->
     bitmap_wf (fst (get_group_block_bitmap grp st))) ->
  1 <= count <= visited_free_blocks st group_id -> count < 2 ^ 64 ->
  (Z.to_nat (g_full_group_count g) <= fuel)%nat ->
  exists picks st',
    get_free_block_indexes fuel group_id count st
    = Ok (map (pick_address st) picks, st') /\
    Z.of_nat (length picks) = count /\
    List.NoDup (map (pick_address st) picks) /\
    Forall (fun p =>
              0 <= fst p < g_full_group_count g /\
              (fst p + 1) mod g_full_group_count g <> group_id /\
              0 <= snd p < g_blocks_per_group g /\
              bm_test (fst (get_group_block_bitmap (fst p) st)) (snd p) = false)
      picks /\
    only_reads st st'.
Proof.
  intros Hb Hc Hfit Hgeo Hgid Hwf Hcount H64 Hfuel.
  assert (Hf : geo_facts g) by (eapply geometry_fits_facts; eauto).
  pose proof Hgeo as (Hfgc & Hbpg & _).
  pose proof Hf as []. unfold metadata_blocks in *.
  change (2 ^ 32) with 4294967296 in *. change (2 ^ 16) with 65536 in *.
  set (n := Z.to_nat (g_full_group_count g)) in *.
  unfold visited_free_blocks in Hcount. rewrite Hfgc in Hcount. fold n in Hcount.
  assert (Hd : (group_id - 1 - group_id) mod full_group_count st = Z.of_nat (n - 1)).
  { rewrite Hfgc.
    replace (group_id - 1 - group_id)
      with (g_full_group_count g - 1 + (-1) * g_full_group_count g) by lia.
    rewrite Z.mod_add by lia. rewrite Z.mod_small by lia. lia. }
  pose proof Hd as Hd'. rewrite Hfgc in Hd'.
  destruct (alloc_loop_satisfied group_id (n - 1) fuel group_id [] count [] st)
    as (picks & seen' & st' & Hloop & Hlen & Hnd & Hall & Hreads);
    rewrite ?Hfgc, ?Hbpg; try assumption; try lia.
  all: try (change (2 ^ 64) with 18446744073709551616; lia).
  all: try (change (2 ^ 32) with 4294967296; lia).
  assert (Hall' : Forall (fun p =>
              0 <= fst p < g_full_group_count g /\
              (fst p + 1) mod g_full_group_count g <> group_id /\
              0 <= snd p < g_blocks_per_group g /\
              bm_test (fst (get_group_block_bitmap (fst p) st)) (snd p) = false) picks).
  { eapply Forall_impl; [exact Hall|]. intros p (H1 & H2 & H3 & H4).
    rewrite Hfgc in H1, H2. rewrite Hbpg in H3.
    split; [exact H1|]. split; [apply cursor_not_last; lia|]. split; assumption. }
  exists picks, st'. unfold get_free_block_indexes, get_free_block_indexes_seen.
  rewrite Hloop. cbn [app].
  split; [reflexivity|]. split; [exact Hlen|]. split; [|split; [exact Hall' | exact Hreads]].
  apply NoDup_map_NoDup_ForallPairs; [|exact Hnd].
  intros [g1 s1] [g2 s2] Hin1 Hin2 Heq.
  rewrite List.Forall_forall in Hall'.
  destruct (Hall' _ Hin1) as (Hg1 & _ & Hs1 & _).
  destruct (Hall' _ Hin2) as (Hg2 & _ & Hs2 & _).
  unfold pick_address in Heq. cbn [fst snd] in *.
  rewrite (get_group_index_eq g st g1 Hgeo Hf Hg1) in Heq.
  rewrite (get_group_index_eq g st g2 Hgeo Hf Hg2) in Heq.
  destruct (group_offset_unique g g1 g2 s1 s2 Hf Hs1 Hs2 Heq) as [-> ->]. reflexivity.
Qed.

Lemma get_free_block_indexes_satisfied_witness :
  exists picks st',
    get_free_block_indexes 2 0 3 (set_geometry g17 blank17)
    = Ok (map (pick_address (set_geometry g17 blank17)) picks, st') /\
    Z.of_nat (length picks) = 3 /\
    List.NoDup (map (pick_address (set_geometry g17 blank17)) picks) /\
    Forall (fun p =>
              0 <= fst p < g_full_group_count g17 /\
              (fst p + 1) mod g_full_group_count g17 <> 0 /\
              0 <= snd p < g_blocks_per_group g17 /\
              bm_test (fst (get_group_block_bitmap (fst p) (set_geometry g17 blank17)))
                (snd p) = false)
      picks /\
    only_reads (set_geometry g17 blank17) st'.
Proof.
  apply (get_free_block_indexes_satisfied cfg17 g17 (set_geometry g17 blank17) 0 3 2).
  - reflexivity.
  - reflexivity.
  - reflexivity.
  - repeat split.
  - split; [vm_compute; discriminate | reflexivity].
  - intros grp _. vm_compute. lia.
  - split; vm_compute; discriminate.
  - reflexivity.
  - vm_compute. lia.
Defined.

(** ** What [format] leaves in the blocks it does not fill *)

Section InitZero.

Variables (cfg : Config) (g : Geometry).
Hypothesis Hfacts : geo_facts g.
Hypothesis Hnb : (Z.to_nat ((g_blocks_per_group g + 7) / 8) <= BS cfg)%nat.

Lemma init_block_group_zeroes i st o :
  has_geometry g st -> 0 <= i < g_full_group_count g ->
  2 + g_group_desc_block_count g <= o < g_blocks_per_group g ->
  blk (init_block_group cfg g i st) (group_base g i + o) = zeros (BS cfg).
Proof.
  intros Hgeo Hi Ho. unfold init_block_group.
  set (s1 := with_buf (zeros (BS cfg)) st).
  assert (Hg1 : has_geometry g s1) by exact Hgeo.
  rewrite (get_group_inode_bitmap_index_eq g s1 i Hg1 Hfacts Hi).
  rewrite (get_group_index_eq g s1 i Hg1 Hfacts Hi).
  pose proof (group_bounds g i Hfacts Hi) as Hb.
  assert (Hend : u64 (group_base g i + g_blocks_per_group g)
                 = group_base g i + g_blocks_per_group g).
  { apply u64_small. change (2 ^ 32) with 4294967296 in *.
    change (2 ^ 64) with 18446744073709551616. lia. }
  rewrite Hend.
  set (start := group_base g i + 2 + g_group_desc_block_count g).
  set (cnt := Z.to_nat (group_base g i + g_blocks_per_group g - start)).
  set (s2 := for_range start cnt _ s1).
  pose (P := fun (j : Z) (s : Ext2m) =>
    same_geometry s1 s /\ _buf s = zeros (BS cfg) /\
    forall j', start <= j' < j -> blk s j' = zeros (BS cfg)).
  assert (HP : P (start + Z.of_nat cnt) s2).
  { apply for_range_ind; unfold P.
    - split; [apply same_geometry_refl|]. split; [reflexivity|]. intros; lia.
    - intros j s Hj (Hs & Hbuf & Hprev). split; [exact Hs|]. split; [exact Hbuf|].
      intros j' Hj'. destruct (decide (j' = j)) as [->|Hne].
      + rewrite blk_write_block_same, Hbuf. apply firstn_all2. rewrite length_zeros. lia.
      + unfold blk. rewrite blocks_write_block_other by exact Hne. apply Hprev. lia. }
  destruct HP as (Hs2 & _ & Hz).
  assert (Hg2 : has_geometry g s2) by (eapply has_geometry_same; [exact Hg1 | exact Hs2]).
  unfold get_group_block_bitmap.
  rewrite (get_group_block_bitmap_index_eq g s2 i Hg2 Hfacts Hi).
  set (bb := group_base g i + 1 + g_group_desc_block_count g) in *.
  set (s3 := read_block bb s2).
  unfold write_group_block_bitmap, bm_data.
  set (s4 := with_buf _ (with_buf (zeros (BS cfg)) s3)).
  assert (Hg4 : has_geometry g s4) by exact Hg2.
  rewrite (get_group_block_bitmap_index_eq g s4 i Hg4 Hfacts Hi). fold bb.
  unfold blk. rewrite blocks_write_block_other by (subst bb; lia).
  apply Hz. subst start cnt. lia.
Qed.

Let n := Z.to_nat (g_full_group_count g).

Lemma init_block_groups_zeroes st :
  has_geometry g st ->
  (forall grp, 0 <= grp < g_full_group_count g ->
     length (blk st (group_base g grp + 1 + g_group_desc_block_count g)) = BS cfg) ->
  forall grp o, 0 <= grp < g_full_group_count g ->
    2 + g_group_desc_block_count g <= o < g_blocks_per_group g ->
    blk (for_range 0 n (init_block_group cfg g) st) (group_base g grp + o)
    = zeros (BS cfg).
Proof.
  intros Hgeo Hlen.
  assert (Hn : Z.of_nat n = g_full_group_count g) by (apply fgc_n, Hfacts).
  assert (Hbpg : metadata_blocks g <= g_blocks_per_group g) by (destruct Hfacts; lia).
  assert (Hgd : 0 <= g_group_desc_block_count g) by (destruct Hfacts; lia).
  assert (Hit : 0 <= g_inodes_table_block_count g) by (destruct Hfacts; lia).
  unfold metadata_blocks in Hbpg.
  pose (R := fun (i j : Z) => exists k, 0 <= k < i /\
     group_base g k + (1 + g_group_desc_block_count g) <= j
     < group_base g k + g_blocks_per_group g).
  pose (P := fun (i : Z) (s : Ext2m) =>
    only_writes (R i) st s /\
    forall grp o, 0 <= grp < i ->
      2 + g_group_desc_block_count g <= o < g_blocks_per_group g ->
      blk s (group_base g grp + o) = zeros (BS cfg)).
  assert (P (0 + Z.of_nat n) (for_range 0 n (init_block_group cfg g) st)) as (_ & Hf).
  { apply for_range_ind; unfold P.
    - split; [apply only_writes_refl|]. intros; lia.
    - intros i s Hi (Hw & Hprev). rewrite Hn in Hi.
      assert (Hgs : has_geometry g s) by (eapply has_geometry_same; [exact Hgeo | apply Hw]).
      assert (Hbi : blk s (group_base g i + 1 + g_group_desc_block_count g)
                    = blk st (group_base g i + 1 + g_group_desc_block_count g)).
      { apply (proj2 Hw). intros (k & Hk & Hr).
        destruct (group_offset_unique g i k (1 + g_group_desc_block_count g)
                    (group_base g i + 1 + g_group_desc_block_count g - group_base g k)
                    Hfacts) as [-> _]; lia. }
      assert (Hli : length (blk s (group_base g i + 1 + g_group_desc_block_count g)) = BS cfg)
        by (rewrite Hbi; apply Hlen; lia).
      destruct (init_block_group_spec cfg g Hfacts Hnb i s Hgs ltac:(lia) Hli)
        as (Hw' & _).
      split.
      + eapply only_writes_trans.
        * eapply only_writes_weaken; [|exact Hw]. intros j (k & ? & ?). exists k. split; [lia|auto].
        * eapply only_writes_weaken; [|exact Hw']. intros j Hj. cbv beta in Hj. exists i. split; lia.
      + intros grp o Hgrp Ho. destruct (decide (grp = i)) as [->|Hne].
        * apply init_block_group_zeroes; [exact Hgs | lia | exact Ho].
        * rewrite (proj2 Hw'); [apply Hprev; [lia | exact Ho]|].
          intros Hr.
          destruct (group_offset_unique g grp i o
                      (group_base g grp + o - group_base g i) Hfacts) as [-> _]; lia. }
  rewrite Hn in Hf. intros grp o Hgrp Ho. apply Hf; [lia | exact Ho].
Qed.

(** The blocks of the device after the layout steps of [format]. *)
Lemma format_layout_frame env lbs st0 :
  device_ok cfg (_disk st0) ->
  let L := format_layout cfg env g lbs st0 in
  blk L 0 = take (BS cfg) (strcpy 0 boot_sector_text (_buf st0)) /\
  (forall j, j <> 0 -> ~ in_group_range g 0 (g_blocks_per_group g) j ->
     blk L j = blk st0 j) /\
  (forall grp o, 0 <= grp < g_full_group_count g ->
     2 + g_group_desc_block_count g <= o < g_blocks_per_group g ->
     blk L (group_base g grp + o) = zeros (BS cfg)).
Proof.
  intros Hdev L. subst L. unfold format_layout.
  set (S1 := set_geometry g (format_boot_sector cfg st0)).
  set (S2 := with_buf _ (with_buf (zeros (BS cfg)) S1)).
  assert (Hg2 : has_geometry g S2) by (repeat split).
  destruct (write_super_blocks_spec cfg g Hfacts S2 Hg2) as (Hw3 & _).
  set (S3 := for_range 0 _ _ S2) in *.
  assert (Hg3 : has_geometry g S3) by (eapply has_geometry_same; [exact Hg2 | apply Hw3]).
  set (ptr := group_desc_staging cfg g (build_group_desc env S1 g)).
  destruct (write_group_desc_tables_spec cfg g Hfacts ptr S3 Hg3) as (Hw4 & _).
  set (S4 := for_range 0 _ _ S3) in *.
  assert (Hg4 : has_geometry g S4) by (eapply has_geometry_same; [exact Hg3 | apply Hw4]).
  assert (Hbpg : metadata_blocks g <= g_blocks_per_group g) by (destruct Hfacts; lia).
  assert (Hgdp : 0 <= g_group_desc_block_count g) by (destruct Hfacts; lia).
  assert (Hitp : 0 <= g_inodes_table_block_count g) by (destruct Hfacts; lia).
  unfold metadata_blocks in Hbpg.
  assert (Hblk2 : forall j, j <> 0 -> blk S2 j = blk st0 j).
  { intros j Hj. unfold blk, S2, S1, format_boot_sector. cbn [with_buf set_geometry _disk].
    rewrite blocks_write_block_other by exact Hj. reflexivity. }
  assert (Hblk2_0 : blk S2 0 = take (BS cfg) (strcpy 0 boot_sector_text (_buf st0))).
  { unfold blk, S2, S1, format_boot_sector. cbn [with_buf set_geometry _disk _buf].
    apply blocks_write_block_same. }
  assert (Hout4 : forall j, ~ in_group_range g 0 (g_blocks_per_group g) j ->
            blk S4 j = blk S2 j).
  { intros j Hj. rewrite (proj2 Hw4), (proj2 Hw3); [reflexivity| |].
    - intros (grp & Hgrp & ->). apply Hj. exists grp. split; [exact Hgrp | lia].
    - intros (grp & Hgrp & Hr). apply Hj. exists grp. split; [exact Hgrp | lia]. }
  assert (Hlen4 : forall grp, 0 <= grp < g_full_group_count g ->
            length (blk S4 (group_base g grp + 1 + g_group_desc_block_count g)) = BS cfg).
  { intros grp Hgrp.
    rewrite (proj2 Hw4), (proj2 Hw3).
    - pose proof (group_bounds g grp Hfacts Hgrp).
      rewrite Hblk2 by lia. apply Hdev.
    - intros (grp' & Hgrp' & Hj).
      destruct (group_offset_unique g grp grp' (1 + g_group_desc_block_count g) 0 Hfacts); lia.
    - intros (grp' & Hgrp' & Hj).
      destruct (group_offset_unique g grp grp' (1 + g_group_desc_block_count g)
        (group_base g grp + 1 + g_group_desc_block_count g - group_base g grp') Hfacts); lia. }
  destruct (init_block_groups_spec cfg g Hfacts Hnb S4 Hg4 Hlen4) as (Hw5 & _).
  pose proof (init_block_groups_zeroes S4 Hg4 Hlen4) as Hz.
  unfold n in Hz.
  set (S5 := for_range 0 _ (init_block_group cfg g) S4) in *.
  assert (Hout5 : forall j, ~ in_group_range g 0 (g_blocks_per_group g) j ->
            blk S5 j = blk S2 j).
  { intros j Hj. rewrite (proj2 Hw5); [apply Hout4, Hj|].
    intros (grp & Hgrp & Hr). apply Hj. exists grp. split; [exact Hgrp | lia]. }
  assert (H0 : ~ in_group_range g 0 (g_blocks_per_group g) 0).
  { intros (grp & Hgrp & Hr). pose proof (group_bounds g grp Hfacts Hgrp). lia. }
  change (blk (sync S5)) with (blk S5).
  split; [|split].
  - rewrite (Hout5 0 H0). exact Hblk2_0.
  - intros j Hj0 Hj. rewrite (Hout5 j Hj). apply Hblk2, Hj0.
  - exact Hz.
Qed.

End InitZero.


Lemma for_range_preserves {T : Type} (f : T -> Z) lo n body (s : T) :
  (forall i s, f (body i s) = f s) -> f (for_range lo n body s) = f s.
Proof.
  intros H. revert lo s. induction n as [|n IH]; intros lo s; cbn [for_range];
    [reflexivity|]. rewrite IH. apply H.
Qed.

Lemma full_group_count_format_layout cfg env g lbs st :
  full_group_count (format_layout cfg env g lbs st) = g_full_group_count g.
Proof.
  unfold format_layout. cbn [sync with_disk full_group_count].
  rewrite for_range_preserves.
  2:{ intros i s. unfold init_block_group, write_group_block_bitmap, bm_data,
        get_group_block_bitmap.
      cbn [write_block read_block with_disk with_buf cache_read_block full_group_count].
      rewrite for_range_preserves; [reflexivity|]. intros; reflexivity. }
  rewrite for_range_preserves.
  2:{ intros i s. unfold write_group_desc_table_to_group.
      rewrite for_range_preserves; [reflexivity|]. intros; reflexivity. }
  rewrite for_range_preserves; [reflexivity|]. intros; reflexivity.
Qed.

(** X19. With one full group [format] has no result, for every
    configuration, environment and device: the allocator's loop over the
    groups is not entered, and [format] takes [front()] of the empty
    vector. *)
Theorem format_single_group (cfg : Config) (env : Env) (st : Ext2m) (g : Geometry) :
  block_group_calculation cfg = Some g -> g_full_group_count g = 1 ->
  format cfg env st = Undefined.
Proof.
  intros Hc H1. unfold format. rewrite Hc.
  destruct (negb (static_assert_holds g)); [reflexivity|].
  destruct (negb (buffers_in_bounds cfg g)); [reflexivity|].
  destruct (udiv (BLOCK_SIZE cfg) 1024) as [q|]; [|reflexivity].
  destruct (log2 q) as [lbs|]; [|reflexivity].
  unfold add_root_directory, get_group_inode_bitmap.
  cbn [read_block with_buf with_disk cache_read_block full_group_count].
  rewrite full_group_count_format_layout, H1.
  unfold get_free_block_indexes, get_free_block_indexes_seen.
  change (Z.to_nat 1) with 1%nat.
  cbn [alloc_loop full_group_count with_buf with_disk].
  rewrite full_group_count_format_layout, H1. reflexivity.
Qed.

Lemma format_single_group_witness : format cfg9 env0 blank9 = Undefined.
Proof. apply (format_single_group cfg9 env0 blank9 g9); reflexivity. Defined.

(** A [format] that goes through, and where the blocks it leaves come
    from. *)
Lemma format_blocks cfg env st0 g :
  formattable cfg g st0 ->
  exists st' lbs front,
    format cfg env st0 = Ok st' /\
    geo_facts g /\ has_geometry g st' /\
    (Z.to_nat ((g_blocks_per_group g + 7) / 8) <= BS cfg)%nat /\
    1024 <= BLOCK_SIZE cfg /\
    is_data_block g front /\
    forall j, j <> front -> blk st' j = blk (format_layout cfg env g lbs st0) j.
Proof.
  intros Hf. destruct (format_returns cfg env st0 g Hf) as (st' & Hfmt).
  destruct Hf as (Hdev & Hc & Hfit & Hb & _).
  destruct (format_effect cfg env st0 st' g Hdev Hfmt Hc Hfit)
    as (lbs & front & _ & _ & Hfacts & Hgeo & Hdata & Hother & _).
  exists st', lbs, front. split; [exact Hfmt|]. split; [exact Hfacts|].
  split; [exact Hgeo|]. split; [|split; [|split; [exact Hdata | exact Hother]]].
  - unfold buffers_in_bounds in Hb. repeat (apply andb_prop in Hb as [Hb ?]). unfold BS. lia.
  - eapply buffers_in_bounds_block_size; eassumption.
Qed.

Lemma in_group_range_bounds g j :
  geo_facts g -> in_group_range g 0 (g_blocks_per_group g) j ->
  1 <= j <= g_full_group_count g * g_blocks_per_group g.
Proof.
  intros Hf (grp & Hgrp & Hj). pose proof (group_bounds g grp Hf Hgrp). lia.
Qed.

Lemma is_data_block_in_group g j :
  geo_facts g -> is_data_block g j -> in_group_range g 0 (g_blocks_per_group g) j.
Proof.
  intros Hf (grp & Hgrp & Hj). exists grp. split; [exact Hgrp|].
  destruct Hf. unfold metadata_blocks in *. lia.
Qed.

(** X20. After [format] block 0 starts with the boot-sector text and its
    terminating NUL (77 bytes); the rest of the block is what [_buf] held
    when [format] was called, since [_buf] is not cleared before the
    [strcpy]. *)
Theorem format_boot_block (cfg : Config) (env : Env) (st0 : Ext2m) (g : Geometry) :
  formattable cfg g st0 -> length (_buf st0) = BS cfg ->
  exists st',
    format cfg env st0 = Ok st' /\
    load_bytes 0 77 (blk st' 0) = c_string boot_sector_text /\
    forall i, (77 <= i)%nat -> byte_at (blk st' 0) i = byte_at (_buf st0) i.
Proof.
  intros Hf Hlen.
  destruct (format_blocks cfg env st0 g Hf)
    as (st' & lbs & front & Hfmt & Hfacts & Hgeo & Hnb & Hbs & Hdata & Hother).
  exists st'. split; [exact Hfmt|].
  destruct (format_layout_frame cfg g Hfacts Hnb env lbs st0 (proj1 Hf)) as (H0 & _).
  assert (Hne : 0 <> front).
  { intros <-. apply is_data_block_in_group, in_group_range_bounds in Hdata; [lia | ..];
      exact Hfacts. }
  rewrite (Hother 0 Hne), H0.
  rewrite firstn_all2 by (rewrite length_strcpy; lia).
  assert (Hcs : length (c_string boot_sector_text) = 77%nat) by reflexivity.
  split.
  - rewrite <- Hcs. apply load_bytes_store_bytes_same.
    rewrite Hcs, Hlen. unfold BS. lia.
  - intros i Hi. apply byte_at_store_bytes_out. right. rewrite Hcs. lia.
Qed.

Lemma format_boot_block_witness :
  exists st',
    format cfg17 env0 blank17 = Ok st' /\
    load_bytes 0 77 (blk st' 0) = c_string boot_sector_text /\
    forall i, (77 <= i)%nat -> byte_at (blk st' 0) i = byte_at (_buf blank17) i.
Proof.
  apply (format_boot_block cfg17 env0 blank17 g17);
    [apply formattable_blank17 | reflexivity].
Defined.

(** X21. [format] leaves every block outside block 0 and the full groups as
    it was: the blocks of the last, shorter group are not touched. *)
Theorem format_leaves_the_rest (cfg : Config) (env : Env) (st0 : Ext2m) (g : Geometry) :
  formattable cfg g st0 ->
  exists st',
    format cfg env st0 = Ok st' /\
    forall j, ~ (0 <= j <= g_full_group_count g * g_blocks_per_group g) ->
      blk st' j = blk st0 j.
Proof.
  intros Hf.
  destruct (format_blocks cfg env st0 g Hf)
    as (st' & lbs & front & Hfmt & Hfacts & Hgeo & Hnb & Hbs & Hdata & Hother).
  exists st'. split; [exact Hfmt|]. intros j Hj.
  destruct (format_layout_frame cfg g Hfacts Hnb env lbs st0 (proj1 Hf)) as (_ & Hout & _).
  pose proof (in_group_range_bounds g front Hfacts
                (is_data_block_in_group g front Hfacts Hdata)) as Hfront.
  rewrite Hother by lia. apply Hout; [lia|].
  intros Hr. apply in_group_range_bounds in Hr; [lia | exact Hfacts].
Qed.

Lemma format_leaves_the_rest_witness :
  exists st',
    format cfg17 env0 blank17 = Ok st' /\
    forall j, ~ (0 <= j <= g_full_group_count g17 * g_blocks_per_group g17) ->
      blk st' j = blk blank17 j.
Proof. apply (format_leaves_the_rest cfg17 env0 blank17 g17), formattable_blank17. Defined.

Lemma load_bytes_zeros off n m :
  (off + n <= m)%nat -> load_bytes off n (zeros m) = zeros n.
Proof.
  intros H. unfold load_bytes, zeros. rewrite drop_replicate, take_replicate.
  f_equal. lia.
Qed.

(** X22. After [format] every block of a full group from its inode bitmap
    on is zero, but for the one data block [front] that holds the root
    directory: the inode bitmaps are all zero, and [get_inode] of every
    reachable inode number returns an all-zero record. *)
Theorem format_zero_fills (cfg : Config) (env : Env) (st0 : Ext2m) (g : Geometry) :
  formattable cfg g st0 -> 0 < g_inodes_table_block_count g ->
  exists st' front,
    format cfg env st0 = Ok st' /\
    is_data_block g front /\
    (forall grp o, 0 <= grp < g_full_group_count g ->
       2 + g_group_desc_block_count g <= o < g_blocks_per_group g ->
       get_group_index st' grp + o <> front ->
       blk st' (get_group_index st' grp + o) = zeros (BS cfg)) /\
    (forall grp, 0 <= grp < g_full_group_count g ->
       blk st' (get_group_inode_bitmap_index st' grp) = zeros (BS cfg)) /\
    (forall k, k < 2 ^ 64 -> inode_reachable cfg st' k ->
       exists s, get_inode cfg k st' = Ok (zeros INO.size, s)).
Proof.
  intros Hf Hit.
  destruct (format_blocks cfg env st0 g Hf)
    as (st' & lbs & front & Hfmt & Hfacts & Hgeo & Hnb & Hbs & Hdata & Hother).
  exists st', front. split; [exact Hfmt|]. split; [exact Hdata|].
  destruct (format_layout_frame cfg g Hfacts Hnb env lbs st0 (proj1 Hf)) as (_ & _ & Hz).
  assert (Hzero : forall grp o, 0 <= grp < g_full_group_count g ->
            2 + g_group_desc_block_count g <= o < g_blocks_per_group g ->
            group_base g grp + o <> front ->
            blk st' (group_base g grp + o) = zeros (BS cfg)).
  { intros grp o Hgrp Ho Hne. rewrite Hother by exact Hne. apply Hz; assumption. }
  assert (Hmeta : forall grp o, 0 <= grp < g_full_group_count g ->
            0 <= o < metadata_blocks g -> group_base g grp + o <> front).
  { intros grp o Hgrp Ho <-.
    eapply data_block_not_metadata; [exact Hfacts | exact Hdata|].
    exists grp. split; [exact Hgrp | lia]. }
  pose proof Hfacts as []. unfold metadata_blocks in *.
  split; [|split].
  - intros grp o Hgrp Ho.
    rewrite (get_group_index_eq g st' grp Hgeo Hfacts Hgrp). apply Hzero; assumption.
  - intros grp Hgrp.
    rewrite (get_group_inode_bitmap_index_eq g st' grp Hgeo Hfacts Hgrp).
    replace (group_base g grp + 2 + g_group_desc_block_count g)
      with (group_base g grp + (2 + g_group_desc_block_count g)) by lia.
    apply Hzero; [exact Hgrp | lia | apply Hmeta; [exact Hgrp | lia]].
  - intros k Hk Hr.
    assert (Hipg : 0 < inodes_per_group st').
    { replace (inodes_per_group st') with (g_inodes_per_group g)
        by (symmetry; apply Hgeo). lia. }
    rewrite (get_inode_ok cfg k st' Hipg Hk Hr). eexists. f_equal. f_equal.
    pose proof (inode_offset_fits cfg st' k Hipg Hr) as Hoff.
    destruct Hr as (Hk1 & Hgrp & _).
    assert (Hgrp' : 0 <= (k - 1) / inodes_per_group st' < g_full_group_count g).
    { split; [apply Z.div_pos; lia|].
      replace (g_full_group_count g) with (full_group_count st')
        by apply Hgeo. exact Hgrp. }
    unfold inode_block.
    rewrite (get_group_inode_table_index_eq g st' _ Hgeo Hfacts Hgrp').
    replace (group_base g ((k - 1) / inodes_per_group st') + 3 + g_group_desc_block_count g)
      with (group_base g ((k - 1) / inodes_per_group st')
            + (3 + g_group_desc_block_count g)) by lia.
    rewrite Hzero; [apply load_bytes_zeros; exact Hoff | exact Hgrp' | lia
                   | apply Hmeta; [exact Hgrp' | lia]].
Qed.

Lemma format_zero_fills_witness :
  exists st' front,
    format cfg17 env0 blank17 = Ok st' /\
    is_data_block g17 front /\
    (forall grp o, 0 <= grp < g_full_group_count g17 ->
       2 + g_group_desc_block_count g17 <= o < g_blocks_per_group g17 ->
       get_group_index st' grp + o <> front ->
       blk st' (get_group_index st' grp + o) = zeros (BS cfg17)) /\
    (forall grp, 0 <= grp < g_full_group_count g17 ->
       blk st' (get_group_inode_bitmap_index st' grp) = zeros (BS cfg17)) /\
    (forall k, k < 2 ^ 64 -> inode_reachable cfg17 st' k ->
       exists s, get_inode cfg17 k st' = Ok (zeros INO.size, s)).
Proof.
  apply (format_zero_fills cfg17 env0 blank17 g17);
    [apply formattable_blank17 | reflexivity].
Defined.

(** ** Where the root directory goes, and the block bitmaps after [format] *)

Lemma alloc_one_first_free st gid fuel s :
  2 <= full_group_count st < 2 ^ 64 -> 0 <= gid < full_group_count st ->
  bm_nextBit (fst (get_group_block_bitmap gid st)) 0 = Some s ->
  get_free_block_indexes (S fuel) gid 1 st
  = Ok ([u64 (s + get_group_index st gid)], snd (get_group_block_bitmap gid st)).
Proof.
  intros Hn Hgid Hs.
  unfold get_free_block_indexes, get_free_block_indexes_seen. cbn [alloc_loop].
  destruct (Z.eqb_spec (full_group_count st) 0) as [|_]; [lia|].
  rewrite (u64_small (gid + 1)) by lia.
  destruct (Z.eqb_spec ((gid + 1) mod full_group_count st) gid) as [E|_].
  { exfalso. destruct (Z.eq_dec (gid + 1) (full_group_count st)) as [E1|E1].
    - rewrite E1, Z.mod_same in E by lia. lia.
    - rewrite Z.mod_small in E by lia. lia. }
  destruct (get_group_block_bitmap gid st) as [bm st1]. cbn [fst snd] in *.
  cbn [scan_group]. rewrite Hs. reflexivity.
Qed.

Lemma root_directory_block_length cfg buf :
  root_directory_block cfg = Some buf -> length buf = BS cfg.
Proof.
  unfold root_directory_block. cbv zeta.
  destruct (roundup _ 4) as [r|]; [|discriminate]. cbn [bind_opt].
  intros [= <-]. rewrite !length_store. apply length_zeros.
Qed.

(** A [format] that goes through puts the root directory into the first
    block that the bitmap of group 0 shows free after the layout steps. *)
Lemma format_root_block cfg env st0 g :
  formattable cfg g st0 ->
  exists st' lbs s buf,
    format cfg env st0 = Ok st' /\
    geo_facts g /\ has_geometry g st' /\
    (Z.to_nat ((g_blocks_per_group g + 7) / 8) <= BS cfg)%nat /\
    bm_nextBit (BitMap_new (blk (format_layout cfg env g lbs st0)
                                (group_base g 0 + 1 + g_group_desc_block_count g))
                  (g_blocks_per_group g)) 0 = Some s /\
    metadata_blocks g <= s < g_blocks_per_group g /\
    root_directory_block cfg = Some buf /\
    blk st' (group_base g 0 + s) = buf /\
    forall j, j <> group_base g 0 + s ->
      blk st' j = blk (format_layout cfg env g lbs st0) j.
Proof.
  intros Hf. destruct (format_returns cfg env st0 g Hf) as (st' & Hfmt).
  destruct Hf as (Hdev & Hc & Hfit & Hb & H2 & k & Hk & Hfree).
  pose proof Hfmt as (g' & lbs & bm & root_ino & st1 & Hg' & _ & _ & Hl & Hr & Est)%format_inv.
  rewrite Hc in Hg'. injection Hg' as <-.
  pose proof (buffers_in_bounds_block_size _ _ Hb) as Hbs.
  assert (Hfacts : geo_facts g) by (eapply geometry_fits_facts; eauto; lia).
  assert (Hnb : (Z.to_nat ((g_blocks_per_group g + 7) / 8) <= BS cfg)%nat).
  { unfold buffers_in_bounds in Hb. repeat (apply andb_prop in Hb as [Hb ?]). unfold BS. lia. }
  destruct (format_layout_spec cfg g Hfacts Hnb env lbs st0 Hdev) as (HgL & _ & _ & Hbm).
  set (L := format_layout cfg env g lbs st0) in *.
  assert (H0 : 0 <= 0 < g_full_group_count g) by lia.
  destruct (Hbm 0 H0) as (Hset & _ & Hkeep).
  set (bb := group_base g 0 + 1 + g_group_desc_block_count g) in *.
  set (bm0 := BitMap_new (blk L bb) (g_blocks_per_group g)) in *.
  assert (Hnext : exists s, bm_nextBit bm0 0 = Some s).
  { destruct (bm_nextBit bm0 0) as [s|] eqn:E; [eauto|]. exfalso.
    pose proof (bm_nextBit_None _ _ E k) as Hall.
    cbn [bm0 BitMap_new bm_nbits] in Hall.
    rewrite Hkeep in Hall by lia. rewrite Hfree in Hall.
    pose proof Hfacts as []. unfold metadata_blocks in *.
    discriminate Hall. lia. }
  destruct Hnext as (s & Hs).
  pose proof Hs as (Hsr & Hsun & _)%bm_nextBit_Some.
  cbn [bm0 BitMap_new bm_nbits] in Hsr.
  assert (Hsm : metadata_blocks g <= s).
  { destruct (Z.le_gt_cases (metadata_blocks g) s) as [|Hlt]; [assumption|].
    rewrite Hset in Hsun by lia. discriminate. }
  apply add_root_directory_inv in Hr
    as (front & rest & st_a & buf & Ha & _ & -> & Hd & ->).
  set (L1 := snd (get_group_inode_bitmap 0 L)) in *.
  assert (HgL1 : has_geometry g L1) by exact HgL.
  assert (Hfgc : full_group_count L = g_full_group_count g) by apply HgL.
  assert (Hbm1 : fst (get_group_block_bitmap 0 L1) = bm0).
  { unfold get_group_block_bitmap. cbn [fst].
    rewrite (get_group_block_bitmap_index_eq g L1 0 HgL1 Hfacts H0).
    replace (blocks_per_group (read_block _ L1)) with (g_blocks_per_group g)
      by (symmetry; apply HgL1).
    reflexivity. }
  pose proof Hfacts as Hff. destruct Hff. unfold metadata_blocks in *.
  change (2 ^ 32) with 4294967296 in *. change (2 ^ 16) with 65536 in *.
  replace (Z.to_nat (full_group_count L))
    with (S (Z.to_nat (full_group_count L) - 1)) in Ha by lia.
  rewrite (alloc_one_first_free L1 0 _ s) in Ha;
    [|change (full_group_count L1) with (full_group_count L); rewrite Hfgc;
      change (2 ^ 64) with 18446744073709551616; nia
     |change (full_group_count L1) with (full_group_count L); lia
     |rewrite Hbm1; exact Hs].
  injection Ha as <- <- <-.
  rewrite (get_group_index_eq g L1 0 HgL1 Hfacts H0) in Est.
  pose proof (group_bounds g 0 Hfacts H0) as Hgb.
  rewrite u64_small in Est by (change (2 ^ 64) with 18446744073709551616; lia).
  replace (s + group_base g 0) with (group_base g 0 + s) in Est by lia.
  set (front := group_base g 0 + s) in *.
  assert (Hfront : load (INO.i_block_at 0)
                     (store (INO.i_block_at 0) front (build_root_inode env)) = front).
  { rewrite load_store_same.
    - apply Z.mod_small. change (256 ^ Z.of_nat (f_width (INO.i_block_at 0))) with 4294967296.
      subst front. lia.
    - unfold build_root_inode. rewrite length_store_bytes, !length_store, length_uninitialised.
      unfold INO.size, INO.i_block_at. cbn [f_off f_width]. lia. }
  rewrite Hfront in Est.
  exists st', lbs, s, buf. split; [exact Hfmt|]. split; [exact Hfacts|].
  split; [rewrite Est; exact HgL|]. split; [exact Hnb|]. split; [exact Hs|].
  split; [unfold metadata_blocks; lia|]. split; [exact Hd|]. rewrite Est. split.
  - change (blk (sync ?x)) with (blk x). rewrite blk_write_block_same.
    apply firstn_all2. rewrite (root_directory_block_length cfg buf Hd). lia.
  - intros j Hj. change (blk (sync ?x)) with (blk x). unfold blk at 1.
    rewrite blocks_write_block_other by exact Hj. reflexivity.
Qed.


Lemma bitmap_block_not_root g grp s :
  geo_facts g -> 0 <= grp < g_full_group_count g ->
  metadata_blocks g <= s < g_blocks_per_group g ->
  group_base g grp + 1 + g_group_desc_block_count g <> group_base g 0 + s.
Proof.
  intros Hf Hgrp Hs E.
  destruct (group_offset_unique g grp 0 (1 + g_group_desc_block_count g) s Hf) as [_ E'];
    destruct Hf; unfold metadata_blocks in *; lia.
Qed.

(** X23. [format] does not clear the block bitmaps: in the block bitmap of
    every full group, as [get_group_block_bitmap] reads it afterwards, a
    bit is set exactly when it is a metadata bit (below
    [3 + group_desc_block_count + inodes_table_block_count]) or was set in
    that block of the device before [format]. *)
Theorem format_keeps_stale_bits (cfg : Config) (env : Env) (st0 : Ext2m) (g : Geometry) :
  formattable cfg g st0 ->
  exists st',
    format cfg env st0 = Ok st' /\
    forall grp k, 0 <= grp < g_full_group_count g -> 0 <= k ->
      bm_test (fst (get_group_block_bitmap grp st')) k
      = (k <? metadata_blocks g)
        || bm_test (BitMap_new (blk st0 (get_group_block_bitmap_index st' grp))
                      (g_blocks_per_group g)) k.
Proof.
  intros Hf.
  destruct (format_root_block cfg env st0 g Hf)
    as (st' & lbs & s & buf & Hfmt & Hfacts & Hgeo & Hnb & _ & Hs & _ & _ & Hother).
  exists st'. split; [exact Hfmt|]. intros grp k Hgrp Hk.
  destruct (format_layout_spec cfg g Hfacts Hnb env lbs st0 (proj1 Hf))
    as (_ & _ & _ & Hbm).
  destruct (Hbm grp Hgrp) as (Hset & _ & Hkeep).
  unfold get_group_block_bitmap. cbn [fst].
  change (_buf (read_block ?i ?s)) with (blk s i).
  change (blocks_per_group (read_block ?i ?s)) with (blocks_per_group s).
  replace (blocks_per_group st') with (g_blocks_per_group g) by (symmetry; apply Hgeo).
  rewrite (get_group_block_bitmap_index_eq g st' grp Hgeo Hfacts Hgrp).
  rewrite Hother by (apply bitmap_block_not_root; assumption).
  destruct (Z.ltb_spec k (metadata_blocks g)) as [Hlt|Hge].
  - rewrite Hset by lia. reflexivity.
  - rewrite Hkeep by lia. reflexivity.
Qed.

Lemma format_keeps_stale_bits_witness :
  exists st',
    format cfg17 env0 blank17 = Ok st' /\
    forall grp k, 0 <= grp < g_full_group_count g17 -> 0 <= k ->
      bm_test (fst (get_group_block_bitmap grp st')) k
      = (k <? metadata_blocks g17)
        || bm_test (BitMap_new (blk blank17 (get_group_block_bitmap_index st' grp))
                      (g_blocks_per_group g17)) k.
Proof. apply (format_keeps_stale_bits cfg17 env0 blank17 g17), formattable_blank17. Defined.

Lemma bm_test_zeros m nbits k : bm_test (BitMap_new (zeros m) nbits) k = false.
Proof.
  unfold bm_test, BitMap_new. cbn [bm_bytes].
  unfold zeros. rewrite take_replicate. fold (zeros (Z.to_nat ((nbits + 7) / 8) `min` m)).
  rewrite byte_at_zeros. apply Z.testbit_0_l.
Qed.

Lemma count_unset_all_clear n bm i :
  (forall k, i <= k < i + Z.of_nat n -> bm_test bm k = false) ->
  count_unset n bm i = Z.of_nat n.
Proof.
  revert i. induction n as [|n IH]; intros i H; cbn [count_unset]; [reflexivity|].
  rewrite H by lia. rewrite IH by (intros k Hk; apply H; lia). lia.
Qed.

(** X24. On a blank device [format] puts the root directory into the first
    data block of group 0, and that block stays free in the block bitmap:
    every full group, group 0 included, has as many free blocks in its
    bitmap as it has data blocks. *)
Theorem format_blank_device_free_blocks
    (cfg : Config) (env : Env) (st0 : Ext2m) (g : Geometry) :
  formattable cfg g st0 -> (forall j, blk st0 j = zeros (BS cfg)) ->
  exists st' buf,
    format cfg env st0 = Ok st' /\
    root_directory_block cfg = Some buf /\
    blk st' (get_group_data_table_index st' 0) = buf /\
    bm_test (fst (get_group_block_bitmap 0 st'))
      (get_group_data_table_index st' 0 - get_group_index st' 0) = false /\
    forall grp, 0 <= grp < g_full_group_count g ->
      free_blocks_in_group st' grp = g_data_block_count g.
Proof.
  intros Hf Hblank.
  destruct (format_root_block cfg env st0 g Hf)
    as (st' & lbs & s & buf & Hfmt & Hfacts & Hgeo & Hnb & Hnext & Hs & Hd & Hroot & Hother).
  destruct (format_layout_spec cfg g Hfacts Hnb env lbs st0 (proj1 Hf))
    as (_ & _ & _ & Hbm).
  assert (H0 : 0 <= 0 < g_full_group_count g) by (destruct Hfacts; lia).
  assert (Hbits : forall grp k, 0 <= grp < g_full_group_count g -> 0 <= k ->
            bm_test (BitMap_new (blk (format_layout cfg env g lbs st0)
                                   (group_base g grp + 1 + g_group_desc_block_count g))
                       (g_blocks_per_group g)) k = (k <? metadata_blocks g)).
  { intros grp k Hgrp Hk. destruct (Hbm grp Hgrp) as (Hset & _ & Hkeep).
    destruct (Z.ltb_spec k (metadata_blocks g)) as [Hlt|Hge].
    - apply Hset. lia.
    - rewrite Hkeep by lia. rewrite Hblank. apply bm_test_zeros. }
  assert (Hsm : s = metadata_blocks g).
  { apply bm_nextBit_Some in Hnext as (_ & Hun & Hall).
    destruct (Z.eq_dec s (metadata_blocks g)) as [|Hne]; [assumption|]. exfalso.
    specialize (Hall (metadata_blocks g)).
    rewrite Hbits in Hall by (try assumption; destruct Hfacts; unfold metadata_blocks; lia).
    destruct (Z.ltb_spec (metadata_blocks g) (metadata_blocks g)); [lia|].
    specialize (Hall ltac:(destruct Hfacts; unfold metadata_blocks in *; lia)).
    discriminate. }
  subst s.
  assert (Hbm' : forall grp, 0 <= grp < g_full_group_count g ->
            fst (get_group_block_bitmap grp st')
            = BitMap_new (blk (format_layout cfg env g lbs st0)
                            (group_base g grp + 1 + g_group_desc_block_count g))
                (g_blocks_per_group g)).
  { intros grp Hgrp. unfold get_group_block_bitmap. cbn [fst].
    change (_buf (read_block ?i ?s)) with (blk s i).
    change (blocks_per_group (read_block ?i ?s)) with (blocks_per_group s).
    replace (blocks_per_group st') with (g_blocks_per_group g) by (symmetry; apply Hgeo).
    rewrite (get_group_block_bitmap_index_eq g st' grp Hgeo Hfacts Hgrp).
    rewrite Hother by (apply bitmap_block_not_root; assumption). reflexivity. }
  exists st', buf. split; [exact Hfmt|]. split; [exact Hd|].
  rewrite (get_group_data_table_index_eq g st' 0 Hgeo Hfacts H0).
  rewrite (get_group_index_eq g st' 0 Hgeo Hfacts H0).
  split; [exact Hroot|]. split.
  - rewrite (Hbm' 0 H0).
    replace (group_base g 0 + metadata_blocks g - group_base g 0)
      with (metadata_blocks g) by lia.
    rewrite Hbits by (try assumption; destruct Hfacts; unfold metadata_blocks; lia).
    apply Z.ltb_irrefl.
  - intros grp Hgrp. unfold free_blocks_in_group. rewrite (Hbm' grp Hgrp).
    unfold unset_from. cbn [BitMap_new bm_nbits].
    rewrite (data_block_count_exact cfg g (proj1 (proj2 Hf)) Hfacts).
    pose proof Hfacts as []. unfold metadata_blocks in *.
    set (m := 3 + g_group_desc_block_count g + g_inodes_table_block_count g) in *.
    replace (Z.to_nat (g_blocks_per_group g - 0))
      with (Z.to_nat m + Z.to_nat (g_blocks_per_group g - m))%nat by lia.
    rewrite count_unset_app.
    rewrite count_unset_all_set.
    2:{ intros k Hk. rewrite Hbits by (try assumption; lia).
        apply Z.ltb_lt. unfold metadata_blocks. fold m. lia. }
    rewrite count_unset_all_clear.
    2:{ intros k Hk. rewrite Hbits by (try assumption; lia).
        apply Z.ltb_ge. unfold metadata_blocks. fold m. lia. }
    lia.
Qed.

Lemma format_blank_device_free_blocks_witness :
  exists st' buf,
    format cfg17 env0 blank17 = Ok st' /\
    root_directory_block cfg17 = Some buf /\
    blk st' (get_group_data_table_index st' 0) = buf /\
    bm_test (fst (get_group_block_bitmap 0 st'))
      (get_group_data_table_index st' 0 - get_group_index st' 0) = false /\
    forall grp, 0 <= grp < g_full_group_count g17 ->
      free_blocks_in_group st' grp = g_data_block_count g17.
Proof.
  apply (format_blank_device_free_blocks cfg17 env0 blank17 g17);
    [apply formattable_blank17 | reflexivity].
Defined.

(** ** The copies of the superblock and of the descriptor table *)

Lemma sb_s_block_group_nr cfg env g lbs :
  load SB.s_block_group_nr (build_super_block cfg env g lbs) = 0.
Proof. unfold build_super_block. cbv zeta. load_chain. reflexivity. Qed.

Lemma u32_idem x : u32 x mod 2 ^ 32 = u32 x.
Proof. unfold u32, wrap. apply Z.mod_mod. lia. Qed.

Lemma build_group_desc_pointers env st g i :
  0 <= i < g_full_group_count g ->
  let gd := build_group_desc env st g in
  load (at_offset (Z.to_nat i * GD.size) GD.bg_block_bitmap) gd
  = get_group_block_bitmap_index st i /\
  load (at_offset (Z.to_nat i * GD.size) GD.bg_inode_bitmap) gd
  = get_group_inode_bitmap_index st i /\
  load (at_offset (Z.to_nat i * GD.size) GD.bg_inode_table) gd
  = get_group_inode_table_index st i /\
  load (at_offset (Z.to_nat i * GD.size) GD.bg_used_dirs_count) gd = 0.
Proof.
  intros Hi gd. subst gd. unfold build_group_desc.
  set (n := Z.to_nat (g_full_group_count g)).
  pose (P := fun (k : Z) (buf : list Z) =>
    length buf = (n * GD.size)%nat /\
    forall i, 0 <= i < k ->
      load (at_offset (Z.to_nat i * GD.size) GD.bg_block_bitmap) buf
      = get_group_block_bitmap_index st i /\
      load (at_offset (Z.to_nat i * GD.size) GD.bg_inode_bitmap) buf
      = get_group_inode_bitmap_index st i /\
      load (at_offset (Z.to_nat i * GD.size) GD.bg_inode_table) buf
      = get_group_inode_table_index st i /\
      load (at_offset (Z.to_nat i * GD.size) GD.bg_used_dirs_count) buf = 0).
  match goal with |- load _ ?b = _ /\ _ => assert (P (0 + Z.of_nat n) b) as (_ & H) end.
  { apply for_range_ind; unfold P.
    - split; [apply length_uninitialised | intros; lia].
    - intros k buf Hk (Hlen & Hprev). unfold init_group_desc. cbv zeta.
      split; [rewrite !length_store; exact Hlen|].
      intros j Hj. destruct (decide (j = k)) as [->|Hne].
      + repeat split.
        * rewrite !load_store_other by (apply apart_intro; gd_fields; lia).
          rewrite load_store_same by (rewrite ?length_store; gd_fields; lia).
          apply u32_idem.
        * rewrite !load_store_other by (apply apart_intro; gd_fields; lia).
          rewrite load_store_same by (rewrite ?length_store; gd_fields; lia).
          apply u32_idem.
        * rewrite !load_store_other by (apply apart_intro; gd_fields; lia).
          rewrite load_store_same by (rewrite ?length_store; gd_fields; lia).
          apply u32_idem.
        * rewrite load_store_same by (rewrite ?length_store; gd_fields; lia).
          reflexivity.
      + destruct (Hprev j ltac:(lia)) as (H1 & H2 & H3 & H4). repeat split.
        * rewrite !load_store_other by (apply apart_intro; gd_fields; lia). exact H1.
        * rewrite !load_store_other by (apply apart_intro; gd_fields; lia). exact H2.
        * rewrite !load_store_other by (apply apart_intro; gd_fields; lia). exact H3.
        * rewrite !load_store_other by (apply apart_intro; gd_fields; lia). exact H4. }
  apply H. lia.
Qed.

(** X25. After [format] every full group holds the same superblock copy as
    block 1, with [s_block_group_nr] 0 in all of them, and the same
    descriptor table; descriptor [i] names the block bitmap, the inode
    bitmap and the inode table of group [i] as the layout functions give
    them, and counts no directory. *)
Theorem format_copies_identical (cfg : Config) (env : Env) (st0 : Ext2m) (g : Geometry) :
  formattable cfg g st0 -> BLOCK_SIZE cfg < 2 ^ 16 ->
  exists st',
    format cfg env st0 = Ok st' /\
    forall grp, 0 <= grp < g_full_group_count g ->
      blk st' (get_group_super_block_index st' grp) = blk st' 1 /\
      load SB.s_block_group_nr (blk st' (get_group_super_block_index st' grp)) = 0 /\
      desc_table_on_disk st' grp = desc_table_on_disk st' 0 /\
      forall i, 0 <= i < g_full_group_count g ->
        let d := (Z.to_nat i * GD.size)%nat in
        load (at_offset d GD.bg_block_bitmap) (desc_table_on_disk st' grp)
        = get_group_block_bitmap_index st' i /\
        load (at_offset d GD.bg_inode_bitmap) (desc_table_on_disk st' grp)
        = get_group_inode_bitmap_index st' i /\
        load (at_offset d GD.bg_inode_table) (desc_table_on_disk st' grp)
        = get_group_inode_table_index st' i /\
        load (at_offset d GD.bg_used_dirs_count) (desc_table_on_disk st' grp) = 0.
Proof.
  intros Hf Hbs16. destruct (format_returns cfg env st0 g Hf) as (st' & Hfmt).
  exists st'. split; [exact Hfmt|].
  destruct Hf as (Hdev & Hc & Hfit & Hb & _).
  destruct (format_metadata cfg env st0 st' g Hdev Hfmt Hc Hfit)
    as (lbs & _ & _ & Hfacts & Hgeo & Hsb & _).
  pose proof (buffers_in_bounds_block_size _ _ Hb) as Hbs.
  assert (H0 : 0 <= 0 < g_full_group_count g) by (destruct Hfacts; lia).
  intros grp Hgrp.
  rewrite (get_group_super_block_index_eq g st' grp Hgeo Hfacts Hgrp), (Hsb grp Hgrp).
  rewrite !(desc_table_on_disk_format cfg env st0 st' g) by assumption.
  split; [|split; [|split; [reflexivity|]]].
  - rewrite <- (Hsb 0 H0). reflexivity.
  - rewrite load_super_block_image by (try lia; vm_compute; lia).
    apply sb_s_block_group_nr.
  - intros i Hi d. subst d.
    destruct (build_group_desc_fields env (set_geometry g st0) g i Hi) as (Hlen & _).
    destruct (build_group_desc_pointers env (set_geometry g st0) g i Hi)
      as (H1 & H2 & H3 & H4).
    unfold group_desc_staging.
    assert (Hfit' : (Z.to_nat (g_full_group_count g) * GD.size
                     <= Z.to_nat (u64 (BLOCK_SIZE cfg * g_group_desc_block_count g)))%nat).
    { unfold buffers_in_bounds in Hb.
      apply andb_prop in Hb as [Hb _]. apply andb_prop in Hb as [Hb _].
      apply andb_prop in Hb as [_ Hb]. apply Z.leb_le in Hb.
      pose proof Hfacts as [].
      change (2 ^ 32) with 4294967296 in *.
      rewrite (u64_small (g_full_group_count g * _)) in Hb
        by (unfold GD.size; change (2 ^ 64) with 18446744073709551616; nia).
      unfold GD.size in *. lia. }
    pose proof Hfacts as [].
    rewrite !load_store_bytes_inside
      by (rewrite ?Hlen, ?length_zeros; try exact Hfit'; gd_fields; nia).
    rewrite H1, H2, H3, H4.
    assert (Hidx : forall j, get_group_index (set_geometry g st0) j = get_group_index st' j).
    { intros j. unfold get_group_index. cbn [set_geometry blocks_per_group].
      replace (blocks_per_group st') with (g_blocks_per_group g)
        by (symmetry; apply Hgeo). reflexivity. }
    unfold get_group_inode_table_index, get_group_inode_bitmap_index,
      get_group_block_bitmap_index, get_group_group_desc_table_index.
    rewrite Hidx. cbn [set_geometry group_desc_block_count].
    replace (group_desc_block_count st') with (g_group_desc_block_count g)
      by (symmetry; apply Hgeo).
    repeat split; reflexivity.
Qed.

Lemma format_copies_identical_witness :
  exists st',
    format cfg17 env0 blank17 = Ok st' /\
    forall grp, 0 <= grp < g_full_group_count g17 ->
      blk st' (get_group_super_block_index st' grp) = blk st' 1 /\
      load SB.s_block_group_nr (blk st' (get_group_super_block_index st' grp)) = 0 /\
      desc_table_on_disk st' grp = desc_table_on_disk st' 0 /\
      forall i, 0 <= i < g_full_group_count g17 ->
        let d := (Z.to_nat i * GD.size)%nat in
        load (at_offset d GD.bg_block_bitmap) (desc_table_on_disk st' grp)
        = get_group_block_bitmap_index st' i /\
        load (at_offset d GD.bg_inode_bitmap) (desc_table_on_disk st' grp)
        = get_group_inode_bitmap_index st' i /\
        load (at_offset d GD.bg_inode_table) (desc_table_on_disk st' grp)
        = get_group_inode_table_index st' i /\
        load (at_offset d GD.bg_used_dirs_count) (desc_table_on_disk st' grp) = 0.
Proof.
  apply (format_copies_identical cfg17 env0 blank17 g17);
    [apply formattable_blank17 | reflexivity].
Defined.

(** ** The constructor *)




Lemma read_group_desc_blocks_spec cfg st buf0 :
  (forall j, 0 <= j < group_desc_block_count st -> length (blk st (2 + j)) = BS cfg) ->
  length buf0 = (Z.to_nat (group_desc_block_count st) * BS cfg)%nat ->
  let r := read_group_desc_blocks cfg st buf0 in
  fst r = desc_table_on_disk st 0 /\
  same_geometry st (snd r) /\ _buf (snd r) = _buf st /\
  (forall j, blk (snd r) j = blk st j) /\
  io_log (_disk (snd r))
  = rev (map (fun j => EvRead (2 + Z.of_nat j))
           (seq 0 (Z.to_nat (group_desc_block_count st))))
    ++ io_log (_disk st).
Proof.
  intros Hlen Hbuf r. subst r. unfold read_group_desc_blocks.
  set (k := Z.to_nat (group_desc_block_count st)) in *.
  pose (P := fun (i : Z) (p : list Z * Ext2m) =>
    length (fst p) = (k * BS cfg)%nat /\
    (forall j, (j < Z.to_nat i)%nat ->
       take (BS cfg) (drop (j * BS cfg) (fst p)) = blk st (2 + Z.of_nat j)) /\
    same_geometry st (snd p) /\ _buf (snd p) = _buf st /\
    (forall j, blk (snd p) j = blk st j) /\
    io_log (_disk (snd p))
    = rev (map (fun j => EvRead (2 + Z.of_nat j)) (seq 0 (Z.to_nat i)))
      ++ io_log (_disk st)).
  match goal with |- fst ?p = _ /\ _ =>
    assert (P (0 + Z.of_nat k) p) as (Hl & Hch & Hg & Hb & Hblk & Hlog) end.
  { apply for_range_ind; unfold P.
    - cbn [fst snd]. split; [exact Hbuf|]. split; [intros; lia|].
      split; [apply same_geometry_refl|]. repeat split.
    - intros i [buf s] Hi (Hl & Hch & Hg & Hb & Hblk & Hlog). cbn [fst snd] in *.
      unfold cache_read_block.
      cbn [fst snd with_disk _disk _buf blk blocks io_log].
      assert (Hbi : length (blocks (_disk s) (2 + i)) = BS cfg).
      { change (blocks (_disk s) (2 + i)) with (blk s (2 + i)). rewrite Hblk.
        apply Hlen. lia. }
      assert (Htk : take (BS cfg) (blocks (_disk s) (2 + i)) = blocks (_disk s) (2 + i))
        by (apply firstn_all2; lia).
      rewrite Htk.
      split; [rewrite length_store_bytes; exact Hl|]. split; [|split; [|split; [|split]]].
      + intros j Hj. apply list_eq. intros q.
        rewrite lookup_take, lookup_drop.
        destruct (decide (q < BS cfg)%nat) as [Hq|Hq].
        * destruct (decide (j = Z.to_nat i)) as [->|Hne].
          -- unfold store_bytes. rewrite list_lookup_inserts by nia.
             replace (Z.to_nat i * BS cfg + q - Z.to_nat i * BS cfg)%nat with q by lia.
             change (blocks (_disk s) (2 + i)) with (blk s (2 + i)).
             rewrite Hblk. f_equal. f_equal. lia.
          -- unfold store_bytes. rewrite list_lookup_inserts_lt by nia.
             rewrite <- (Hch j ltac:(lia)).
             rewrite lookup_take_lt, lookup_drop by lia. reflexivity.
        * symmetry. apply lookup_ge_None_2.
          rewrite (Hlen (Z.of_nat j)) by lia. lia.
      + exact Hg.
      + exact Hb.
      + exact Hblk.
      + rewrite Hlog.
        replace (Z.to_nat (i + 1)) with (Z.to_nat i + 1)%nat by lia.
        rewrite seq_app, map_app, rev_app_distr. cbn [seq map rev app].
        replace (Z.of_nat (0 + Z.to_nat i)) with i by lia. reflexivity. }
  cbn [fst snd] in *.
  replace (Z.to_nat (0 + Z.of_nat k)) with k in * by lia.
  split; [|split; [exact Hg|split; [exact Hb|split; [exact Hblk | exact Hlog]]]].
  unfold desc_table_on_disk. fold k.
  change (get_group_group_desc_table_index st 0) with 2.
  etransitivity; [symmetry; apply (concat_chunks (BS cfg) k); exact Hl|].
  f_equal. apply map_ext_in. intros j [_ Hj]%in_seq. apply Hch. lia.
Qed.

Lemma load_cached_metadata_spec cfg junk g st :
  geo_facts g -> has_geometry g st -> buffers_in_bounds cfg g = true ->
  BLOCK_SIZE cfg < 2 ^ 16 ->
  (forall j, 0 <= j < g_group_desc_block_count g -> length (blk st (2 + j)) = BS cfg) ->
  exists o,
    load_cached_metadata cfg junk st = Ok o /\
    _superb o = load_bytes 0 SB.size (blk st 1) /\
    _group_desc o = descriptors_on_disk st /\
    same_geometry st (members o) /\
    (forall j, blk (members o) j = blk st j) /\
    io_log (_disk (members o))
    = rev (map (fun j => EvRead (2 + Z.of_nat j))
             (seq 0 (Z.to_nat (g_group_desc_block_count g))))
      ++ EvRead 1 :: io_log (_disk st).
Proof.
  intros Hfacts Hgeo Hb Hbs16 Hlen.
  pose proof (buffers_in_bounds_block_size _ _ Hb) as Hbs.
  pose proof Hgeo as (Hfgc & Hbpg & Hipg & Hgd & Hit).
  pose proof Hfacts as []. unfold metadata_blocks in *.
  change (2 ^ 16) with 65536 in *. change (2 ^ 32) with 4294967296 in *.
  unfold load_cached_metadata.
  set (s1 := read_block 1 st).
  destruct (Nat.leb_spec SB.size (BS cfg)) as [_|Hx];
    [|unfold SB.size, BS in Hx; lia].
  cbn [negb].
  change (full_group_count s1) with (full_group_count st).
  change (group_desc_block_count s1) with (group_desc_block_count st).
  rewrite Hfgc, Hgd.
  destruct (Z.ltb_spec (Z.of_nat GD.size * g_full_group_count g) (2 ^ 64)) as [_|Hx];
    [|unfold GD.size in Hx; change (2 ^ 64) with 18446744073709551616 in Hx; nia].
  destruct (Z.ltb_spec (BLOCK_SIZE cfg * g_group_desc_block_count g) (2 ^ 64)) as [_|Hx];
    [|change (2 ^ 64) with 18446744073709551616 in Hx; nia].
  destruct (Z.leb_spec (g_group_desc_block_count g) (2 ^ 31 - 2)) as [_|Hx];
    [|change (2 ^ 31) with 2147483648 in Hx; lia].
  cbn [negb].
  assert (Hsize : Z.to_nat (BLOCK_SIZE cfg * g_group_desc_block_count g)
                  = (Z.to_nat (group_desc_block_count s1) * BS cfg)%nat).
  { change (group_desc_block_count s1) with (group_desc_block_count st).
    rewrite Hgd. unfold BS. rewrite Z2Nat.inj_mul by lia. lia. }
  destruct (read_group_desc_blocks_spec cfg s1
              (uninitialised junk (Z.to_nat (BLOCK_SIZE cfg * g_group_desc_block_count g))))
    as (Hbuf & Hsg & _ & Hblk & Hlog).
  { intros j Hj. change (blk s1 (2 + j)) with (blk st (2 + j)). apply Hlen.
    change (group_desc_block_count s1) with (group_desc_block_count st) in Hj. lia. }
  { rewrite length_uninitialised. exact Hsize. }
  destruct (read_group_desc_blocks cfg s1 _) as [buf s2]. cbn [fst snd] in *.
  change (full_group_count s2) with (full_group_count s2).
  replace (full_group_count s2) with (g_full_group_count g)
    by (rewrite (proj1 Hsg); symmetry; exact Hfgc).
  assert (Hpre : (Z.to_nat (Z.of_nat GD.size * g_full_group_count g)
                  <= Z.to_nat (BLOCK_SIZE cfg * g_group_desc_block_count g))%nat).
  { unfold buffers_in_bounds in Hb.
    apply andb_prop in Hb as [Hb _]. apply andb_prop in Hb as [Hb _].
    apply andb_prop in Hb as [_ Hb]. apply Z.leb_le in Hb.
    rewrite (u64_small (g_full_group_count g * _)) in Hb
      by (unfold GD.size; change (2 ^ 64) with 18446744073709551616; nia).
    rewrite u64_small in Hb by (change (2 ^ 64) with 18446744073709551616; nia).
    lia. }
  destruct (Nat.leb_spec (Z.to_nat (Z.of_nat GD.size * g_full_group_count g))
              (Z.to_nat (BLOCK_SIZE cfg * g_group_desc_block_count g))) as [_|Hx]; [|lia].
  cbn [negb]. eexists. split; [reflexivity|]. cbn [members _superb _group_desc].
  split; [reflexivity|]. split.
  { unfold descriptors_on_disk. rewrite Hbuf, Hfgc. reflexivity. }
  split; [exact Hsg|]. split; [exact Hblk|].
  rewrite Hlog. change (group_desc_block_count s1) with (group_desc_block_count st).
  rewrite Hgd. reflexivity.
Qed.

Lemma check_is_ext2_format_state cfg st b st' :
  check_is_ext2_format cfg st = Ok (b, st') -> st' = read_block 1 st.
Proof.
  unfold check_is_ext2_format.
  destruct (shl_int 1024 _); [|discriminate]. intros [= _ <-]. reflexivity.
Qed.

Lemma read_info_state cfg st st' :
  read_info cfg st = Ok st' ->
  _disk st' = _disk (read_block 1 st) /\ _buf st' = blk st 1.
Proof.
  unfold read_info. destruct (udiv _ _); [|discriminate].
  destruct (ceil _ _); [|discriminate]. destruct (ceil _ _); [|discriminate].
  intros [= <-]. split; reflexivity.
Qed.

Lemma formattable_read_block cfg g i st :
  formattable cfg g st -> formattable cfg g (read_block i st).
Proof. intros H. exact H. Qed.

(** The blocks the constructor reads back after a [format] that returns. *)
Lemma format_metadata_lengths cfg env st0 st' g :
  BLOCK_SIZE cfg < 2 ^ 16 ->
  device_ok cfg (_disk st0) ->
  format cfg env st0 = Ok st' ->
  block_group_calculation cfg = Some g -> geometry_fits g = true ->
  forall j, 0 <= j < g_group_desc_block_count g -> length (blk st' (2 + j)) = BS cfg.
Proof.
  intros Hbs16 Hdev Hfmt Hc Hfit j Hj.
  destruct (format_metadata cfg env st0 st' g Hdev Hfmt Hc Hfit)
    as (lbs & _ & Hb & Hfacts & Hgeo & _ & Hgd).
  pose proof (buffers_in_bounds_block_size _ _ Hb) as Hbs.
  assert (H0 : 0 <= 0 < g_full_group_count g) by (destruct Hfacts; lia).
  specialize (Hgd 0 j H0 Hj). change (group_base g 0 + 1 + j) with (2 + j) in Hgd.
  rewrite Hgd, length_take, length_drop.
  unfold group_desc_staging. rewrite length_store_bytes, length_zeros.
  pose proof Hfacts as []. unfold metadata_blocks in *.
  change (2 ^ 16) with 65536 in *.
  rewrite u64_small by (change (2 ^ 64) with 18446744073709551616; nia).
  unfold BS. rewrite Z2Nat.inj_mul by lia. nia.
Qed.

Lemma only_reads_of_log st st' evs :
  same_geometry st st' -> (forall j, blk st' j = blk st j) ->
  io_log (_disk st') = evs ++ io_log (_disk st) -> Forall is_read evs ->
  only_reads st st'.
Proof. intros Hg Hb Hl He. split; [exact Hg|]. split; [exact Hb|]. eauto. Qed.

Lemma Forall_is_read_rev_map (l : list nat) :
  Forall is_read (rev (map (fun j => EvRead (2 + Z.of_nat j)) l)).
Proof.
  apply Forall_rev. induction l; cbn [map]; constructor; [exact I | assumption].
Qed.

(** X26. The constructor on a device that the probe rejects and that can be
    formatted: it runs [format] and returns; after [format] the device is
    only read; the object holds the geometry, [_superb] is the first
    [sizeof(ext2_super_block)] bytes of block 1 and [_group_desc] the first
    [full_group_count] descriptors of the table of group 0, as they are on
    the device. *)
Theorem Ext2m_ctor_formats
    (cfg : Config) (env : Env) (junk_heap : nat -> Z) (st0 : Ext2m) (g : Geometry) :
  formattable cfg g st0 -> BLOCK_SIZE cfg < 2 ^ 16 ->
  ~ probe_checks cfg (blk st0 1) ->
  load SB.s_log_block_size (blk st0 1) < 32 ->
  exists st' o,
    format cfg env (read_block 1 st0) = Ok st' /\
    Ext2m_ctor cfg env junk_heap st0 = Ok o /\
    only_reads st' (members o) /\
    has_geometry g (members o) /\
    _superb o = load_bytes 0 SB.size (blk st' 1) /\
    _group_desc o = descriptors_on_disk st' /\
    load SB.s_magic (_superb o) = EXT2_SUPER_MAGIC.
Proof.
  intros Hf Hbs16 Hnp Hshift.
  pose proof (formattable_read_block cfg g 1 st0 Hf) as Hf1.
  destruct (format_returns cfg env (read_block 1 st0) g Hf1) as (st' & Hfmt).
  pose proof Hf as (Hdev & Hc & Hfit & Hb & _).
  pose proof (buffers_in_bounds_block_size _ _ Hb) as Hbs.
  destruct (check_is_ext2_format_spec cfg st0) as (_ & Hrej).
  { change (2 ^ 16) with 65536 in *. change (2 ^ 31) with 2147483648. lia. }
  { apply load_range, Hdev. }
  destruct (Hrej Hshift Hnp) as (s1 & Hcheck).
  pose proof (check_is_ext2_format_state _ _ _ _ Hcheck) as ->.
  destruct (format_metadata cfg env (read_block 1 st0) st' g Hdev Hfmt Hc Hfit)
    as (lbs & _ & _ & Hfacts & Hgeo & Hsb & _).
  destruct (load_cached_metadata_spec cfg junk_heap g st' Hfacts Hgeo Hb Hbs16)
    as (o & Ho & Hsup & Hgd & Hsg & Hblk & Hlog).
  { exact (format_metadata_lengths cfg env (read_block 1 st0) st' g Hbs16 Hdev Hfmt Hc Hfit). }
  exists st', o. split; [exact Hfmt|]. split.
  { unfold Ext2m_ctor. rewrite Hcheck. cbn [negb]. rewrite Hfmt. exact Ho. }
  split.
  { eapply (only_reads_of_log st' (members o)
              (rev (map (fun j => EvRead (2 + Z.of_nat j))
                      (seq 0 (Z.to_nat (g_group_desc_block_count g)))) ++ [EvRead 1]));
      [exact Hsg | exact Hblk | rewrite Hlog, <- app_assoc; reflexivity|].
    apply Forall_app. split; [apply Forall_is_read_rev_map | repeat constructor]. }
  split; [eapply has_geometry_same; eassumption|].
  split; [exact Hsup|]. split; [exact Hgd|].
  rewrite Hsup.
  assert (H0 : 0 <= 0 < g_full_group_count g) by (destruct Hfacts; lia).
  specialize (Hsb 0 H0). change (group_base g 0) with 1 in Hsb. rewrite Hsb.
  unfold load_bytes. rewrite drop_0.
  rewrite <- (length_build_super_block cfg env g lbs) at 1.
  rewrite take_store_bytes_zeros
    by (rewrite length_build_super_block; unfold SB.size, BS; lia).
  apply sb_s_magic.
Qed.

Lemma Ext2m_ctor_formats_witness :
  exists st' o,
    format cfg17 env0 (read_block 1 blank17) = Ok st' /\
    Ext2m_ctor cfg17 env0 (fun _ => 0) blank17 = Ok o /\
    only_reads st' (members o) /\
    has_geometry g17 (members o) /\
    _superb o = load_bytes 0 SB.size (blk st' 1) /\
    _group_desc o = descriptors_on_disk st' /\
    load SB.s_magic (_superb o) = EXT2_SUPER_MAGIC.
Proof.
  apply (Ext2m_ctor_formats cfg17 env0 (fun _ => 0) blank17 g17);
    [apply formattable_blank17 | reflexivity
    | intros (Hm & _); vm_compute in Hm; discriminate
    | reflexivity].
Defined.

(** The probe on a device that [format] has just written, for 1 KB blocks. *)
Lemma probe_after_format cfg env st0 st' g s :
  BLOCK_SIZE cfg = 1024 -> 0 <= INODE_SIZE cfg < 2 ^ 16 ->
  device_ok cfg (_disk st0) ->
  block_group_calculation cfg = Some g -> geometry_fits g = true ->
  format cfg env st0 = Ok st' -> _disk s = _disk st' ->
  check_is_ext2_format cfg s = Ok (true, read_block 1 s).
Proof.
  intros Hbs Hino Hdev Hg Hfit Hfmt Hs.
  destruct (format_metadata cfg env st0 st' g Hdev Hfmt Hg Hfit)
    as (lbs & Hl & Hb & Hfacts & _ & Hsb & _).
  specialize (Hsb 0 ltac:(destruct Hfacts; lia)).
  change (group_base g 0) with 1 in Hsb. unfold blk in Hsb. rewrite <- Hs in Hsb.
  rewrite Hbs in Hl. change (log2 (1024 / 1024)) with (Some 0) in Hl. injection Hl as <-.
  assert (Hload : forall f, (f_off f + f_width f <= SB.size)%nat ->
            load f (blocks (_disk s) 1) = load f (build_super_block cfg env g 0)).
  { intros f Hf. rewrite Hsb. apply load_super_block_image; [lia | exact Hf]. }
  destruct (check_is_ext2_format_spec cfg s) as ((_ & Hacc) & _).
  - rewrite Hbs. split; reflexivity.
  - rewrite Hload by (vm_compute; lia). rewrite sb_s_log_block_size. reflexivity.
  - destruct Hacc as (s' & Hs').
    + unfold probe_checks. rewrite !Hload by (vm_compute; lia).
      rewrite sb_s_magic, sb_s_log_block_size, sb_s_first_data_block,
        sb_s_inodes_per_group, sb_s_first_ino, sb_s_inode_size.
      rewrite Hbs. destruct Hfacts.
      unfold buffers_in_bounds in Hb. repeat (apply andb_prop in Hb as [Hb ?]).
      rewrite Hbs in *.
      change (2 ^ 16) with 65536 in *. change (2 ^ 32) with 4294967296 in *.
      rewrite !Z.mod_small by lia.
      repeat split; try reflexivity.
      * rewrite Z.mod_small by lia.
        assert (g_inodes_per_group g + 7 < 8 * 1024 + 8); [|lia].
        pose proof (Z.div_mod (g_inodes_per_group g + 7) 8 ltac:(lia)).
        pose proof (Z.mod_pos_bound (g_inodes_per_group g + 7) 8 ltac:(lia)). lia.
      * apply Z.mod_small. lia.
    + rewrite Hs'. f_equal. f_equal. eapply check_is_ext2_format_state. exact Hs'.
Qed.

Lemma read_info_ext cfg s1 s2 r1 :
  blocks (_disk s2) 1 = blocks (_disk s1) 1 ->
  read_info cfg s1 = Ok r1 ->
  exists r2, read_info cfg s2 = Ok r2 /\ same_geometry r1 r2.
Proof.
  intros Hb. unfold read_info.
  cbn [read_block cache_read_block with_buf with_disk _buf _disk]. rewrite Hb.
  destruct (udiv _ _); [|discriminate].
  destruct (ceil _ _); [|discriminate]. destruct (ceil _ _); [|discriminate].
  intros [= <-]. eexists. split; [reflexivity|]. repeat split.
Qed.

(** X27. The constructor on a device that an earlier object has formatted
    (1 KB blocks): it returns without [format]; the device is only read and
    keeps every block; the new object has the geometry of the one that
    formatted, and its [_superb] and [_group_desc] are the superblock and
    the descriptors on the device. *)
Theorem Ext2m_ctor_mounts
    (cfg : Config) (env : Env) (st0 : Ext2m) (g : Geometry) :
  BLOCK_SIZE cfg = 1024 -> 0 <= INODE_SIZE cfg < 2 ^ 16 ->
  GROUP_DESC_SIZE cfg = Z.of_nat GD.size ->
  formattable cfg g st0 ->
  exists st',
    format cfg env st0 = Ok st' /\
    forall env2 junk_heap s, _disk s = _disk st' ->
      exists o,
        Ext2m_ctor cfg env2 junk_heap s = Ok o /\
        same_geometry st' (members o) /\
        (forall j, blk (members o) j = blk st' j) /\
        (exists evs, io_log (_disk (members o)) = evs ++ io_log (_disk st') /\
                     Forall is_read evs) /\
        _superb o = load_bytes 0 SB.size (blk st' 1) /\
        _group_desc o = descriptors_on_disk st'.
Proof.
  intros Hbs Hino Hgds Hf.
  destruct (format_returns cfg env st0 g Hf) as (st' & Hfmt).
  exists st'. split; [exact Hfmt|]. intros env2 junk_heap s Hs.
  pose proof Hf as (Hdev & Hc & Hfit & Hb & _).
  assert (Hbs16 : BLOCK_SIZE cfg < 2 ^ 16) by (rewrite Hbs; reflexivity).
  pose proof (probe_after_format cfg env st0 st' g s Hbs Hino Hdev Hc Hfit Hfmt Hs)
    as Hcheck.
  destruct (read_info_after_format_if cfg env st0 st' g Hgds Hdev Hc Hfit Hfmt
              st' eq_refl)
    as (r1 & Hri1 & _ & Hg1 & _).
  destruct (read_info_ext cfg st' (read_block 1 s) r1) as (s2 & Hri & Hsg12);
    [cbn [read_block cache_read_block with_buf with_disk _disk blocks];
     rewrite Hs; reflexivity
    |exact Hri1|].
  assert (Hg2 : has_geometry g s2) by (eapply has_geometry_same; eassumption).
  destruct (read_info_state cfg (read_block 1 s) s2 Hri) as (Hd2 & _).
  destruct (format_metadata cfg env st0 st' g Hdev Hfmt Hc Hfit)
    as (lbs & _ & _ & Hfacts & Hgeo & _ & _).
  assert (Hblk2 : forall j, blk s2 j = blk st' j).
  { intros j. unfold blk. rewrite Hd2.
    cbn [read_block cache_read_block with_buf with_disk _disk blocks].
    rewrite Hs. reflexivity. }
  destruct (load_cached_metadata_spec cfg junk_heap g s2 Hfacts Hg2 Hb Hbs16)
    as (o & Ho & Hsup & Hgd & Hsg & Hblk & Hlog).
  { intros j Hj. rewrite Hblk2.
    exact (format_metadata_lengths cfg env st0 st' g Hbs16 Hdev Hfmt Hc Hfit j Hj). }
  exists o. split.
  { unfold Ext2m_ctor. rewrite Hcheck. cbn [negb]. rewrite Hri. exact Ho. }
  split.
  { eapply same_geometry_trans; [|exact Hsg].
    eapply has_geometry_agree; eassumption. }
  split; [intros j; rewrite Hblk; apply Hblk2|].
  split.
  { exists (rev (map (fun j => EvRead (2 + Z.of_nat j))
                   (seq 0 (Z.to_nat (g_group_desc_block_count g))))
            ++ [EvRead 1; EvRead 1; EvRead 1]).
    split.
    - rewrite Hlog, Hd2.
      cbn [read_block cache_read_block with_buf with_disk _disk io_log].
      rewrite Hs, <- app_assoc. reflexivity.
    - apply Forall_app. split; [apply Forall_is_read_rev_map | repeat constructor]. }
  split.
  { rewrite Hsup, Hblk2. reflexivity. }
  rewrite Hgd. unfold descriptors_on_disk.
  replace (full_group_count s2) with (full_group_count st')
    by (destruct Hgeo as (-> & _); symmetry; apply Hg2).
  f_equal. unfold desc_table_on_disk.
  change (get_group_group_desc_table_index s2 0) with 2.
  change (get_group_group_desc_table_index st' 0) with 2.
  replace (group_desc_block_count s2) with (group_desc_block_count st')
    by (destruct Hgeo as (_ & _ & _ & -> & _); symmetry; apply Hg2).
  f_equal. apply map_ext. intros j. apply Hblk2.
Qed.

Lemma Ext2m_ctor_mounts_witness :
  exists st',
    format cfg17 env0 blank17 = Ok st' /\
    forall env2 junk_heap s, _disk s = _disk st' ->
      exists o,
        Ext2m_ctor cfg17 env2 junk_heap s = Ok o /\
        same_geometry st' (members o) /\
        (forall j, blk (members o) j = blk st' j) /\
        (exists evs, io_log (_disk (members o)) = evs ++ io_log (_disk st') /\
                     Forall is_read evs) /\
        _superb o = load_bytes 0 SB.size (blk st' 1) /\
        _group_desc o = descriptors_on_disk st'.
Proof.
  apply (Ext2m_ctor_mounts cfg17 env0 blank17 g17);
    [reflexivity | split; [vm_compute; discriminate | reflexivity] | reflexivity
    | apply formattable_blank17].
Defined.

(** X28. A superblock that passes the six checks of the probe with
    [s_inodes_per_group = 0] (the probe only bounds it from above): the
    probe accepts the device, [read_info] divides by zero, and the
    constructor has no result. *)
Theorem Ext2m_ctor_zero_inodes_per_group
    (cfg : Config) (env : Env) (junk_heap : nat -> Z) (st : Ext2m) :
  0 < BLOCK_SIZE cfg < 2 ^ 31 ->
  probe_checks cfg (blk st 1) ->
  load SB.s_inodes_per_group (blk st 1) = 0 ->
  check_is_ext2_format cfg st = Ok (true, read_block 1 st) /\
  read_info cfg (read_block 1 st) = Undefined /\
  Ext2m_ctor cfg env junk_heap st = Undefined.
Proof.
  intros Hbs Hp Hz.
  assert (Hs : 0 <= load SB.s_log_block_size (blk st 1)).
  { destruct Hp as (_ & Hl & _).
    destruct (Z.le_gt_cases 0 (load SB.s_log_block_size (blk st 1))) as [|Hneg];
      [assumption|].
    rewrite Z.pow_neg_r in Hl by lia. lia. }
  destruct (check_is_ext2_format_spec cfg st Hbs Hs) as ((_ & Hacc) & _).
  destruct (Hacc Hp) as (s' & Hs').
  pose proof (check_is_ext2_format_state _ _ _ _ Hs') as ->.
  assert (Hri : read_info cfg (read_block 1 st) = Undefined).
  { unfold read_info.
    cbn [read_block cache_read_block with_buf with_disk _buf _disk blocks].
    change (blocks (_disk st) 1) with (blk st 1). rewrite Hz. reflexivity. }
  split; [exact Hs'|]. split; [exact Hri|].
  unfold Ext2m_ctor. rewrite Hs'. cbn [negb]. rewrite Hri. reflexivity.
Qed.


Lemma Ext2m_ctor_zero_inodes_per_group_witness :
  let st := fresh cfg17 {| blocks := fun _ => empty_group_superblock; io_log := [] |} in
  check_is_ext2_format cfg17 st = Ok (true, read_block 1 st) /\
  read_info cfg17 (read_block 1 st) = Undefined /\
  Ext2m_ctor cfg17 env0 (fun _ => 0) st = Undefined.
Proof.
  apply (Ext2m_ctor_zero_inodes_per_group cfg17 env0 (fun _ => 0)
           (fresh cfg17 {| blocks := fun _ => empty_group_superblock; io_log := [] |}));
    [split; reflexivity
    | repeat split; try reflexivity; vm_compute; discriminate
    | reflexivity].
Defined.
